(** * xprezzo-json-parser: the JSON body-parsing middleware of [lib/json.js]

    A shallow embedding of [lib/json.js] and the properties of its
    observable contract.

    - JavaScript strings are sequences of UTF-16 code units ([list N]).
    - The functions of [lib/json.js] keep their names: [parseBody],
      [checkParse], [createReader], [JsonParser], [createStrictSyntaxError],
      [firstchar], [getCharset], [normalizeJsonSyntaxError], [typeChecker].
    - Calls into the JavaScript runtime ([JSON.parse], [RegExp.prototype.exec],
      error construction) and into the required packages ([type-is],
      [content-type], [bytes], the body [Reader]) are the methods of two
      interfaces, [Runtime] and [Collaborators]; every theorem that does not
      speak about diagnostic texts holds for all their implementations.
    - Effects are explicit: a computation returns the trace of the calls it
      made (debug lines, runtime calls, continuation calls) next to its
      completion, which is a value or a thrown error object. *)

From Stdlib Require Import ZArith NArith List String Ascii Bool Lia.
From Stdlib Require Import DecimalString DecimalN DecimalPos DecimalFacts.
From stdpp Require Import base gmap strings list.

Local Open Scope N_scope.

(** ** Strings *)

(** A JavaScript string: its UTF-16 code units. *)
Abbreviation jsstring := (list N).

(** The code units of an ASCII literal. *)
Definition js (s : string) : jsstring :=
  map N_of_ascii (list_ascii_of_string s).

(** The code unit of an ASCII character. *)
Definition ch (a : ascii) : N := N_of_ascii a.

(** [a === b] on strings. *)
Definition jsstring_eqb (a b : jsstring) : bool :=
  bool_decide (a = b).

(** [String.prototype.length]. *)
Definition jslength (s : jsstring) : Z := Z.of_nat (length s).

(** Decimal rendering of a non-negative integer, as string concatenation
    with a number prints it. *)
Definition decimal (n : N) : jsstring :=
  js (NilZero.string_of_uint (N.to_uint n)).

(** [s.startsWith(p)]. *)
Fixpoint is_prefix (p s : jsstring) : bool :=
  match p, s with
  | [], _ => true
  | _ :: _, [] => false
  | a :: p', b :: s' => (a =? b) && is_prefix p' s'
  end.

(** [str.indexOf(pat)]: position of the first occurrence, [-1] when there is
    none. *)
Fixpoint indexOf_from (i : Z) (s pat : jsstring) : Z :=
  if is_prefix pat s then i
  else match s with
       | [] => (-1)%Z
       | _ :: s' => indexOf_from (i + 1)%Z s' pat
       end.

(** [s.indexOf(pat)]: the first position where [pat] occurs, or [-1]. *)
Definition indexOf (s pat : jsstring) : Z := indexOf_from 0%Z s pat.

(** [str.substring(a, b)]: both ends clamped to [0 .. length], swapped when
    out of order. *)
Definition clamp (len x : Z) : Z := Z.min (Z.max x 0) len.

(** [s.substring(a, b)]. *)
Definition substring (s : jsstring) (a b : Z) : jsstring :=
  let a' := clamp (jslength s) a in
  let b' := clamp (jslength s) b in
  let lo := Z.min a' b' in
  let hi := Z.max a' b' in
  take (Z.to_nat (hi - lo)) (drop (Z.to_nat lo) s).

(** [str.substr(start, len)]: a negative start counts from the end. *)
Definition substr (s : jsstring) (start len : Z) : jsstring :=
  let size := jslength s in
  let from := if (start <? 0)%Z then Z.max (size + start) 0 else Z.min start size in
  let n := Z.min (Z.max len 0) (size - from) in
  take (Z.to_nat n) (drop (Z.to_nat from) s).

(** The replacement text of [String.prototype.replace] for a string pattern
    (GetSubstitution with no capture groups): [$$] is a dollar sign, [$&] the
    matched text, [$`] the text before the match, [$'] the text after it;
    every other character, a dollar sign before anything else included,
    stands for itself. *)
Fixpoint GetSubstitution (matched before after repl : jsstring) : jsstring :=
  match repl with
  | [] => []
  | x :: tl =>
      if x =? ch "$" then
        match tl with
        | [] => [x]
        | c :: rest =>
            if c =? ch "$" then ch "$" :: GetSubstitution matched before after rest
            else if c =? ch "&" then matched ++ GetSubstitution matched before after rest
            else if c =? ch "`" then before ++ GetSubstitution matched before after rest
            else if c =? ch "'" then after ++ GetSubstitution matched before after rest
            else x :: GetSubstitution matched before after tl
        end
      else x :: GetSubstitution matched before after tl
  end.

(** [str.replace(pat, repl)] with a string pattern: only the first
    occurrence is replaced. *)
Definition replace (s pat repl : jsstring) : jsstring :=
  let pos := indexOf s pat in
  if (pos <? 0)%Z then s
  else
    let before := take (Z.to_nat pos) s in
    let after := drop (Z.to_nat pos + length pat) s in
    before ++ GetSubstitution pat before after repl ++ after.

(** Case mapping of the letters of ASCII and Latin-1, the text a header
    value is made of.  The full Unicode mapping belongs to the runtime. *)
Definition lower_unit (c : N) : N :=
  if (65 <=? c) && (c <=? 90) then c + 32
  else if (192 <=? c) && (c <=? 222) && negb (c =? 215) then c + 32
  else c.

(** [toLowerCase] on Latin-1 text. *)
Definition toLowerCase_latin1 (s : jsstring) : jsstring := map lower_unit s.

(** The upper case of a Latin-1 code unit; the sharp s becomes two letters,
    the micro sign and the y with diaeresis leave Latin-1. *)
Definition upper_unit (c : N) : jsstring :=
  if (97 <=? c) && (c <=? 122) then [c - 32]
  else if (224 <=? c) && (c <=? 254) && negb (c =? 247) then [c - 32]
  else if c =? 223 then [83; 83]
  else if c =? 181 then [924]
  else if c =? 255 then [376]
  else [c].

(** [toUpperCase] on Latin-1 text. *)
Definition toUpperCase_latin1 (s : jsstring) : jsstring := flat_map upper_unit s.

(** ** Character classes of the regular expression [/^\s*(.)/] *)

(** LineTerminator: LF, CR, LS, PS.  The dot matches everything else. *)
Definition is_line_terminator (c : N) : bool :=
  (c =? 10) || (c =? 13) || (c =? 8232) || (c =? 8233).

(** [\s]: WhiteSpace and LineTerminator. *)
Definition is_whitespace (c : N) : bool :=
  (c =? 9) || (c =? 11) || (c =? 12) || (c =? 32) || (c =? 160)
  || (c =? 5760) || ((8192 <=? c) && (c <=? 8202)) || (c =? 8239)
  || (c =? 8287) || (c =? 12288) || (c =? 65279)
  || is_line_terminator c.

(** The four white space characters of the JSON grammar. *)
Definition is_json_whitespace (c : N) : bool :=
  (c =? 9) || (c =? 10) || (c =? 13) || (c =? 32).

(** One attempt at [(.)] at the current position. *)
Definition match_dot (s : jsstring) : option N :=
  match s with
  | c :: _ => if is_line_terminator c then None else Some c
  | [] => None
  end.

(** [/^\s*(.)/.exec(str)]: the star is greedy and backtracks, giving back
    one white space character at a time until the dot matches.  The result
    is the match array, here the pair of [match[0]] and [match[1]], or
    [None] for [null]. *)
Fixpoint exec_firstchar (s : jsstring) : option (jsstring * jsstring) :=
  match s with
  | [] => None
  | c :: rest =>
      if is_whitespace c then
        match exec_firstchar rest with
        | Some (whole, cap) => Some (c :: whole, cap)
        | None => option_map (fun d => ([d], [d])) (match_dot s)
        end
      else option_map (fun d => ([d], [d])) (match_dot s)
  end.

(** ** Values *)

(** A Number.  Binary floating point is not interpreted: a finite number is
    kept as the decimal [coef * 10 ^ exp10] it is written as, which stands
    for the double nearest to it. *)
Inductive Number : Type :=
| NaN
| Infinity (neg : bool)
| Dec (neg : bool) (coef : N) (exp10 : Z).

(** A reference to a host function (a callback handed in by the caller). *)
Abbreviation FunRef := N.

(** The values the module handles: the JSON data model, with [undefined]
    and functions for the options and the reviver.  An object is the list of
    its own enumerable properties in creation order. *)
#[warnings="-register-all"]
Inductive Value : Type :=
| VUndefined
| VNull
| VBool (b : bool)
| VNum (n : Number)
| VStr (s : jsstring)
| VArr (elems : list Value)
| VObj (props : list (jsstring * Value))
| VFun (f : FunRef).

(** The empty object literal. *)
Definition empty_object : Value := VObj [].

(** ToBoolean: what [||] and [if] test. *)
Definition ToBoolean (v : Value) : bool :=
  match v with
  | VUndefined | VNull => false
  | VBool b => b
  | VNum NaN => false
  | VNum (Dec _ coef _) => negb (coef =? 0)
  | VNum (Infinity _) => true
  | VStr s => negb (jsstring_eqb s [])
  | VArr _ | VObj _ | VFun _ => true
  end.

(** [a || b]. *)
Definition js_or (a b : Value) : Value := if ToBoolean a then a else b.

(** [typeof v === 'function'] and [typeof v === 'number']. *)
Definition is_function (v : Value) : bool :=
  match v with VFun _ => true | _ => false end.

(** [typeof v === 'number']. *)
Definition is_number (v : Value) : bool :=
  match v with VNum _ => true | _ => false end.

(** [v !== false]. *)
Definition strict_neq_false (v : Value) : bool :=
  match v with VBool false => false | _ => true end.

(** ** Error objects, completions and traces *)

Inductive ErrorCtor : Type := CError | CSyntaxError | CTypeError.

(** An error object with its own properties: [message] and [stack], which
    the runtime gives every error it creates, and [extra], all the other own
    properties by name. *)
Record JsError : Type := mkJsError {
  ctor : ErrorCtor;
  message : jsstring;
  stack : jsstring;
  extra : gmap string Value
}.

(** How an evaluation ends: with a value, or with a thrown error. *)
Inductive Completion (A : Type) : Type :=
| Return (a : A)
| Throw (e : JsError).
Arguments Return {A} a.
Arguments Throw {A} e.

(** The options object passed to the body reader. *)
Record ReaderOptions : Type := mkReaderOptions {
  encoding : jsstring;
  inflate : bool;
  limit : Value;
  verify : Value
}.

(** What a computation does besides returning: the calls it makes, in order. *)
Inductive Event : Type :=
| EvDebug (line : string)
    (* debug(line) *)
| EvDebugHeader (line : string) (arg : option jsstring)
    (* debug(line, header value) *)
| EvRegExpExec (str : jsstring)
    (* /^\s*(.)/.exec(str) *)
| EvJSONParse (text : jsstring) (reviver : Value)
    (* JSON.parse(text, reviver) *)
| EvHasBody
    (* typeis.hasBody(req) *)
| EvShouldParse
    (* self.shouldParse(req) *)
| EvNext (err : option JsError)
    (* next() and next(err) *)
| EvReader (opts : ReaderOptions).
    (* Reader(req, res, next, parse, debug, opts) *)

(** A computation: its trace and its completion. *)
Record M (A : Type) : Type := mkM {
  trace : list Event;
  outcome : Completion A
}.
Arguments mkM {A} trace outcome.
Arguments trace {A} m.
Arguments outcome {A} m.

(** An evaluation that does nothing but return. *)
#[global] Instance M_ret : MRet M := fun A a => mkM [] (Return a).

(** Sequencing: the effects of the first evaluation come first, and an
    error it throws ends the whole. *)
#[global] Instance M_bind : MBind M := fun A B k m =>
  match outcome m with
  | Return a => mkM (trace m ++ trace (k a)) (outcome (k a))
  | Throw e => mkM (trace m) (Throw e)
  end.

(** [throw e]. *)
Definition throw {A : Type} (e : JsError) : M A := mkM [] (Throw e).

(** One observable effect. *)
Definition emit (ev : Event) : M unit := mkM [ev] (Return tt).

(** [debug(msg)]. *)
Definition debug (line : string) : M unit := emit (EvDebug line).

(** [try { body } catch (e) { handler e }]. *)
Definition try_catch {A : Type} (body : M A) (handler : JsError -> M A) : M A :=
  match outcome body with
  | Return a => body
  | Throw e => mkM (trace body ++ trace (handler e)) (outcome (handler e))
  end.

(** ** The runtime and the required packages *)

(** What the code asks of the JavaScript engine. *)
Class Runtime : Type := {
  (** [JSON.parse(text, reviver)] *)
  JSON_parse : jsstring -> Value -> Completion Value;
  (** the stack text captured for a new error of this constructor and message *)
  captureStack : ErrorCtor -> jsstring -> jsstring;
  (** the message of the TypeError raised by reading index 1 of [null] *)
  null_index_message : jsstring;
  (** [String.prototype.toLowerCase] and [String.prototype.toUpperCase] *)
  toLowerCase : jsstring -> jsstring;
  toUpperCase : jsstring -> jsstring
}.

(** [new Ctor(msg)]. *)
Definition new_error `{RT : Runtime} (c : ErrorCtor) (msg : jsstring) : JsError :=
  {| ctor := c; message := msg; stack := captureStack c msg; extra := ∅ |}.

(** The request, as far as the middleware reads and writes it. *)
Record Request : Type := mkRequest {
  _body : bool;
  body : Value;
  headers : gmap string jsstring
}.

(** The result of [contentType.parse]: the media type and its parameters. *)
Record MediaType : Type := mkMediaType {
  media_type : jsstring;
  parameters : gmap string jsstring
}.

(** What the code asks of the packages it requires. *)
Class Collaborators : Type := {
  (** [typeis.hasBody(req)] *)
  hasBody : Request -> bool;
  (** [Boolean(typeis(req, type))] *)
  typeis : Request -> Value -> bool;
  (** the truth value of [fn(req)] for a caller-supplied type function *)
  call_type_fn : FunRef -> Request -> bool;
  (** [contentType.parse(req)], [None] when it throws *)
  contentType_parse : Request -> option MediaType;
  (** [bytes.parse(v)] *)
  bytes_parse : Value -> Value
}.

(** ** [lib/json.js] *)

(** The options record handed to the module; an absent option is
    [VUndefined]. *)
Module Opts.
Record t : Type := mk {
  limit : Value;
  inflate : Value;
  strict : Value;
  type : Value;
  verify : Value;
  reviver : Value
}.
(** [{}] *)
Definition empty : t :=
  mk VUndefined VUndefined VUndefined VUndefined VUndefined VUndefined.
End Opts.

(** The object [prop.get(this)]: the options with the fields the constructor
    adds to them. *)
Record Self : Type := mkSelf {
  options : Opts.t;
  parsedLimit : Value;
  parsedInflate : bool;
  parsedStrict : bool;
  parsedType : Value;
  parsedVerify : Value;
  shouldParse : Request -> bool
}.

(** The literal [{ message: ..., stack: ... }] handed to
    [normalizeJsonSyntaxError]. *)
Record Obj : Type := mkObj {
  obj_message : jsstring;
  obj_stack : jsstring
}.

(** [Object.getOwnPropertyNames(error)]. *)
Definition getOwnPropertyNames (error : JsError) : list string :=
  "stack"%string :: "message"%string :: (map_to_list (extra error)).*1.

(** [delete error[key]], for the keys the loop below deletes. *)
Definition delete_property (key : string) (error : JsError) : JsError :=
  {| ctor := ctor error; message := message error; stack := stack error;
     extra := delete key (extra error) |}.

(** The body of the loop over the keys. *)
Definition normalize_step (error : JsError) (key : string) : JsError :=
  if negb (String.eqb key "stack") && negb (String.eqb key "message")
  then delete_property key error
  else error.

(** [normalizeJsonSyntaxError(error, obj)]: the own properties of [error]
    other than [stack] and [message] are deleted, then the stack is set to
    [obj.stack] with the first occurrence of the message of [error] replaced
    by [obj.message], and the message to [obj.message]. *)
Definition normalizeJsonSyntaxError (error : JsError) (obj : Obj) : JsError :=
  let keys := getOwnPropertyNames error in
  let error1 := foldl normalize_step error keys in
  (* replace stack before message *)
  let error2 :=
    {| ctor := ctor error1; message := message error1;
       stack := replace (obj_stack obj) (message error1) (obj_message obj);
       extra := extra error1 |} in
  {| ctor := ctor error2; message := obj_message obj;
     stack := stack error2; extra := extra error2 |}.

Section Source.
Context `{RT : Runtime} `{CO : Collaborators}.

(** A call of [JSON.parse], recorded in the trace. *)
Definition call_JSON_parse (text : jsstring) (reviver : Value) : M Value :=
  mkM [EvJSONParse text reviver] (JSON_parse text reviver).

(** [createStrictSyntaxError(str, char)]: [JSON.parse] is called on the text
    before the first [char] followed by [#]; the error it throws is
    normalised with [char] in the place of [#] in its message.  Should the
    call return, the [SyntaxError('strict violation')] that is thrown in the
    [try] block is caught and normalised the same way. *)
Definition createStrictSyntaxError (str char : jsstring) : M JsError :=
  let index := indexOf str char in
  let partial := substring str 0 index ++ js "#" in
  try_catch
    (call_JSON_parse partial VUndefined;;
     throw (new_error CSyntaxError (js "strict violation")))
    (fun e =>
       mret (normalizeJsonSyntaxError e
               {| obj_message := replace (message e) (js "#") char;
                  obj_stack := stack e |})).

(** [firstchar(str)]: [FIRST_CHAR_REGEXP.exec(str)[1]]; reading index 1 of
    [null] is a TypeError. *)
Definition firstchar (str : jsstring) : M jsstring :=
  emit (EvRegExpExec str);;
  match exec_firstchar str with
  | Some (_, capture) => mret capture
  | None => throw (new_error CTypeError null_index_message)
  end.

(** [parseBody(body)], with [this] as [self]. *)
Definition parseBody (self : Self) (body : jsstring) : M Value :=
  if (jslength body =? 0)%Z then
    (* special-case empty json body *)
    mret empty_object
  else
    (if parsedStrict self then
       first ← firstchar body;
       if negb (jsstring_eqb first (js "{")) && negb (jsstring_eqb first (js "["))
       then
         debug "strict violation";;
         e ← createStrictSyntaxError body first;
         throw e
       else mret tt
     else mret tt);;
    try_catch
      (debug "parse json";;
       call_JSON_parse body (Opts.reviver (options self)))
      (fun e =>
         throw (normalizeJsonSyntaxError e
                  {| obj_message := message e; obj_stack := stack e |})).

(** Modelled from the spec: the HTTP error factory [createError] of the
    required package is not part of [lib/json.js].  It makes an error that
    carries the HTTP status code and the given properties, among them the
    machine-readable kind under [type]. *)
Definition createError (status : N) (msg : jsstring)
    (props : gmap string Value) : JsError :=
  {| ctor := CError; message := msg; stack := captureStack CError msg;
     extra := <["status"%string := VNum (Dec false status 0)]> props |}.

(** A call of the continuation [next], with or without an error. *)
Definition next (err : option JsError) : M unit := emit (EvNext err).

(** [checkParse(req, res, next, self, charset)]: whether the body is to be
    read; [next] has been called when it is not. *)
Definition checkParse (req : Request) (self : Self) (charset : jsstring) : M bool :=
  if _body req then
    debug "body already parsed";;
    next None;;
    mret false
  else
    (* skip requests without bodies *)
    emit EvHasBody;;
    if negb (hasBody req) then
      debug "skip empty body";;
      next None;;
      mret false
    else
      emit (EvDebugHeader "content-type %j" (headers req !! "content-type"%string));;
      (* determine if request should be parsed *)
      emit EvShouldParse;;
      if negb (shouldParse self req) then
        debug "skip parsing";;
        next None;;
        mret false
      else if negb (jsstring_eqb (substr charset 0 4) (js "utf-")) then
        debug "invalid charset";;
        next (Some (createError 415
                      (js "unsupported charset " ++ [34] ++ toUpperCase charset ++ [34])
                      (<["charset"%string := VStr charset]>
                         (<["type"%string := VStr (js "charset.unsupported")]> ∅))));;
        mret false
      else mret true.

(** [getCharset(req)]: the lower-cased [charset] parameter of the content
    type (the empty string when there is none), [undefined] when the
    header cannot be parsed. *)
Definition getCharset (req : Request) : option jsstring :=
  match contentType_parse req with
  | Some mt => Some (toLowerCase (default [] (parameters mt !! "charset"%string)))
  | None => None
  end.

(** [req.body = v]. *)
Definition set_body (v : Value) (req : Request) : Request :=
  {| _body := _body req; body := v; headers := headers req |}.

(** [req.body = req.body || {}]. *)
Definition with_default_body (req : Request) : Request :=
  set_body (js_or (body req) empty_object) req.

(** [getCharset(req) || 'utf-8']: the empty string counts as absent. *)
Definition resolve_charset (req : Request) : jsstring :=
  match getCharset req with
  | Some ((_ :: _) as c) => c
  | _ => js "utf-8"
  end.

(** The body reader required by the module: given the request, the parse
    callback and its options, it ends by calling [next] and leaves the
    request as it made it. *)
Context (Reader : Request -> (jsstring -> M Value) -> ReaderOptions -> M Request).

(** The handler [(req, res, next) => ...] that [createReader] returns.  It
    yields the request as the handler and the reader left it. *)
Definition createReader (self : Self) (req : Request) : M Request :=
  let req := with_default_body req in
  (* assert charset per RFC 7159 sec 8.1 *)
  let charset := resolve_charset req in
  ok ← checkParse req self charset;
  if negb ok then mret req
  else
    let opts :=
      {| encoding := charset; inflate := parsedInflate self;
         limit := parsedLimit self; verify := parsedVerify self |} in
    emit (EvReader opts);;
    Reader req (parseBody self) opts.

(** [typeChecker(type)]. *)
Definition typeChecker (type : Value) : Request -> bool :=
  fun req => typeis req type.

(** The body of the constructor up to [prop.set(this, opts)]. *)
Definition JsonParser_opts (options : option Opts.t) : Completion Self :=
  let opts := default Opts.empty options in
  let parsedLimit :=
    if negb (is_number (Opts.limit opts))
    then bytes_parse (js_or (Opts.limit opts) (VStr (js "100kb")))
    else Opts.limit opts in
  let parsedInflate := strict_neq_false (Opts.inflate opts) in
  let parsedStrict := strict_neq_false (Opts.strict opts) in
  let parsedType := js_or (Opts.type opts) (VStr (js "application/json")) in
  let parsedVerify := js_or (Opts.verify opts) (VBool false) in
  if strict_neq_false parsedVerify && negb (is_function parsedVerify) then
    Throw (new_error CTypeError (js "option verify must be function"))
  else
    (* create the appropriate type checking function *)
    let shouldParse :=
      match parsedType with
      | VFun f => call_type_fn f
      | _ => typeChecker parsedType
      end in
    Return {| options := opts; parsedLimit := parsedLimit;
              parsedInflate := parsedInflate; parsedStrict := parsedStrict;
              parsedType := parsedType; parsedVerify := parsedVerify;
              shouldParse := shouldParse |}.

(** [new JsonParser(options)], which is also [module.exports(options)]:
    the handler closing over the constructed options. *)
Definition JsonParser (options : option Opts.t) : Completion (Request -> M Request) :=
  match JsonParser_opts options with
  | Return self => Return (createReader self)
  | Throw e => Throw e
  end.

End Source.

(** ** A reference engine

    [JSON.parse] as ECMA-262 defines it (the JSON grammar of ECMA-404, the
    reviver walk of InternalizeJSONProperty), with the diagnostics of the V8
    engine the module ran on: a syntax error names the character the scan
    stopped at and its position.  Object keys are kept in the order of the
    text.  It serves the statements about diagnostic texts and the closed
    examples. *)
Module RefEngine.

(** The scan of a prefix of the input: the value read, what is left and
    the position reached; or the position the scan stopped at and the code
    unit found there ([None] at the end of the input). *)
Inductive Parsed (A : Type) : Type :=
| Ok (a : A) (rest : jsstring) (pos : N)
| Bad (pos : N) (found : option N).
Arguments Ok {A} a rest pos.
Arguments Bad {A} pos found.

(** The parser stops on the input that is left: at its first code unit, or
    at the end of the text. *)
Definition stop_at {A : Type} (s : jsstring) (pos : N) : Parsed A :=
  Bad pos (head s).

(** JSON white space is skipped. *)
Fixpoint skip_ws (s : jsstring) (pos : N) : jsstring * N :=
  match s with
  | c :: rest => if is_json_whitespace c then skip_ws rest (pos + 1) else (s, pos)
  | [] => (s, pos)
  end.

(** The rest of a literal name ([true], [false], [null]). *)
Fixpoint expect (word s : jsstring) (pos : N) : Parsed unit :=
  match word with
  | [] => Ok tt s pos
  | w :: word' =>
      match s with
      | c :: rest => if c =? w then expect word' rest (pos + 1) else stop_at s pos
      | [] => stop_at s pos
      end
  end.

(** A decimal digit. *)
Definition is_digit (c : N) : bool := (48 <=? c) && (c <=? 57).

(** The longest run of digits at the start, as their values, and the rest. *)
Fixpoint take_digits (s : jsstring) : list N * jsstring :=
  match s with
  | c :: rest =>
      if is_digit c then
        let '(ds, rest') := take_digits rest in (c - 48 :: ds, rest')
      else ([], s)
  | [] => ([], s)
  end.

(** The number a list of digit values writes. *)
Definition of_digits (ds : list N) : N :=
  foldl (fun acc d => 10 * acc + d) 0 ds.

(** Digits without their trailing zeros, and how many were dropped. *)
Fixpoint strip_trailing_zeros (ds : list N) : list N * Z :=
  match ds with
  | [] => ([], 0%Z)
  | d :: ds' =>
      let '(r, k) := strip_trailing_zeros ds' in
      match r with
      | [] => if d =? 0 then ([], (k + 1)%Z) else ([d], k)
      | _ => (d :: r, k)
      end
  end.

(** The number written with these integer digits, fraction digits and
    exponent. *)
Definition decimal_value (neg : bool) (int frac : list N) (e : Z) : Number :=
  let '(ds, k) := strip_trailing_zeros (int ++ frac) in
  let coef := of_digits ds in
  if coef =? 0 then Dec neg 0 0
  else Dec neg coef (e - Z.of_nat (length frac) + k).

(** The optional exponent part of a number. *)
Definition parse_exponent (s : jsstring) (pos : N) : Parsed Z :=
  match s with
  | c :: rest =>
      if (c =? ch "e") || (c =? ch "E") then
        let '(sign, rest1, pos1) :=
          match rest with
          | d :: rest' =>
              if d =? ch "-" then (true, rest', pos + 2)
              else if d =? ch "+" then (false, rest', pos + 2)
              else (false, rest, pos + 1)
          | [] => (false, rest, pos + 1)
          end in
        match take_digits rest1 with
        | ([], _) => stop_at rest1 pos1
        | (ds, rest2) =>
            let e := Z.of_N (of_digits ds) in
            Ok (if sign then (- e)%Z else e) rest2 (pos1 + N.of_nat (length ds))
        end
      else Ok 0%Z s pos
  | [] => Ok 0%Z s pos
  end.

(** The optional fraction part of a number. *)
Definition parse_fraction (s : jsstring) (pos : N) : Parsed (list N) :=
  match s with
  | c :: rest =>
      if c =? ch "." then
        match take_digits rest with
        | ([], _) => stop_at rest (pos + 1)
        | (ds, rest1) => Ok ds rest1 (pos + 1 + N.of_nat (length ds))
        end
      else Ok [] s pos
  | [] => Ok [] s pos
  end.

(** A JSON number: sign, integer part without superfluous leading zero,
    fraction, exponent. *)
Definition parse_number (s : jsstring) (pos : N) : Parsed Value :=
  let '(neg, s1, pos1) :=
    match s with
    | c :: rest => if c =? ch "-" then (true, rest, pos + 1) else (false, s, pos)
    | [] => (false, s, pos)
    end in
  let int_part : Parsed (list N) :=
    match s1 with
    | c :: rest =>
        if c =? ch "0" then Ok [0] rest (pos1 + 1)
        else match take_digits s1 with
             | ([], _) => stop_at s1 pos1
             | (ds, rest1) => Ok ds rest1 (pos1 + N.of_nat (length ds))
             end
    | [] => stop_at s1 pos1
    end in
  match int_part with
  | Bad p f => Bad p f
  | Ok int s2 pos2 =>
      match parse_fraction s2 pos2 with
      | Bad p f => Bad p f
      | Ok frac s3 pos3 =>
          match parse_exponent s3 pos3 with
          | Bad p f => Bad p f
          | Ok e s4 pos4 => Ok (VNum (decimal_value neg int frac e)) s4 pos4
          end
      end
  end.

(** The value of a hexadecimal digit. *)
Definition hex_value (c : N) : option N :=
  if is_digit c then Some (c - 48)
  else if (97 <=? c) && (c <=? 102) then Some (c - 87)
  else if (65 <=? c) && (c <=? 70) then Some (c - 55)
  else None.

(** The character an escape letter stands for. *)
Definition escape_value (c : N) : option N :=
  if (c =? 34) || (c =? 92) || (c =? 47) then Some c
  else if c =? ch "b" then Some 8
  else if c =? ch "f" then Some 12
  else if c =? ch "n" then Some 10
  else if c =? ch "r" then Some 13
  else if c =? ch "t" then Some 9
  else None.

(** The characters of a string after its opening quote, up to and
    including the closing one. *)
Fixpoint parse_string (s : jsstring) (pos : N) (acc : jsstring) : Parsed jsstring :=
  match s with
  | [] => Bad pos None
  | c :: rest =>
      if c =? 34 then Ok (rev acc) rest (pos + 1)
      else if c =? 92 then
        match rest with
        | [] => Bad (pos + 1) None
        | e :: rest1 =>
            if e =? ch "u" then
              match rest1 with
              | h1 :: h2 :: h3 :: h4 :: rest2 =>
                  match hex_value h1, hex_value h2, hex_value h3, hex_value h4 with
                  | Some a, Some b, Some c', Some d =>
                      parse_string rest2 (pos + 6)
                        (((a * 16 + b) * 16 + c') * 16 + d :: acc)
                  | None, _, _, _ => Bad (pos + 2) (Some h1)
                  | _, None, _, _ => Bad (pos + 3) (Some h2)
                  | _, _, None, _ => Bad (pos + 4) (Some h3)
                  | _, _, _, None => Bad (pos + 5) (Some h4)
                  end
              | _ => Bad (pos + 2 + N.of_nat (length rest1)) None
              end
            else
              match escape_value e with
              | Some v => parse_string rest1 (pos + 2) (v :: acc)
              | None => Bad (pos + 1) (Some e)
              end
        end
      else if c <? 32 then Bad pos (Some c)
      else parse_string rest (pos + 1) (c :: acc)
  end.

(** [obj[key] = v] on an object under construction: a repeated key keeps
    its place and takes the later value. *)
Fixpoint set_prop (key : jsstring) (v : Value) (props : list (jsstring * Value))
    : list (jsstring * Value) :=
  match props with
  | [] => [(key, v)]
  | (k, w) :: props' =>
      if jsstring_eqb k key then (k, v) :: props'
      else (k, w) :: set_prop key v props'
  end.

(** A JSON value, with its members.  The fuel bounds the nesting; the length
    of the text is always enough (see [parse_text]). *)
Fixpoint parse_value (fuel : nat) (s : jsstring) (pos : N) : Parsed Value :=
  match fuel with
  | O => Bad pos None
  | S fuel' =>
      let '(s, pos) := skip_ws s pos in
      match s with
      | [] => Bad pos None
      | c :: rest =>
          if c =? ch "{" then
            let '(s1, pos1) := skip_ws rest (pos + 1) in
            match s1 with
            | d :: rest1 =>
                if d =? ch "}" then Ok (VObj []) rest1 (pos1 + 1)
                else parse_members fuel' s1 pos1 []
            | [] => Bad pos1 None
            end
          else if c =? ch "[" then
            let '(s1, pos1) := skip_ws rest (pos + 1) in
            match s1 with
            | d :: rest1 =>
                if d =? ch "]" then Ok (VArr []) rest1 (pos1 + 1)
                else parse_elements fuel' s1 pos1 []
            | [] => Bad pos1 None
            end
          else if c =? 34 then
            match parse_string rest (pos + 1) [] with
            | Ok str s1 pos1 => Ok (VStr str) s1 pos1
            | Bad p f => Bad p f
            end
          else if c =? ch "t" then
            match expect (js "rue") rest (pos + 1) with
            | Ok _ s1 pos1 => Ok (VBool true) s1 pos1
            | Bad p f => Bad p f
            end
          else if c =? ch "f" then
            match expect (js "alse") rest (pos + 1) with
            | Ok _ s1 pos1 => Ok (VBool false) s1 pos1
            | Bad p f => Bad p f
            end
          else if c =? ch "n" then
            match expect (js "ull") rest (pos + 1) with
            | Ok _ s1 pos1 => Ok VNull s1 pos1
            | Bad p f => Bad p f
            end
          else if (c =? ch "-") || is_digit c then parse_number s pos
          else stop_at s pos
      end
  end

(** The elements of an array from the current one to the closing bracket. *)
with parse_elements (fuel : nat) (s : jsstring) (pos : N) (acc : list Value)
    : Parsed Value :=
  match fuel with
  | O => Bad pos None
  | S fuel' =>
      match parse_value fuel' s pos with
      | Bad p f => Bad p f
      | Ok v s1 pos1 =>
          let '(s2, pos2) := skip_ws s1 pos1 in
          match s2 with
          | c :: rest =>
              if c =? ch "," then parse_elements fuel' rest (pos2 + 1) (v :: acc)
              else if c =? ch "]" then Ok (VArr (rev (v :: acc))) rest (pos2 + 1)
              else stop_at s2 pos2
          | [] => Bad pos2 None
          end
      end
  end

(** The members of an object from the current key to the closing brace. *)
with parse_members (fuel : nat) (s : jsstring) (pos : N)
    (acc : list (jsstring * Value)) : Parsed Value :=
  match fuel with
  | O => Bad pos None
  | S fuel' =>
      let '(s0, pos0) := skip_ws s pos in
      match s0 with
      | q :: rest0 =>
          if q =? 34 then
            match parse_string rest0 (pos0 + 1) [] with
            | Bad p f => Bad p f
            | Ok key s1 pos1 =>
                let '(s2, pos2) := skip_ws s1 pos1 in
                match s2 with
                | c :: rest2 =>
                    if c =? ch ":" then
                      match parse_value fuel' rest2 (pos2 + 1) with
                      | Bad p f => Bad p f
                      | Ok v s3 pos3 =>
                          let '(s4, pos4) := skip_ws s3 pos3 in
                          match s4 with
                          | d :: rest4 =>
                              if d =? ch "," then
                                parse_members fuel' rest4 (pos4 + 1) (set_prop key v acc)
                              else if d =? ch "}" then
                                Ok (VObj (set_prop key v acc)) rest4 (pos4 + 1)
                              else stop_at s4 pos4
                          | [] => Bad pos4 None
                          end
                      end
                    else stop_at s2 pos2
                | [] => Bad pos2 None
                end
            end
          else stop_at s0 pos0
      | [] => Bad pos0 None
      end
  end.

(** The whole text is one value between white space. *)
Definition parse_text (text : jsstring) : Parsed Value :=
  match parse_value (2 * length text + 2) text 0 with
  | Bad p f => Bad p f
  | Ok v rest pos =>
      let '(rest1, pos1) := skip_ws rest pos in
      match rest1 with
      | [] => Ok v [] pos1
      | _ :: _ => stop_at rest1 pos1
      end
  end.

(** The message of the syntax error for a scan that stopped at [pos]. *)
Definition syntax_message (pos : N) (found : option N) : jsstring :=
  match found with
  | None => js "Unexpected end of JSON input"
  | Some c =>
      if (c =? ch "-") || is_digit c then
        js "Unexpected number in JSON at position " ++ decimal pos
      else if c =? 34 then
        js "Unexpected string in JSON at position " ++ decimal pos
      else
        js "Unexpected token " ++ [c] ++ js " in JSON at position " ++ decimal pos
  end.

(** The name an error constructor prints. *)
Definition ctor_name (c : ErrorCtor) : jsstring :=
  match c with
  | CError => js "Error"
  | CSyntaxError => js "SyntaxError"
  | CTypeError => js "TypeError"
  end.

(** The stack text of a new error: its heading and the frames below. *)
Definition capture (c : ErrorCtor) (msg : jsstring) : jsstring :=
  ctor_name c ++ js ": " ++ msg ++ [10] ++ js "    at <anonymous>".

(** *** The reference encoder: [JSON.stringify] without indentation *)

Definition digit_char (d : N) : N := 48 + d.

(** A hexadecimal digit, in lower case. *)
Definition hex_char (d : N) : N := if d <? 10 then 48 + d else 87 + d.

(** QuoteJSONString, one code unit at a time. *)
Definition quote_unit (c : N) : jsstring :=
  if c =? 8 then js "\b"
  else if c =? 9 then js "\t"
  else if c =? 10 then js "\n"
  else if c =? 12 then js "\f"
  else if c =? 13 then js "\r"
  else if c =? 34 then [92; 34]
  else if c =? 92 then [92; 92]
  else if c <? 32 then js "\u00" ++ [hex_char (c / 16); hex_char (c mod 16)]
  else [c].

(** QuoteJSONString. *)
Definition quote (s : jsstring) : jsstring :=
  [34] ++ flat_map quote_unit s ++ [34].

(** The decimal digits of a positive number. *)
Definition digits_of (n : N) : list N :=
  map (fun c => c - 48) (decimal n).

(** Number::toString for a finite number, from its shortest digits
    [ds] (there are [k] of them) and the position [n] of the decimal
    point. *)
Definition number_to_string (x : Number) : jsstring :=
  match x with
  | NaN => js "NaN"
  | Infinity neg => (if neg then js "-" else []) ++ js "Infinity"
  | Dec neg coef e =>
      if coef =? 0 then js "0"
      else
        let '(ds, dropped) := strip_trailing_zeros (digits_of coef) in
        let cs := map digit_char ds in
        let k := Z.of_nat (length ds) in
        let n := (k + e + dropped)%Z in
        (if neg then js "-" else []) ++
        (if (k <=? n)%Z && (n <=? 21)%Z then
           cs ++ repeat 48 (Z.to_nat (n - k))
         else if (0 <? n)%Z && (n <=? 21)%Z then
           take (Z.to_nat n) cs ++ js "." ++ drop (Z.to_nat n) cs
         else if (-6 <? n)%Z && (n <=? 0)%Z then
           js "0." ++ repeat 48 (Z.to_nat (- n)) ++ cs
         else
           let exponent :=
             js "e" ++ (if (n - 1 <? 0)%Z then js "-" else js "+")
               ++ decimal (Z.abs_N (n - 1)) in
           match cs with
           | [d] => [d] ++ exponent
           | d :: more => [d] ++ js "." ++ more ++ exponent
           | [] => []
           end)
  end.

(** [parts.join(sep)]. *)
Definition join (sep : jsstring) (parts : list jsstring) : jsstring :=
  match parts with
  | [] => []
  | p :: ps => p ++ flat_map (fun q => sep ++ q) ps
  end.

(** SerializeJSONProperty: [None] is [undefined], the result for what JSON
    cannot hold.  Such an element of an array is written [null], such a
    member of an object is left out. *)
Fixpoint serialize (v : Value) : option jsstring :=
  match v with
  | VUndefined | VFun _ => None
  | VNull => Some (js "null")
  | VBool true => Some (js "true")
  | VBool false => Some (js "false")
  | VNum (Dec neg coef e) => Some (number_to_string (Dec neg coef e))
  | VNum _ => Some (js "null")
  | VStr s => Some (quote s)
  | VArr elems =>
      Some (js "[" ++
            join (js ",") (map (fun x => default (js "null") (serialize x)) elems)
            ++ js "]")
  | VObj props =>
      Some (js "{" ++
            join (js ",")
              (omap (fun '(k, x) =>
                       option_map (fun t => quote k ++ js ":" ++ t) (serialize x))
                    props)
            ++ js "}")
  end.

(** [JSON.stringify(v)] for a value it has a text for. *)
Definition stringify (v : Value) : jsstring := default [] (serialize v).

Section Reviver.
(** The caller's functions: [call f key value] is what [f] returns for a
    key and its value. *)
Variable call : FunRef -> jsstring -> Value -> Value.

(** The reviver walk, bottom-up; a property the reviver maps to
    [undefined] is deleted. *)
Fixpoint internalize (f : FunRef) (name : jsstring) (val : Value) {struct val} : Value :=
  call f name
    match val with
    | VArr elems =>
        VArr ((fix go (i : N) (xs : list Value) : list Value :=
                 match xs with
                 | [] => []
                 | x :: xs' => internalize f (decimal i) x :: go (i + 1) xs'
                 end) 0 elems)
    | VObj props =>
        VObj ((fix go (ps : list (jsstring * Value)) : list (jsstring * Value) :=
                 match ps with
                 | [] => []
                 | (k, v) :: ps' =>
                     match internalize f k v with
                     | VUndefined => go ps'
                     | v' => (k, v') :: go ps'
                     end
                 end) props)
    | v => v
    end.

(** [JSON.parse(text, reviver)]: a reviver that is not callable is ignored. *)
Definition parse (text : jsstring) (reviver : Value) : Completion Value :=
  match parse_text text with
  | Ok v _ _ =>
      match reviver with
      | VFun f => Return (internalize f [] v)
      | _ => Return v
      end
  | Bad pos found =>
      let msg := syntax_message pos found in
      Throw {| ctor := CSyntaxError; message := msg;
               stack := capture CSyntaxError msg; extra := ∅ |}
  end.

(** The runtime made of this parser. *)
Definition runtime : Runtime :=
  {| JSON_parse := parse;
     captureStack := capture;
     null_index_message := js "Cannot read property '1' of null";
     toLowerCase := toLowerCase_latin1;
     toUpperCase := toUpperCase_latin1 |}.
End Reviver.

End RefEngine.

(** ** The body reader *)

(** Modelled from the spec: the streaming body reader is a required package,
    not part of [lib/json.js].  Reading the stream, inflating, enforcing the
    limit, verifying and decoding either fail, and the failure goes to the
    error continuation without reaching the parse callback, or give the
    decoded text.  The parse callback is called with the text; its value is
    attached to the request, which is marked as parsed, and the success
    continuation is called; an error it throws goes to the error continuation
    as kind [entity.parse.failed], HTTP 400, carrying the raw body text. *)
Inductive StreamResult : Type :=
| ReadFailed (e : JsError)
| Decoded (text : jsstring).

(** Modelled from the spec: the error the reader passes on when the parse
    callback throws: the error thrown, as kind [entity.parse.failed] with
    HTTP status 400 and the raw body text. *)
Definition parse_failed (e : JsError) (text : jsstring) : JsError :=
  {| ctor := ctor e; message := message e; stack := stack e;
     extra := <["status"%string := VNum (Dec false 400 0)]>
                (<["type"%string := VStr (js "entity.parse.failed")]>
                   (<["body"%string := VStr text]> (extra e))) |}.

(** Modelled from the spec: the reader, given how reading the stream ends. *)
Definition SpecReader (stream : StreamResult) (req : Request)
    (parse : jsstring -> M Value) (opts : ReaderOptions) : M Request :=
  match stream with
  | ReadFailed e => next (Some e);; mret req
  | Decoded text =>
      let r := parse text in
      match outcome r with
      | Return v =>
          mkM (trace r) (Return tt);;
          next None;;
          mret {| _body := true; body := v; headers := headers req |}
      | Throw e =>
          mkM (trace r) (Return tt);;
          next (Some (parse_failed e text));;
          mret req
      end
  end.

(** ** Stand-ins for the required packages

    Small implementations of [type-is], [content-type] and [bytes], enough to
    run the handler on concrete requests: exact media types without
    wildcards, parameters of the form [name=value] with optional quotes,
    byte counts with the units [b], [kb], [mb] and [gb]. *)
Module Packages.

(** The text before the first occurrence of [sep], and the text after it
    if there is one. *)
Fixpoint split_at (sep : N) (s : jsstring) : jsstring * option jsstring :=
  match s with
  | [] => ([], None)
  | c :: rest =>
      if c =? sep then ([], Some rest)
      else let '(a, b) := split_at sep rest in (c :: a, b)
  end.

(** The pieces of [s] between the occurrences of [sep]. *)
Fixpoint split_all (fuel : nat) (sep : N) (s : jsstring) : list jsstring :=
  match fuel with
  | O => [s]
  | S fuel' =>
      match split_at sep s with
      | (a, None) => [a]
      | (a, Some rest) => a :: split_all fuel' sep rest
      end
  end.

(** Leading spaces and tabs removed. *)
Fixpoint trim_left (s : jsstring) : jsstring :=
  match s with
  | c :: rest => if (c =? 32) || (c =? 9) then trim_left rest else s
  | [] => []
  end.

(** Spaces and tabs removed at both ends. *)
Definition trim (s : jsstring) : jsstring :=
  rev (trim_left (rev (trim_left s))).

(** A value between double quotes, without them. *)
Definition unquote (s : jsstring) : jsstring :=
  match s with
  | c :: rest =>
      if c =? 34 then
        match rev rest with
        | d :: inner => if d =? 34 then rev inner else s
        | [] => s
        end
      else s
  | [] => []
  end.

(** A parameter [name=value] of a media type. *)
Definition parse_parameter (p : jsstring) : option (string * jsstring) :=
  match split_at (ch "=") p with
  | (name, Some value) =>
      Some (string_of_list_ascii (map ascii_of_N (toLowerCase_latin1 (trim name))),
            unquote (trim value))
  | (_, None) => None
  end.

(** A media type with its parameters. *)
Definition parse_header (h : jsstring) : option MediaType :=
  match split_all (length h) (ch ";") h with
  | [] => None
  | t :: ps =>
      if jsstring_eqb (trim t) [] then None
      else
        Some {| media_type := toLowerCase_latin1 (trim t);
                parameters := list_to_map (omap parse_parameter ps) |}
  end.

(** [contentType.parse(req)]; [None] when it throws. *)
Definition contentType_parse (req : Request) : option MediaType :=
  match headers req !! "content-type"%string with
  | Some h => parse_header h
  | None => None
  end.

(** [typeis.hasBody(req)]: a transfer encoding, or a numeric content length. *)
Definition hasBody (req : Request) : bool :=
  bool_decide (is_Some (headers req !! "transfer-encoding"%string))
  || match headers req !! "content-length"%string with
     | Some n => forallb RefEngine.is_digit n
     | None => false
     end.

(** The media type of the request is the given one. *)
Definition type_matches (req : Request) (t : Value) : bool :=
  match t, contentType_parse req with
  | VStr t, Some mt => jsstring_eqb (media_type mt) (toLowerCase_latin1 t)
  | _, _ => false
  end.

(** [typeis(req, type)] for a type or an array of types. *)
Definition typeis (req : Request) (type : Value) : bool :=
  hasBody req &&
  match type with
  | VArr ts => existsb (type_matches req) ts
  | t => type_matches req t
  end.

(** The number of bytes a unit stands for. *)
Definition unit_factor (u : jsstring) : option N :=
  if jsstring_eqb u [] || jsstring_eqb u (js "b") then Some 1
  else if jsstring_eqb u (js "kb") then Some 1024
  else if jsstring_eqb u (js "mb") then Some (1024 * 1024)
  else if jsstring_eqb u (js "gb") then Some (1024 * 1024 * 1024)
  else None.

(** [bytes.parse(v)]: a number as it is, a string as a count and a unit,
    [null] otherwise. *)
Definition bytes_parse (v : Value) : Value :=
  match v with
  | VNum n => VNum n
  | VStr s =>
      match RefEngine.take_digits s with
      | ([], _) => VNull
      | (ds, u) =>
          match unit_factor (toLowerCase_latin1 u) with
          | Some k => VNum (Dec false (RefEngine.of_digits ds * k) 0)
          | None => VNull
          end
      end
  | _ => VNull
  end.

(** The packages, given what the caller's type functions answer. *)
Definition collaborators (type_fn : FunRef -> Request -> bool) : Collaborators :=
  Build_Collaborators hasBody typeis type_fn contentType_parse bytes_parse.

End Packages.

(** ** Vocabulary of the properties *)

(** The first character that is not white space for [\s], if there is one. *)
Fixpoint first_non_whitespace (s : jsstring) : option N :=
  match s with
  | [] => None
  | c :: rest => if is_whitespace c then first_non_whitespace rest else Some c
  end.

(** The white space in front of it. *)
Fixpoint leading_whitespace (s : jsstring) : jsstring :=
  match s with
  | [] => []
  | c :: rest => if is_whitespace c then c :: leading_whitespace rest else []
  end.

(** The first character of a JSON text after the white space of the JSON
    grammar. *)
Fixpoint first_json_char (s : jsstring) : option N :=
  match s with
  | [] => None
  | c :: rest => if is_json_whitespace c then first_json_char rest else Some c
  end.

(** The root of a JSON text is an object or an array: the text opens with a
    brace or a bracket. *)
Definition json_root_is_container (text : jsstring) : bool :=
  match first_json_char text with
  | Some c => (c =? ch "{") || (c =? ch "[")
  | None => false
  end.

(** The body passes the strict check: its first character that is not white
    space is a brace or a bracket. *)
Definition passes_strict_check (body : jsstring) : bool :=
  match first_non_whitespace body with
  | Some c => (c =? ch "{") || (c =? ch "[")
  | None => false
  end.

(** A finite number in the form the parser gives it: zero is [Dec false 0
    0], and the coefficient of any other number does not end in the digit
    0. *)
Definition json_number (n : Number) : bool :=
  match n with
  | Dec neg coef e =>
      if coef =? 0 then negb neg && (e =? 0)%Z else negb (coef mod 10 =? 0)
  | _ => false
  end.

(** A value of the JSON data model: null, a boolean, a finite number, a
    string, an array of such values, an object of such values under distinct
    keys. *)
Fixpoint json_value (v : Value) : bool :=
  match v with
  | VUndefined | VFun _ => false
  | VNull | VBool _ | VStr _ => true
  | VNum n => json_number n
  | VArr elems => forallb json_value elems
  | VObj props =>
      bool_decide (NoDup (map fst props))
      && forallb (fun p => json_value (snd p)) props
  end.

(** How deep the calls of the parser go on the text of a value. *)
Fixpoint parse_depth (v : Value) : nat :=
  match v with
  | VArr elems => S (foldr (fun x d => S (Nat.max (parse_depth x) d)) 0%nat elems)
  | VObj props =>
      S (foldr (fun p d => S (Nat.max (parse_depth (snd p)) d)) 0%nat props)
  | _ => 1%nat
  end.

(** An object or an array. *)
Definition is_container (v : Value) : bool :=
  match v with VObj _ | VArr _ => true | _ => false end.

(** The event is a call of [JSON.parse], of the regular expression, of the
    reader. *)
Definition is_JSONParse (ev : Event) : bool :=
  match ev with EvJSONParse _ _ => true | _ => false end.

Definition is_RegExpExec (ev : Event) : bool :=
  match ev with EvRegExpExec _ => true | _ => false end.

Definition is_Reader (ev : Event) : bool :=
  match ev with EvReader _ => true | _ => false end.

(** The trace has a call of [JSON.parse]. *)
Definition invokes_JSON_parse (tr : list Event) : bool := existsb is_JSONParse tr.

(** The trace has the decoding of a body: the debug line [parse json] that
    comes right before [JSON.parse(body, reviver)]. *)
Definition decodes_body (tr : list Event) : bool :=
  existsb (fun ev => match ev with
                     | EvDebug line => String.eqb line "parse json"
                     | _ => false
                     end) tr.

(** The errors handed to [next]. *)
Definition next_errors (tr : list Event) : list JsError :=
  omap (fun ev => match ev with EvNext (Some e) => Some e | _ => None end) tr.

(** [options] with another value of [strict], of [inflate], of [verify]. *)
Definition with_strict (v : Value) (o : Opts.t) : Opts.t :=
  Opts.mk (Opts.limit o) (Opts.inflate o) v (Opts.type o) (Opts.verify o) (Opts.reviver o).

Definition with_inflate (v : Value) (o : Opts.t) : Opts.t :=
  Opts.mk (Opts.limit o) v (Opts.strict o) (Opts.type o) (Opts.verify o) (Opts.reviver o).

Definition with_verify (v : Value) (o : Opts.t) : Opts.t :=
  Opts.mk (Opts.limit o) (Opts.inflate o) (Opts.strict o) (Opts.type o) v (Opts.reviver o).

(** Two constructions give the same middleware: both throw the same error,
    or both return handlers that do the same on every request. *)
Definition same_middleware (a b : Completion (Request -> M Request)) : Prop :=
  match a, b with
  | Return h1, Return h2 => forall req, h1 req = h2 req
  | Throw e1, Throw e2 => e1 = e2
  | _, _ => False
  end.

Section Steps.
Context `{RT : Runtime}.

(** The decoding step of [parseBody]: the debug line, the call of
    [JSON.parse] with the reviver, and the normalisation of what it
    throws. *)
Definition decode (self : Self) (body : jsstring) : M Value :=
  mkM [EvDebug "parse json"; EvJSONParse body (Opts.reviver (options self))]
      match JSON_parse body (Opts.reviver (options self)) with
      | Return v => Return v
      | Throw e =>
          Throw (normalizeJsonSyntaxError e
                   {| obj_message := message e; obj_stack := stack e |})
      end.

(** The native error behind a strict violation: what the parser throws on
    the text cut before the offending character and closed with the
    placeholder. *)
Definition native_error (body char : jsstring) : JsError :=
  match JSON_parse (substring body 0 (indexOf body char) ++ js "#") VUndefined with
  | Throw e => e
  | Return _ => new_error CSyntaxError (js "strict violation")
  end.

(** The error a strict violation at [char] is reported with. *)
Definition strict_error (body char : jsstring) : JsError :=
  let e := native_error body char in
  normalizeJsonSyntaxError e
    {| obj_message := replace (message e) (js "#") char; obj_stack := stack e |}.

(** The error [checkParse] makes for an unsupported charset. *)
Definition charset_error (charset : jsstring) : JsError :=
  createError 415
    (js "unsupported charset " ++ [34] ++ toUpperCase charset ++ [34])
    (<["charset"%string := VStr charset]>
       (<["type"%string := VStr (js "charset.unsupported")]> ∅)).

End Steps.

(** Without a reviver the parser throws syntax errors only. *)
Definition throws_syntax_errors (RT : Runtime) : Prop :=
  forall text e, JSON_parse text VUndefined = Throw e -> ctor e = CSyntaxError.

(** ** Vocabulary of the round trip through the reference codec *)
Module RoundTrip.
Import RefEngine.

(** The digits of a decimal numeral, most significant first. *)
Fixpoint uint_digits (d : Decimal.uint) : list N :=
  match d with
  | Decimal.Nil => []
  | Decimal.D0 d => 0 :: uint_digits d
  | Decimal.D1 d => 1 :: uint_digits d
  | Decimal.D2 d => 2 :: uint_digits d
  | Decimal.D3 d => 3 :: uint_digits d
  | Decimal.D4 d => 4 :: uint_digits d
  | Decimal.D5 d => 5 :: uint_digits d
  | Decimal.D6 d => 6 :: uint_digits d
  | Decimal.D7 d => 7 :: uint_digits d
  | Decimal.D8 d => 8 :: uint_digits d
  | Decimal.D9 d => 9 :: uint_digits d
  end.

(** The digits a list of digit values writes. *)
Definition chars (ds : list N) : jsstring := map digit_char ds.

(** What may follow a number: nothing that continues it. *)
Definition terminated (rest : jsstring) : bool :=
  match rest with
  | [] => true
  | c :: _ =>
      negb (is_digit c) && negb (c =? ch ".") && negb (c =? ch "e")
      && negb (c =? ch "E")
  end.

(** The text does not start with a digit. *)
Definition no_digit_ahead (rest : jsstring) : bool :=
  match rest with
  | [] => true
  | c :: _ => negb (is_digit c)
  end.

(** The exponent part [e+digits] or [e-digits]. *)
Definition exponent_text (negative : bool) (ds : list N) : jsstring :=
  js "e" ++ (if negative then js "-" else js "+") ++ chars ds.

(** The integer part of a numeral: the digit 0 alone, or digits that do not
    start with 0. *)
Definition integer_digits (int : list N) : Prop :=
  int = [0] \/ (exists d ds, int = d :: ds /\ d <> 0 /\ Forall (fun x => x < 10) int).

(** The text of a numeral from its parts. *)
Definition numeral (neg : bool) (int frac : list N) (e : option (bool * list N))
    : jsstring :=
  (if neg then js "-" else []) ++ chars int
  ++ (match frac with [] => [] | _ => js "." ++ chars frac end)
  ++ (match e with None => [] | Some (negative, ds) => exponent_text negative ds end).

(** The exponent an exponent part, as the encoder writes it, stands for. *)
Definition exponent_value (e : option (bool * list N)) : Z :=
  match e with
  | None => 0%Z
  | Some (negative, ds) =>
      if negative then (- Z.of_N (of_digits ds))%Z else Z.of_N (of_digits ds)
  end.

(** The digits of an exponent part are digits without a leading zero. *)
Definition exponent_digits_ok (e : option (bool * list N)) : Prop :=
  match e with
  | None => True
  | Some (_, ds) => ds <> [] /\ Forall (fun x => x < 10) ds
  end.

(** The text of a member of an object. *)
Definition member_text (p : jsstring * Value) : jsstring :=
  quote (fst p) ++ js ":" ++ stringify (snd p).

(** The first character of the text of a value. *)
Definition opens_value (c : N) : Prop :=
  is_json_whitespace c = false /\ (c =? ch "]") = false /\ (c =? ch "}") = false.

(** The greatest nesting depth among the elements, among the property
    values. *)
Definition elems_depth (elems : list Value) : nat :=
  foldr (fun x d => S (Nat.max (parse_depth x) d)) 0%nat elems.

Definition props_depth (props : list (jsstring * Value)) : nat :=
  foldr (fun p d => S (Nat.max (parse_depth (snd p)) d)) 0%nat props.

(** The parser reads the value back from its text, whatever follows that
    does not continue a number, given fuel for the depth of the value. *)
Definition round_trips (v : Value) : Prop :=
  json_value v = true ->
  forall fuel rest pos,
    (parse_depth v <= fuel)%nat ->
    terminated rest = true ->
    exists pos', parse_value fuel (stringify v ++ rest) pos = Ok v rest pos'.

End RoundTrip.

(** ** Concrete instances for the examples *)
Module Examples.

(** The caller's functions: a reviver returns the value it is given, a
    type function accepts every request. *)
Definition call : FunRef -> jsstring -> Value -> Value := fun _ _ v => v.
(** A type function that accepts every request. *)
Definition type_fn : FunRef -> Request -> bool := fun _ _ => true.

(** The reference engine and the stand-in packages. *)
Definition engine : Runtime := RefEngine.runtime call.
Definition packages : Collaborators := Packages.collaborators type_fn.

(** What [JsonParser()] and [JsonParser({ strict: false })] keep. *)
Definition strict_self : Self :=
  {| options := Opts.empty;
     parsedLimit := VNum (Dec false 102400 0);
     parsedInflate := true;
     parsedStrict := true;
     parsedType := VStr (js "application/json");
     parsedVerify := VBool false;
     shouldParse := typeChecker (CO := packages) (VStr (js "application/json")) |}.

Definition loose_self : Self :=
  {| options := with_strict (VBool false) Opts.empty;
     parsedLimit := VNum (Dec false 102400 0);
     parsedInflate := true;
     parsedStrict := false;
     parsedType := VStr (js "application/json");
     parsedVerify := VBool false;
     shouldParse := typeChecker (CO := packages) (VStr (js "application/json")) |}.

(** A request that has not been parsed, with a [Content-Type] and a
    [Content-Length] header. *)
Definition request (content_type content_length : jsstring) : Request :=
  {| _body := false; body := VUndefined;
     headers := <["content-type"%string := content_type]>
                  (<["content-length"%string := content_length]> ∅) |}.

(** A request without a body: no [Content-Length], no
    [Transfer-Encoding]. *)
Definition bodyless_request (content_type : jsstring) : Request :=
  {| _body := false; body := VUndefined;
     headers := <["content-type"%string := content_type]> ∅ |}.

(** The value [{ "a": [1, true], "b": "x" }]. *)
Definition sample : Value :=
  VObj [(js "a", VArr [VNum (Dec false 1 0); VBool true]); (js "b", VStr (js "x"))].

(** A native syntax error with a field of the parser's own. *)
Definition native_with_field : JsError :=
  {| ctor := CSyntaxError;
     message := js "Unexpected token o in JSON at position 1";
     stack := js "SyntaxError: Unexpected token o in JSON at position 1";
     extra := <["at"%string := VNum (Dec false 1 0)]> ∅ |}.

(** An engine whose parser rejects every text with that error. *)
Definition rejecting_engine : Runtime :=
  {| JSON_parse := fun _ _ => Throw native_with_field;
     captureStack := RefEngine.capture;
     null_index_message := js "Cannot read property '1' of null";
   toLowerCase := toLowerCase_latin1;
   toUpperCase := toUpperCase_latin1 |}.

End Examples.


(** ** Vocabulary of the further properties *)

(** The last character of a text that the dot of the regular expression
    matches: the last one that is not a line terminator. *)
Fixpoint last_dot_char (s : jsstring) : option N :=
  match s with
  | [] => None
  | c :: rest =>
      match last_dot_char rest with
      | Some d => Some d
      | None => if is_line_terminator c then None else Some c
      end
  end.

(** The text before the first occurrence of a character. *)
Fixpoint before_first (d : N) (s : jsstring) : jsstring :=
  match s with
  | [] => []
  | c :: rest => if c =? d then [] else c :: before_first d rest
  end.

(** A replacement text without replacement patterns: no dollar sign is
    followed by a dollar sign, an ampersand, a backquote or a quote. *)
Fixpoint literal_replacement (repl : jsstring) : bool :=
  match repl with
  | [] => true
  | x :: tl =>
      negb ((x =? ch "$") &&
            match tl with
            | c :: _ => (c =? ch "$") || (c =? ch "&") || (c =? ch "`") || (c =? ch "'")
            | [] => false
            end)
      && literal_replacement tl
  end.

(** The event is a call of [next]. *)
Definition is_Next (ev : Event) : bool :=
  match ev with EvNext _ => true | _ => false end.

(** How many events of a kind a trace has. *)
Definition calls (kind : Event -> bool) (tr : list Event) : nat :=
  length (List.filter kind tr).

(** The configuration with the strict check switched on or off. *)
Definition set_parsedStrict (b : bool) (self : Self) : Self :=
  {| options := options self; parsedLimit := parsedLimit self;
     parsedInflate := parsedInflate self; parsedStrict := b;
     parsedType := parsedType self; parsedVerify := parsedVerify self;
     shouldParse := shouldParse self |}.

(** [options] with another value of [limit], of [type]. *)
Definition with_limit (v : Value) (o : Opts.t) : Opts.t :=
  Opts.mk v (Opts.inflate o) (Opts.strict o) (Opts.type o) (Opts.verify o) (Opts.reviver o).

Definition with_type (v : Value) (o : Opts.t) : Opts.t :=
  Opts.mk (Opts.limit o) (Opts.inflate o) (Opts.strict o) v (Opts.verify o) (Opts.reviver o).

Section GateVocabulary.
Context `{CO : Collaborators}.

(** The four conditions under which a request is read: not parsed yet, with
    a body, of a type to parse, in a charset that starts with [utf-]. *)
Definition gate_open (self : Self) (req : Request) (charset : jsstring) : bool :=
  negb (_body req) && hasBody req && shouldParse self req
  && jsstring_eqb (substr charset 0 4) (js "utf-").

End GateVocabulary.

(** A call of [JSON.parse] as [parseBody] makes them: on the body with the
    reviver of the options, or, under [strict], on a text closed with the
    placeholder and without a reviver.  Other events are not concerned. *)
Definition parser_call_of (self : Self) (body : jsstring) (ev : Event) : Prop :=
  match ev with
  | EvJSONParse text reviver =>
      (text = body /\ reviver = Opts.reviver (options self)) \/
      (parsedStrict self = true /\ reviver = VUndefined /\
       exists before, text = before ++ js "#")
  | _ => True
  end.

(** The message of the reference engine for a character that starts no
    value. *)
Definition token_message (c : N) (pos : N) : jsstring :=
  js "Unexpected token " ++ [c] ++ js " in JSON at position " ++ decimal pos.

(** The white space of the JSON grammar a text starts with. *)
Fixpoint leading_json_whitespace (s : jsstring) : jsstring :=
  match s with
  | [] => []
  | c :: rest => if is_json_whitespace c then c :: leading_json_whitespace rest else []
  end.

(** A white space character, or the placeholder [#], starts no JSON value. *)
Definition starts_no_value (y : N) : Prop := is_whitespace y = true \/ y = ch "#".

(** The character a strict violation is reported for, the one [firstchar]
    returns: the first character that is not white space, and in a body of
    white space only the last character that is not a line terminator. *)
Definition offending_character (body : jsstring) : option N :=
  match first_non_whitespace body with
  | Some c => Some c
  | None => last_dot_char body
  end.


(** Plain substitution: the first occurrence of [old] in [s] gives way to
    [new], taken as it is; a text in which [old] does not occur stays as it
    is. *)
Fixpoint substitute_first (s old new : jsstring) : jsstring :=
  if is_prefix old s then new ++ drop (length old) s
  else match s with
       | [] => []
       | c :: rest => c :: substitute_first rest old new
       end.

(** ** An engine whose messages quote the text

    V8 words its messages differently since Node 20: for a short text whose
    first character starts no JSON value, the message quotes that character
    and the text, and gives no position.  This engine rejects every text
    that way; it stands for V8 on such texts only. *)
Module QuotingEngine.

(** [Unexpected token 'c', "text" is not valid JSON]. *)
Definition message_for (token : N) (text : jsstring) : jsstring :=
  js "Unexpected token '" ++ [token] ++ js "', " ++ [34] ++ text ++ [34]
  ++ js " is not valid JSON".

(** A SyntaxError of the parser with its stack. *)
Definition syntax_error (msg : jsstring) : JsError :=
  {| ctor := CSyntaxError;
     message := msg;
     stack := js "SyntaxError: " ++ msg ++ [10] ++ js "    at JSON.parse (<anonymous>)";
     extra := ∅ |}.

(** The error of the parser for a text: it names the first character after
    the white space of the JSON grammar. *)
Definition error_for (text : jsstring) : JsError :=
  match first_json_char text with
  | Some c => syntax_error (message_for c text)
  | None => syntax_error (js "Unexpected end of JSON input")
  end.

(** The engine. *)
Definition engine : Runtime :=
  {| JSON_parse := fun text _ => Throw (error_for text);
     captureStack := RefEngine.capture;
     null_index_message := js "Cannot read properties of null (reading '1')";
     toLowerCase := toLowerCase_latin1;
     toUpperCase := toUpperCase_latin1 |}.

End QuotingEngine.
(** * Properties *)

(** ** The regular expression and the string functions *)

Lemma line_terminator_is_whitespace c :
  is_line_terminator c = true -> is_whitespace c = true.
Proof.
  unfold is_whitespace. intros ->. rewrite !orb_true_r. reflexivity.
Qed.

Lemma match_dot_non_whitespace c rest :
  is_whitespace c = false -> match_dot (c :: rest) = Some c.
Proof.
  intros Hc. simpl. destruct (is_line_terminator c) eqn:E; [|reflexivity].
  apply line_terminator_is_whitespace in E. congruence.
Qed.

Lemma first_non_whitespace_split s c :
  first_non_whitespace s = Some c ->
  exists rest, s = leading_whitespace s ++ c :: rest /\ is_whitespace c = false.
Proof.
  induction s as [|a s IH]; simpl; [discriminate|].
  destruct (is_whitespace a) eqn:E.
  - intros H. destruct (IH H) as (rest & Hs & Hc).
    exists rest. split; [|exact Hc]. simpl. f_equal. exact Hs.
  - intros [= ->]. exists s. split; [reflexivity|exact E].
Qed.

Lemma leading_whitespace_all s : forallb is_whitespace (leading_whitespace s) = true.
Proof.
  induction s as [|a s IH]; simpl; [reflexivity|].
  destruct (is_whitespace a) eqn:E; simpl; [|reflexivity].
  rewrite E. exact IH.
Qed.

(** The expression captures the first character that is not white space. *)
Lemma exec_firstchar_first_non_whitespace ws c rest :
  forallb is_whitespace ws = true ->
  is_whitespace c = false ->
  exec_firstchar (ws ++ c :: rest) = Some (ws ++ [c], [c]).
Proof.
  intros Hws Hc. induction ws as [|a ws IH].
  - cbn [app exec_firstchar]. rewrite Hc, match_dot_non_whitespace by exact Hc.
    reflexivity.
  - simpl in Hws. apply andb_true_iff in Hws as [Ha Hws].
    cbn [app exec_firstchar]. rewrite Ha, (IH Hws). reflexivity.
Qed.

Lemma exec_firstchar_spec s c :
  first_non_whitespace s = Some c ->
  exec_firstchar s = Some (leading_whitespace s ++ [c], [c]).
Proof.
  intros H. destruct (first_non_whitespace_split s c H) as (rest & Hs & Hc).
  rewrite Hs at 1.
  apply exec_firstchar_first_non_whitespace; [apply leading_whitespace_all|exact Hc].
Qed.

(** The expression fails exactly on the strings made of line terminators
    only, the empty string among them. *)
Lemma exec_firstchar_None s :
  exec_firstchar s = None <-> forallb is_line_terminator s = true.
Proof.
  induction s as [|a s IH]; simpl; [tauto|].
  destruct (is_line_terminator a) eqn:Ea.
  - rewrite (line_terminator_is_whitespace a Ea). simpl.
    destruct (exec_firstchar s) as [[w c]|].
    + split; [discriminate|]. intros H. apply IH in H. discriminate.
    + split; [intros _; apply IH; reflexivity|reflexivity].
  - simpl. destruct (is_whitespace a).
    + destruct (exec_firstchar s) as [[w c]|]; split; discriminate.
    + split; discriminate.
Qed.

Lemma json_whitespace_is_whitespace c :
  is_json_whitespace c = true -> is_whitespace c = true.
Proof.
  unfold is_json_whitespace, is_whitespace, is_line_terminator.
  intros H. repeat (apply orb_true_iff in H as [H|H]);
    apply N.eqb_eq in H; subst c; reflexivity.
Qed.

Lemma first_json_char_first_non_whitespace s c :
  first_json_char s = Some c ->
  is_whitespace c = false ->
  first_non_whitespace s = Some c.
Proof.
  induction s as [|a s IH]; simpl; [discriminate|].
  destruct (is_json_whitespace a) eqn:E.
  - rewrite (json_whitespace_is_whitespace a E). exact IH.
  - intros [= ->] ->. reflexivity.
Qed.

Lemma indexOf_from_first_non_whitespace i ws c rest :
  forallb is_whitespace ws = true ->
  is_whitespace c = false ->
  indexOf_from i (ws ++ c :: rest) [c] = (i + Z.of_nat (length ws))%Z.
Proof.
  intros Hws Hc. revert i. induction ws as [|a ws IH]; intros i.
  - cbn. rewrite N.eqb_refl. cbn. lia.
  - simpl in Hws. apply andb_true_iff in Hws as [Ha Hws].
    cbn [app indexOf_from is_prefix].
    assert ((c =? a) = false) as ->.
    { apply N.eqb_neq. intros ->. congruence. }
    cbn [andb]. rewrite (IH Hws). cbn [length]. lia.
Qed.

Lemma substring_prefix (a b : jsstring) :
  substring (a ++ b) 0 (Z.of_nat (length a)) = a.
Proof.
  unfold substring, clamp, jslength. rewrite length_app.
  replace (Z.min (Z.max 0 0) (Z.of_nat (length a + length b))) with 0%Z by lia.
  replace (Z.min (Z.max (Z.of_nat (length a)) 0) (Z.of_nat (length a + length b)))
    with (Z.of_nat (length a)) by lia.
  replace (Z.min 0 (Z.of_nat (length a))) with 0%Z by lia.
  replace (Z.max 0 (Z.of_nat (length a))) with (Z.of_nat (length a)) by lia.
  rewrite Z.sub_0_r, Nat2Z.id. cbn [Z.to_nat drop].
  apply take_app_length.
Qed.

(** The text handed to the parser to make the error of a strict violation:
    the white space before the offending character, then the placeholder. *)
Lemma strict_partial s c :
  first_non_whitespace s = Some c ->
  substring s 0 (indexOf s [c]) ++ js "#" = leading_whitespace s ++ js "#".
Proof.
  intros H. destruct (first_non_whitespace_split s c H) as (rest & Hs & Hc).
  f_equal. rewrite Hs at 1 2. unfold indexOf.
  rewrite indexOf_from_first_non_whitespace
    by (try apply leading_whitespace_all; exact Hc).
  rewrite Z.add_0_l. apply substring_prefix.
Qed.

(** A one-character replacement text stands for itself. *)
Lemma GetSubstitution_single m b a c : GetSubstitution m b a [c] = [c].
Proof.
  cbn [GetSubstitution]. destruct (c =? ch "$"); reflexivity.
Qed.

(** ** Error normalisation *)

Lemma normalize_loop_fields keys e :
  ctor (foldl normalize_step e keys) = ctor e /\
  message (foldl normalize_step e keys) = message e /\
  stack (foldl normalize_step e keys) = stack e.
Proof.
  revert e. induction keys as [|k keys IH]; intros e; [done|].
  cbn [foldl]. destruct (IH (normalize_step e k)) as (-> & -> & ->).
  unfold normalize_step. destruct (_ && _); done.
Qed.

Lemma normalize_loop_extra keys e k :
  k ≠ "stack"%string -> k ≠ "message"%string ->
  extra (foldl normalize_step e keys) !! k =
    if decide (k ∈ keys) then None else extra e !! k.
Proof.
  intros Hs Hm. revert e. induction keys as [|k' keys IH]; intros e.
  - cbn. case_decide; [set_solver|done].
  - cbn [foldl]. rewrite IH. clear IH. unfold normalize_step.
    destruct (decide (k = k')) as [<-|Hne].
    + apply String.eqb_neq in Hs, Hm. rewrite Hs, Hm. cbn.
      rewrite lookup_delete_eq, (decide_True (P := k ∈ k :: keys))
        by apply list_elem_of_here.
      destruct (decide (k ∈ keys)); reflexivity.
    + assert (k ∈ k' :: keys <-> k ∈ keys) as Hiff
        by (rewrite elem_of_cons; intuition congruence).
      destruct (_ && _); cbn; rewrite ?lookup_delete_ne by done;
        destruct (decide (k ∈ keys)), (decide (k ∈ k' :: keys)); try done; tauto.
Qed.

Lemma normalize_fields e obj :
  ctor (normalizeJsonSyntaxError e obj) = ctor e /\
  message (normalizeJsonSyntaxError e obj) = obj_message obj /\
  stack (normalizeJsonSyntaxError e obj) =
    replace (obj_stack obj) (message e) (obj_message obj).
Proof.
  unfold normalizeJsonSyntaxError. cbn [ctor message stack].
  destruct (normalize_loop_fields (getOwnPropertyNames e) e) as (H1 & H2 & H3).
  rewrite H1, H2. done.
Qed.

(** After the normalisation no own property is left besides [message] and
    [stack]. *)
Lemma normalize_strips e obj k :
  k ≠ "stack"%string -> k ≠ "message"%string ->
  extra (normalizeJsonSyntaxError e obj) !! k = None.
Proof.
  intros Hs Hm. unfold normalizeJsonSyntaxError. cbn [extra].
  rewrite normalize_loop_extra by done.
  case_decide as Hin; [done|].
  destruct (extra e !! k) as [v|] eqn:E; [|done].
  exfalso. apply Hin. unfold getOwnPropertyNames.
  do 2 apply list_elem_of_further.
  apply list_elem_of_fmap. exists (k, v). split; [done|].
  by apply elem_of_map_to_list.
Qed.

(** ** [parseBody] *)

Section ParseBody.
Context `{RT : Runtime}.

Lemma jslength_nonempty (body : jsstring) :
  body ≠ [] -> (jslength body =? 0)%Z = false.
Proof.
  destruct body; [done|]. intros _. unfold jslength. cbn [length].
  apply Z.eqb_neq. lia.
Qed.

Lemma decode_eq self body :
  try_catch
    (debug "parse json";; call_JSON_parse body (Opts.reviver (options self)))
    (fun e => throw (normalizeJsonSyntaxError e
                       {| obj_message := message e; obj_stack := stack e |}))
  = decode self body.
Proof.
  unfold decode, try_catch, call_JSON_parse, debug, emit, throw.
  cbn. destruct (JSON_parse body _); cbn; reflexivity.
Qed.

Lemma createStrictSyntaxError_eq body char :
  createStrictSyntaxError body char =
    mkM [EvJSONParse (substring body 0 (indexOf body char) ++ js "#") VUndefined]
        (Return (strict_error body char)).
Proof.
  unfold createStrictSyntaxError, strict_error, native_error, try_catch,
    call_JSON_parse, throw.
  cbn. destruct (JSON_parse _ VUndefined); cbn; reflexivity.
Qed.

(** With [strict] off the body goes straight to the decoding step. *)
Lemma parseBody_nonstrict self body :
  body ≠ [] -> parsedStrict self = false ->
  parseBody self body = decode self body.
Proof.
  intros Hne Hs. unfold parseBody.
  rewrite (jslength_nonempty body Hne), Hs, decode_eq.
  unfold decode. cbn. reflexivity.
Qed.

(** With [strict] on, what happens is decided by the capture of the
    regular expression. *)
Lemma parseBody_strict self body :
  body ≠ [] -> parsedStrict self = true ->
  parseBody self body =
    match exec_firstchar body with
    | None => mkM [EvRegExpExec body] (Throw (new_error CTypeError null_index_message))
    | Some (_, first) =>
        if negb (jsstring_eqb first (js "{")) && negb (jsstring_eqb first (js "["))
        then mkM [EvRegExpExec body; EvDebug "strict violation";
                  EvJSONParse (substring body 0 (indexOf body first) ++ js "#") VUndefined]
                 (Throw (strict_error body first))
        else mkM (EvRegExpExec body :: trace (decode self body))
                 (outcome (decode self body))
    end.
Proof.
  intros Hne Hs. unfold parseBody.
  rewrite (jslength_nonempty body Hne), Hs, decode_eq.
  unfold firstchar. destruct (exec_firstchar body) as [[whole first]|].
  - destruct (negb (jsstring_eqb first (js "{")) && negb (jsstring_eqb first (js "["))) eqn:E.
    + cbn -[js jsstring_eqb]. rewrite E, createStrictSyntaxError_eq. reflexivity.
    + cbn -[js jsstring_eqb]. rewrite E. reflexivity.
  - reflexivity.
Qed.

Lemma container_char_not_whitespace c :
  (c =? ch "{") || (c =? ch "[") = true -> is_whitespace c = false.
Proof.
  intros H. apply orb_true_iff in H as [H|H]; apply N.eqb_eq in H; subst c; reflexivity.
Qed.

Lemma one_char_eqb (c d : N) : jsstring_eqb [c] [d] = (c =? d).
Proof.
  unfold jsstring_eqb. destruct (N.eqb_spec c d) as [->|Hn].
  - by rewrite bool_decide_eq_true_2.
  - rewrite bool_decide_eq_false_2; [done|]. intros [= ?]. done.
Qed.

Lemma container_char_check c :
  negb (jsstring_eqb [c] (js "{")) && negb (jsstring_eqb [c] (js "["))
  = negb ((c =? ch "{") || (c =? ch "[")).
Proof.
  change (js "{") with [ch "{"]. change (js "[") with [ch "["].
  rewrite !one_char_eqb, negb_orb. reflexivity.
Qed.
End ParseBody.

(** ** The reference decoder inverts the reference encoder *)

Module RoundTripFacts.
Import RefEngine RoundTrip.

(** ** Decimal digits *)

Lemma string_of_uint_digits d :
  js (NilEmpty.string_of_uint d) = map digit_char (uint_digits d).
Proof.
  unfold js. induction d; cbn [NilEmpty.string_of_uint list_ascii_of_string map uint_digits];
    [reflexivity|..]; rewrite IHd; reflexivity.
Qed.

Lemma to_uint_nonnil n : N.to_uint n <> Decimal.Nil.
Proof.
  destruct n; cbn; [discriminate|]. apply Unsigned.to_uint_nonnil.
Qed.

Lemma decimal_digits n : decimal n = map digit_char (uint_digits (N.to_uint n)).
Proof.
  unfold decimal. rewrite <- string_of_uint_digits. f_equal.
  pose proof (to_uint_nonnil n). destruct (N.to_uint n); try reflexivity. congruence.
Qed.

Lemma uint_digits_bounded d : Forall (fun x => x < 10) (uint_digits d).
Proof.
  induction d; cbn; constructor; try lia; assumption.
Qed.

Lemma foldl_digits_spec d acc :
  foldl (fun a x => 10 * a + x) acc (uint_digits d) =
    DecimalPos.Unsigned.of_lu (Decimal.rev d) + acc * 10 ^ DecimalPos.Unsigned.usize d.
Proof.
  revert acc. induction d; intros acc;
    cbn [uint_digits foldl];
    [cbn; lia|..];
    rewrite IHd; unfold Decimal.rev at 2; cbn [Decimal.revapp];
    rewrite DecimalPos.Unsigned.of_lu_revapp;
    cbn [DecimalPos.Unsigned.usize DecimalPos.Unsigned.of_lu];
    rewrite N.pow_succ_r'; cbn; lia.
Qed.

Lemma of_digits_uint d : of_digits (uint_digits d) = N.of_uint d.
Proof.
  unfold of_digits. rewrite foldl_digits_spec.
  unfold N.of_uint. rewrite DecimalPos.Unsigned.of_uint_alt. lia.
Qed.

Lemma digit_char_value d : digit_char d - 48 = d.
Proof. unfold digit_char. lia. Qed.

Lemma digits_of_eq n : digits_of n = uint_digits (N.to_uint n).
Proof.
  unfold digits_of. rewrite decimal_digits, map_map.
  rewrite <- (map_id (uint_digits (N.to_uint n))) at 2.
  apply map_ext. intros d. apply digit_char_value.
Qed.

Lemma of_digits_digits_of n : of_digits (digits_of n) = n.
Proof.
  rewrite digits_of_eq, of_digits_uint. apply DecimalN.Unsigned.of_to.
Qed.

Lemma digits_of_bounded n : Forall (fun x => x < 10) (digits_of n).
Proof. rewrite digits_of_eq. apply uint_digits_bounded. Qed.

Lemma decimal_digits_of n : decimal n = map digit_char (digits_of n).
Proof. rewrite digits_of_eq. apply decimal_digits. Qed.

Lemma digits_of_nonempty n : digits_of n <> [].
Proof.
  rewrite digits_of_eq. pose proof (to_uint_nonnil n).
  destruct (N.to_uint n); cbn; congruence.
Qed.

(** The numeral of a positive number does not start with the digit 0. *)
Lemma digits_of_head n : n <> 0 -> head (digits_of n) <> Some 0.
Proof.
  intros Hn. rewrite digits_of_eq.
  pose proof (DecimalN.Unsigned.to_of (N.to_uint n)) as Hnorm.
  rewrite DecimalN.Unsigned.of_to in Hnorm.
  destruct (N.to_uint n) as [|d| | | | | | | | |] eqn:E; cbn; try discriminate.
  exfalso. rewrite unorm_D0 in Hnorm.
  assert (d = Decimal.Nil \/ d <> Decimal.Nil) as [->|Hd]
    by (destruct d; [left; reflexivity|right; discriminate..]).
  - apply Hn. rewrite <- (DecimalN.Unsigned.of_to n), E. reflexivity.
  - pose proof (nb_digits_unorm d Hd) as Hle. rewrite <- Hnorm in Hle.
    cbn in Hle. lia.
Qed.

Lemma of_digits_app a b :
  of_digits (a ++ b) = of_digits a * 10 ^ N.of_nat (length b) + of_digits b.
Proof.
  unfold of_digits. rewrite foldl_app.
  generalize (foldl (fun acc d => 10 * acc + d) 0 a) as x.
  induction b as [|d b IH]; intros x.
  - cbn. lia.
  - cbn [foldl length]. rewrite IH, (IH (10 * 0 + d)).
    rewrite Nat2N.inj_succ, N.pow_succ_r'. lia.
Qed.

Lemma of_digits_zeros m : of_digits (repeat 0 m) = 0.
Proof.
  induction m as [|m IH]; [reflexivity|].
  change (repeat 0 (S m)) with ([0] ++ repeat 0 m).
  rewrite of_digits_app, IH. cbn. lia.
Qed.

Lemma of_digits_leading_zeros m ds : of_digits (repeat 0 m ++ ds) = of_digits ds.
Proof.
  rewrite of_digits_app, of_digits_zeros. lia.
Qed.

Lemma of_digits_last ds d : d < 10 -> of_digits (ds ++ [d]) mod 10 = d.
Proof.
  intros Hd. rewrite of_digits_app. cbn [length of_digits foldl].
  change (N.of_nat 1) with 1. rewrite N.pow_1_r.
  rewrite N.add_comm, N.mul_comm, N.Div0.mod_add. cbn. apply N.mod_small. lia.
Qed.

Lemma strip_trailing_zeros_zeros m :
  strip_trailing_zeros (repeat 0 m) = ([], Z.of_nat m).
Proof.
  induction m as [|m IH]; [reflexivity|].
  cbn [repeat strip_trailing_zeros]. rewrite IH. cbn. f_equal. lia.
Qed.

Lemma strip_trailing_zeros_last ds d m :
  d <> 0 ->
  strip_trailing_zeros (ds ++ d :: repeat 0 m) = (ds ++ [d], Z.of_nat m).
Proof.
  intros Hd. induction ds as [|a ds IH].
  - cbn [app strip_trailing_zeros]. rewrite strip_trailing_zeros_zeros.
    apply N.eqb_neq in Hd. rewrite Hd. reflexivity.
  - cbn [app strip_trailing_zeros]. rewrite IH. destruct ds; reflexivity.
Qed.

(** The digits of a coefficient that does not end in 0. *)
Lemma digits_of_last coef :
  coef mod 10 <> 0 ->
  exists ds d, digits_of coef = ds ++ [d] /\ d <> 0.
Proof.
  intros Hmod.
  destruct (exists_last (digits_of_nonempty coef)) as (ds & d & E).
  exists ds, d. split; [exact E|]. intros ->.
  apply Hmod. rewrite <- (of_digits_digits_of coef), E.
  apply of_digits_last. lia.
Qed.

(** ** Numbers: the parser reads back what the printer writes *)

Lemma terminated_no_digit rest : terminated rest = true -> no_digit_ahead rest = true.
Proof.
  destruct rest as [|c rest]; [reflexivity|]. cbn.
  destruct (is_digit c); [discriminate|reflexivity].
Qed.

Lemma is_digit_char d : d < 10 -> is_digit (digit_char d) = true.
Proof.
  intros Hd. unfold is_digit, digit_char.
  apply andb_true_iff. split; apply N.leb_le; lia.
Qed.

Lemma take_digits_chars ds rest :
  Forall (fun x => x < 10) ds ->
  no_digit_ahead rest = true ->
  take_digits (chars ds ++ rest) = (ds, rest).
Proof.
  intros Hds Hrest. induction Hds as [|d ds Hd _ IH].
  - destruct rest as [|c rest]; [reflexivity|]. cbn in *.
    destruct (is_digit c); [discriminate|reflexivity].
  - cbn [chars map app take_digits]. rewrite (is_digit_char d Hd).
    change (map digit_char ds) with (chars ds). rewrite IH.
    rewrite digit_char_value. reflexivity.
Qed.

Lemma chars_length ds : length (chars ds) = length ds.
Proof. apply length_map. Qed.

Lemma parse_fraction_none rest pos :
  terminated rest = true -> parse_fraction rest pos = Ok [] rest pos.
Proof.
  destruct rest as [|c rest]; [reflexivity|]. cbn [terminated parse_fraction].
  intros H. destruct (c =? ch "."); [|reflexivity].
  rewrite andb_false_r in H. cbn in H. rewrite ?andb_false_r in H. discriminate.
Qed.

Lemma parse_fraction_some ds rest pos :
  ds <> [] ->
  Forall (fun x => x < 10) ds ->
  no_digit_ahead rest = true ->
  parse_fraction (js "." ++ chars ds ++ rest) pos =
    Ok ds rest (pos + 1 + N.of_nat (length ds)).
Proof.
  intros Hne Hds Hrest. cbn [js list_ascii_of_string map app parse_fraction].
  change (N_of_ascii "."%char) with (ch "."). rewrite N.eqb_refl.
  rewrite (take_digits_chars ds rest Hds Hrest).
  destruct ds; [congruence|reflexivity].
Qed.

Lemma parse_exponent_none rest pos :
  terminated rest = true -> parse_exponent rest pos = Ok 0%Z rest pos.
Proof.
  destruct rest as [|c rest]; [reflexivity|]. cbn [terminated parse_exponent].
  intros H. destruct (c =? ch "e"), (c =? ch "E"); cbn [orb]; try reflexivity;
    rewrite ?andb_false_r in H; cbn in H; rewrite ?andb_false_r in H; discriminate.
Qed.

Lemma parse_exponent_some negative ds rest pos :
  ds <> [] ->
  Forall (fun x => x < 10) ds ->
  no_digit_ahead rest = true ->
  parse_exponent (exponent_text negative ds ++ rest) pos =
    Ok (if negative then (- Z.of_N (of_digits ds))%Z else Z.of_N (of_digits ds))
       rest (pos + 2 + N.of_nat (length ds)).
Proof.
  intros Hne Hds Hrest. unfold exponent_text.
  destruct negative;
    cbn [js list_ascii_of_string map app parse_exponent];
    change (N_of_ascii "e"%char) with (ch "e"); rewrite N.eqb_refl; cbn [orb];
    change (N_of_ascii "-"%char =? ch "-") with true;
    change (N_of_ascii "+"%char =? ch "-") with false;
    change (N_of_ascii "+"%char =? ch "+") with true; cbn iota;
    rewrite (take_digits_chars ds rest Hds Hrest);
    destruct ds; try congruence; reflexivity.
Qed.

Lemma terminated_point tail : terminated (js "." ++ tail) = false.
Proof. reflexivity. Qed.

Lemma terminated_exponent negative ds tail :
  terminated (exponent_text negative ds ++ tail) = false.
Proof. reflexivity. Qed.

Lemma no_digit_ahead_point tail : no_digit_ahead (js "." ++ tail) = true.
Proof. reflexivity. Qed.

Lemma no_digit_ahead_exponent negative ds tail :
  no_digit_ahead (exponent_text negative ds ++ tail) = true.
Proof. reflexivity. Qed.

(** After the integer part: the fraction and the exponent. *)
Lemma parse_fraction_exponent {A : Type} (k : list N -> Z -> A) frac e rest pos :
  Forall (fun x => x < 10) frac ->
  exponent_digits_ok e ->
  terminated rest = true ->
  exists pos',
    match parse_fraction
            ((match frac with [] => [] | _ => js "." ++ chars frac end)
             ++ (match e with None => [] | Some (negative, ds) => exponent_text negative ds end)
             ++ rest) pos with
    | Bad p f => Bad p f
    | Ok frac' s3 pos3 =>
        match parse_exponent s3 pos3 with
        | Bad p f => Bad p f
        | Ok e' s4 pos4 => Ok (k frac' e') s4 pos4
        end
    end = Ok (k frac (exponent_value e)) rest pos'.
Proof.
  intros Hfrac He Hrest.
  pose proof (terminated_no_digit rest Hrest) as Hnd.
  destruct frac as [|f frac].
  - cbn [app]. destruct e as [[negative ds]|].
    + destruct He as [Hne Hds].
      assert (parse_fraction (exponent_text negative ds ++ rest) pos =
                Ok [] (exponent_text negative ds ++ rest) pos) as ->.
      { unfold exponent_text. destruct negative; reflexivity. }
      rewrite (parse_exponent_some negative ds rest pos Hne Hds Hnd).
      eexists. reflexivity.
    + cbn [app]. rewrite (parse_fraction_none rest pos Hrest).
      rewrite (parse_exponent_none rest pos Hrest). eexists. reflexivity.
  - rewrite <- app_assoc.
    destruct e as [[negative ds]|].
    + destruct He as [Hne Hds].
      rewrite (parse_fraction_some (f :: frac) _ pos);
        [|discriminate|exact Hfrac|apply no_digit_ahead_exponent].
      rewrite (parse_exponent_some negative ds rest _ Hne Hds Hnd).
      eexists. reflexivity.
    + cbn [app]. rewrite (parse_fraction_some (f :: frac) rest pos);
        [|discriminate|exact Hfrac|exact Hnd].
      rewrite (parse_exponent_none rest _ Hrest). eexists. reflexivity.
Qed.

Lemma digit_char_not_minus d : (digit_char d =? ch "-") = false.
Proof. apply N.eqb_neq. unfold digit_char. cbn. lia. Qed.

Lemma digit_char_not_zero d : d <> 0 -> (digit_char d =? ch "0") = false.
Proof. intros Hd. apply N.eqb_neq. unfold digit_char. cbn. lia. Qed.

(** What follows the integer part of a numeral does not start with a
    digit. *)
Lemma no_digit_after_integer frac e rest :
  terminated rest = true ->
  no_digit_ahead
    ((match frac with [] => [] | _ => js "." ++ chars frac end)
     ++ (match e with None => [] | Some (negative, ds) => exponent_text negative ds end)
     ++ rest) = true.
Proof.
  intros Hrest. destruct frac; [|reflexivity].
  destruct e as [[negative ds]|]; [destruct negative; reflexivity|].
  apply terminated_no_digit, Hrest.
Qed.

(** The parser reads a numeral back as the number of its parts. *)
Lemma parse_number_numeral neg int frac e rest pos :
  integer_digits int ->
  Forall (fun x => x < 10) frac ->
  exponent_digits_ok e ->
  terminated rest = true ->
  exists pos',
    parse_number (numeral neg int frac e ++ rest) pos =
      Ok (VNum (decimal_value neg int frac (exponent_value e))) rest pos'.
Proof.
  intros Hint Hfrac He Hrest.
  set (tail := (match frac with [] => [] | _ => js "." ++ chars frac end)
               ++ (match e with None => [] | Some (negative, ds) => exponent_text negative ds end)
               ++ rest).
  assert (numeral neg int frac e ++ rest =
            (if neg then js "-" else []) ++ chars int ++ tail) as ->.
  { unfold numeral, tail. rewrite <- !app_assoc. reflexivity. }
  assert (forall pos1,
             exists pos',
               match
                 match chars int ++ tail with
                 | c :: rest0 =>
                     if c =? ch "0" then Ok [0] rest0 (pos1 + 1)
                     else match take_digits (chars int ++ tail) with
                          | ([], _) => stop_at (chars int ++ tail) pos1
                          | (ds, rest1) => Ok ds rest1 (pos1 + N.of_nat (length ds))
                          end
                 | [] => stop_at (chars int ++ tail) pos1
                 end
               with
               | Bad p f => Bad p f
               | Ok int' s2 pos2 =>
                   match parse_fraction s2 pos2 with
                   | Bad p f => Bad p f
                   | Ok frac' s3 pos3 =>
                       match parse_exponent s3 pos3 with
                       | Bad p f => Bad p f
                       | Ok e' s4 pos4 =>
                           Ok (VNum (decimal_value neg int' frac' e')) s4 pos4
                       end
                   end
               end = Ok (VNum (decimal_value neg int frac (exponent_value e))) rest pos')
    as Hbody.
  { intros pos1. destruct Hint as [->|(d & ds & -> & Hd & Hall)].
    - cbn [chars map app]. change (digit_char 0 =? ch "0") with true. cbn iota.
      apply (parse_fraction_exponent
               (fun frac' e' => VNum (decimal_value neg [0] frac' e'))); assumption.
    - cbn [chars map app]. rewrite (digit_char_not_zero d Hd).
      change (digit_char d :: map digit_char ds ++ tail) with (chars (d :: ds) ++ tail).
      rewrite (take_digits_chars (d :: ds) tail Hall)
        by (apply no_digit_after_integer, Hrest).
      apply (parse_fraction_exponent
               (fun frac' e' => VNum (decimal_value neg (d :: ds) frac' e'))); assumption. }
  unfold parse_number. destruct neg.
  - cbn [js list_ascii_of_string map app]. change (N_of_ascii "-"%char =? ch "-") with true.
    cbn iota. apply Hbody.
  - cbn [app].
    assert (match chars int ++ tail with
            | [] => (false, chars int ++ tail, pos)
            | c0 :: rest0 =>
                if c0 =? ch "-" then (true, rest0, pos + 1)
                else (false, chars int ++ tail, pos)
            end = (false, chars int ++ tail, pos)) as ->.
    { destruct Hint as [->|(d & ds & -> & _ & _)]; cbn [chars map app];
        rewrite digit_char_not_minus; reflexivity. }
    apply Hbody.
Qed.

Lemma chars_app a b : chars (a ++ b) = chars a ++ chars b.
Proof. apply map_app. Qed.

Lemma chars_zeros m : chars (repeat 0 m) = repeat 48 m.
Proof. induction m as [|m IH]; [reflexivity|]. cbn. f_equal. exact IH. Qed.

(** The number of a numeral whose digits are leading zeros, then digits that
    end in a digit other than 0, then trailing zeros. *)
Lemma decimal_value_digits neg int frac E z ds dl m :
  int ++ frac = repeat 0 z ++ (ds ++ [dl]) ++ repeat 0 m ->
  dl <> 0 ->
  of_digits (ds ++ [dl]) <> 0 ->
  decimal_value neg int frac E =
    Dec neg (of_digits (ds ++ [dl])) (E - Z.of_nat (length frac) + Z.of_nat m).
Proof.
  intros Hdigits Hdl Hcoef. unfold decimal_value. rewrite Hdigits.
  replace (repeat 0 z ++ (ds ++ [dl]) ++ repeat 0 m)
    with ((repeat 0 z ++ ds) ++ dl :: repeat 0 m)
    by (rewrite <- !app_assoc; reflexivity).
  rewrite (strip_trailing_zeros_last _ dl m Hdl).
  rewrite <- app_assoc, of_digits_leading_zeros.
  apply N.eqb_neq in Hcoef. rewrite Hcoef. reflexivity.
Qed.

Lemma numeral_with_fraction neg int frac ee :
  frac <> [] ->
  numeral neg int frac ee =
    (if neg then js "-" else []) ++ chars int ++ (js "." ++ chars frac)
    ++ (match ee with None => [] | Some (negative, ds) => exponent_text negative ds end).
Proof. intros H. unfold numeral. destruct frac; [congruence|reflexivity]. Qed.

Lemma zeros_bounded m : Forall (fun x => x < 10) (repeat 0 m).
Proof. induction m; cbn; constructor; [lia|assumption]. Qed.

Lemma integer_digits_cons d ds :
  d <> 0 -> Forall (fun x => x < 10) (d :: ds) -> integer_digits (d :: ds).
Proof. intros Hd Hall. right. exists d, ds. auto. Qed.

(** The printer writes a numeral of the number. *)
Lemma number_to_string_numeral neg coef e :
  json_number (Dec neg coef e) = true ->
  exists int frac ee,
    number_to_string (Dec neg coef e) = numeral neg int frac ee /\
    integer_digits int /\
    Forall (fun x => x < 10) frac /\
    exponent_digits_ok ee /\
    decimal_value neg int frac (exponent_value ee) = Dec neg coef e.
Proof.
  cbn [json_number number_to_string].
  destruct (coef =? 0) eqn:Hz.
  - intros H. apply andb_true_iff in H as [Hneg He].
    apply N.eqb_eq in Hz. apply Z.eqb_eq in He. subst coef e.
    destruct neg; [discriminate|].
    exists [0], [], None. repeat split; [left; reflexivity|constructor].
  - intros Hmod. apply negb_true_iff, N.eqb_neq in Hmod. apply N.eqb_neq in Hz.
    destruct (digits_of_last coef Hmod) as (ds & dl & HD & Hdl).
    pose proof (digits_of_bounded coef) as Hall.
    pose proof (digits_of_head coef Hz) as Hhead.
    pose proof (of_digits_digits_of coef) as Hval.
    rewrite HD in Hall, Hhead, Hval.
    rewrite HD. change (ds ++ [dl]) with (ds ++ dl :: repeat 0 0) at 1.
    rewrite (strip_trailing_zeros_last ds dl 0 Hdl).
    set (D := ds ++ [dl]) in *.
    assert (D <> []) as HDne by (unfold D; destruct ds; discriminate).
    set (k := Z.of_nat (length D)).
    assert (0 < k)%Z as Hk by (unfold k; destruct D; [congruence|cbn; lia]).
    replace (k + e + Z.of_nat 0)%Z with (k + e)%Z by lia.
    set (n := (k + e)%Z).
    change (map digit_char D) with (chars D).
    assert (forall int frac E m z,
               int ++ frac = repeat 0 z ++ D ++ repeat 0 m ->
               (E - Z.of_nat (length frac) + Z.of_nat m)%Z = e ->
               decimal_value neg int frac E = Dec neg coef e) as Hvalue.
    { intros int frac E m z Hd HE.
      rewrite (decimal_value_digits neg int frac E z ds dl m Hd Hdl)
        by (fold D; rewrite Hval; exact Hz).
      fold D. rewrite Hval, HE. reflexivity. }
    destruct D as [|d0 more] eqn:ED; [congruence|].
    assert (d0 <> 0) as Hd0 by (intros ->; apply Hhead; reflexivity).
    destruct ((k <=? n)%Z && (n <=? 21)%Z) eqn:CA.
    { (* digits followed by zeros *)
      apply andb_true_iff in CA as [C1 C2]. apply Z.leb_le in C1, C2.
      exists ((d0 :: more) ++ repeat 0 (Z.to_nat (n - k))), [], None.
      split; [unfold numeral; rewrite chars_app, chars_zeros, !app_nil_r; reflexivity|].
      split; [apply (integer_digits_cons d0 (more ++ repeat 0 (Z.to_nat (n - k))) Hd0);
              apply (Forall_app_2 _ (d0 :: more)); [exact Hall|];
              apply zeros_bounded|].
      split; [constructor|]. split; [exact I|].
      apply (Hvalue _ _ _ (Z.to_nat (n - k)) 0%nat); [rewrite app_nil_r; reflexivity|].
      cbn [exponent_value length]. unfold n in *. lia. }
    destruct ((0 <? n)%Z && (n <=? 21)%Z) eqn:CB.
    { (* a point inside the digits *)
      apply andb_true_iff in CB as [C1 C2]. apply Z.ltb_lt in C1. apply Z.leb_le in C2.
      apply andb_false_iff in CA as [CA|CA];
        [apply Z.leb_gt in CA|apply Z.leb_gt in CA; lia].
      assert (Z.to_nat n < length (d0 :: more))%nat as Hlt by (unfold k in *; lia).
      exists (take (Z.to_nat n) (d0 :: more)), (drop (Z.to_nat n) (d0 :: more)), None.
      assert (drop (Z.to_nat n) (d0 :: more) <> []) as Hdrop.
      { intros Hnil. apply (f_equal (@length N)) in Hnil.
        rewrite length_drop in Hnil. cbn [length] in Hnil, Hlt. lia. }
      split.
      { rewrite (numeral_with_fraction _ _ _ _ Hdrop), app_nil_r.
        unfold chars. rewrite firstn_map, skipn_map. reflexivity. }
      split.
      { destruct (Z.to_nat n) as [|n'] eqn:En; [lia|]. cbn [take].
        apply integer_digits_cons; [exact Hd0|].
        change (d0 :: take n' more) with (take (S n') (d0 :: more)).
        apply Forall_take, Hall. }
      split; [apply Forall_drop, Hall|]. split; [exact I|].
      apply (Hvalue _ _ _ 0%nat 0%nat); [rewrite take_drop, app_nil_r; reflexivity|].
      cbn [exponent_value]. rewrite length_drop. unfold n, k in *. lia. }
    destruct ((-6 <? n)%Z && (n <=? 0)%Z) eqn:CC.
    { (* zero, a point, zeros, the digits *)
      apply andb_true_iff in CC as [C1 C2]. apply Z.ltb_lt in C1. apply Z.leb_le in C2.
      exists [0], (repeat 0 (Z.to_nat (- n)) ++ d0 :: more), None.
      split.
      { rewrite numeral_with_fraction
          by (destruct (repeat 0 (Z.to_nat (- n))); discriminate).
        rewrite chars_app, chars_zeros, app_nil_r. reflexivity. }
      split; [left; reflexivity|].
      split; [apply Forall_app_2; [|exact Hall];
              apply zeros_bounded|].
      split; [exact I|].
      apply (Hvalue _ _ _ 0%nat (S (Z.to_nat (- n)))); [rewrite app_nil_r; reflexivity|].
      cbn [exponent_value]. rewrite length_app, repeat_length. unfold n, k in *. lia. }
    (* exponent notation *)
    set (E := (n - 1)%Z).
    assert (exponent_digits_ok (Some ((E <? 0)%Z, digits_of (Z.abs_N E)))) as HEok
      by (split; [apply digits_of_nonempty|apply digits_of_bounded]).
    assert (exponent_value (Some ((E <? 0)%Z, digits_of (Z.abs_N E))) = E) as HEval.
    { cbn [exponent_value]. rewrite of_digits_digits_of.
      destruct (E <? 0)%Z eqn:Es; [apply Z.ltb_lt in Es|apply Z.ltb_ge in Es]; lia. }
    assert (js "e" ++ (if (E <? 0)%Z then js "-" else js "+") ++ decimal (Z.abs_N E)
            = exponent_text (E <? 0)%Z (digits_of (Z.abs_N E))) as Hexp
      by (unfold exponent_text, chars; rewrite decimal_digits_of; reflexivity).
    rewrite Hexp.
    destruct more as [|d1 more'].
    + exists [d0], [], (Some ((E <? 0)%Z, digits_of (Z.abs_N E))).
      split; [reflexivity|]. split; [apply integer_digits_cons; assumption|].
      split; [constructor|]. split; [exact HEok|].
      apply (Hvalue _ _ _ 0%nat 0%nat); [reflexivity|].
      rewrite HEval. cbn [length]. unfold E, n, k in *. cbn [length] in *. lia.
    + exists [d0], (d1 :: more'), (Some ((E <? 0)%Z, digits_of (Z.abs_N E))).
      split; [rewrite numeral_with_fraction by discriminate;
              cbn [chars map app]; rewrite <- !app_assoc; reflexivity|].
      split; [apply integer_digits_cons; [exact Hd0|]; constructor; [|constructor];
              apply (Forall_inv Hall)|].
      split; [apply (Forall_inv_tail Hall)|]. split; [exact HEok|].
      apply (Hvalue _ _ _ 0%nat 0%nat); [rewrite app_nil_r; reflexivity|].
      rewrite HEval. unfold E, n, k in *. cbn [length] in *. lia.
Qed.

(** A number is read back from its text. *)
Lemma parse_number_round_trip neg coef e rest pos :
  json_number (Dec neg coef e) = true ->
  terminated rest = true ->
  exists pos',
    parse_number (number_to_string (Dec neg coef e) ++ rest) pos =
      Ok (VNum (Dec neg coef e)) rest pos'.
Proof.
  intros Hn Hrest.
  destruct (number_to_string_numeral neg coef e Hn)
    as (int & frac & ee & -> & Hint & Hfrac & Hee & <-).
  apply parse_number_numeral; assumption.
Qed.

(** ** Strings *)

Lemma hex_value_char d : d < 16 -> hex_value (hex_char d) = Some d.
Proof.
  intros Hd.
  assert (d = 0 \/ d = 1 \/ d = 2 \/ d = 3 \/ d = 4 \/ d = 5 \/ d = 6 \/ d = 7 \/
          d = 8 \/ d = 9 \/ d = 10 \/ d = 11 \/ d = 12 \/ d = 13 \/ d = 14 \/ d = 15)
    as H by lia.
  repeat (destruct H as [->|H]; [reflexivity|]). subst d. reflexivity.
Qed.

(** A string is read back from its quoted text. *)
Lemma parse_string_quoted s rest pos acc :
  exists pos',
    parse_string (flat_map quote_unit s ++ [34] ++ rest) pos acc =
      Ok (rev acc ++ s) rest pos'.
Proof.
  revert pos acc. induction s as [|c s IH]; intros pos acc.
  - cbn. rewrite app_nil_r. eexists. reflexivity.
  - cbn [flat_map]. rewrite <- app_assoc.
    assert (forall pos1, exists pos',
               parse_string (flat_map quote_unit s ++ [34] ++ rest) pos1 (c :: acc) =
                 Ok (rev acc ++ c :: s) rest pos') as Hnext.
    { intros pos1. destruct (IH pos1 (c :: acc)) as (pos' & ->).
      exists pos'. cbn [rev]. rewrite <- app_assoc. reflexivity. }
    unfold quote_unit.
    destruct (c =? 8) eqn:E8; [apply N.eqb_eq in E8; subst c; apply Hnext|].
    destruct (c =? 9) eqn:E9; [apply N.eqb_eq in E9; subst c; apply Hnext|].
    destruct (c =? 10) eqn:E10; [apply N.eqb_eq in E10; subst c; apply Hnext|].
    destruct (c =? 12) eqn:E12; [apply N.eqb_eq in E12; subst c; apply Hnext|].
    destruct (c =? 13) eqn:E13; [apply N.eqb_eq in E13; subst c; apply Hnext|].
    destruct (c =? 34) eqn:E34; [apply N.eqb_eq in E34; subst c; apply Hnext|].
    destruct (c =? 92) eqn:E92; [apply N.eqb_eq in E92; subst c; apply Hnext|].
    destruct (c <? 32) eqn:E32.
    + apply N.ltb_lt in E32.
      cbn [js list_ascii_of_string map app parse_string].
      change (N_of_ascii "\"%char =? 34) with false.
      change (N_of_ascii "\"%char =? 92) with true.
      change (N_of_ascii "u"%char =? ch "u") with true.
      cbn iota.
      change (hex_value (N_of_ascii "0"%char)) with (Some 0).
      rewrite (hex_value_char (c / 16)) by (apply N.Div0.div_lt_upper_bound; lia).
      rewrite (hex_value_char (c mod 16)) by (apply N.mod_lt; lia).
      replace (((0 * 16 + 0) * 16 + c / 16) * 16 + c mod 16) with c
        by (rewrite (N.div_mod c 16) at 1 by lia; lia).
      apply Hnext.
    + cbn [app parse_string]. rewrite E34, E92, E32. apply Hnext.
Qed.

(** ** Values *)

Lemma Value_induction (P : Value -> Prop) :
  P VUndefined -> P VNull -> (forall b, P (VBool b)) -> (forall n, P (VNum n)) ->
  (forall s, P (VStr s)) ->
  (forall elems, Forall P elems -> P (VArr elems)) ->
  (forall props, Forall (fun p => P (snd p)) props -> P (VObj props)) ->
  (forall f, P (VFun f)) ->
  forall v, P v.
Proof.
  intros Hu Hn Hb Hnum Hs Harr Hobj Hf.
  fix IH 1.
  intros [| |b|n|s|elems|props|f];
    [apply Hu|apply Hn|apply Hb|apply Hnum|apply Hs| | |apply Hf].
  - apply Harr. induction elems as [|x xs IHxs]; constructor; [apply IH|exact IHxs].
  - apply Hobj. induction props as [|p ps IHps]; constructor; [apply IH|exact IHps].
Qed.

Lemma serialize_json_value v :
  json_value v = true -> serialize v = Some (stringify v).
Proof.
  unfold stringify. destruct v as [| |[]|[| |]| | | |]; cbn; try discriminate; reflexivity.
Qed.

Lemma stringify_array elems :
  forallb json_value elems = true ->
  stringify (VArr elems) = js "[" ++ join (js ",") (map stringify elems) ++ js "]".
Proof.
  intros H. unfold stringify at 1. cbn [serialize default from_option id].
  do 3 f_equal. apply map_ext_in. intros x Hx.
  rewrite forallb_forall in H. rewrite (serialize_json_value x (H x Hx)). reflexivity.
Qed.

Lemma stringify_object props :
  forallb (fun p => json_value (snd p)) props = true ->
  stringify (VObj props) = js "{" ++ join (js ",") (map member_text props) ++ js "}".
Proof.
  intros H. unfold stringify at 1. cbn [serialize default from_option id].
  do 3 f_equal. induction props as [|[k x] ps IH]; [reflexivity|].
  cbn [forallb] in H. apply andb_true_iff in H as [Hx Hps].
  cbn [omap list_omap map]. cbn [snd] in Hx. rewrite (serialize_json_value x Hx).
  cbn [option_map]. f_equal. apply IH, Hps.
Qed.

Lemma numeral_head neg int frac ee :
  integer_digits int ->
  exists c t, numeral neg int frac ee = c :: t /\
              ((c = ch "-") \/ exists d, d < 10 /\ c = digit_char d).
Proof.
  intros Hint. unfold numeral. destruct neg.
  - eexists _, _. split; [reflexivity|left; reflexivity].
  - cbn [app]. destruct Hint as [->|(d & ds & -> & Hd & Hall)].
    + eexists _, _. split; [reflexivity|]. right. exists 0. split; [lia|reflexivity].
    + eexists _, _. split; [reflexivity|]. right. exists d.
      split; [apply (Forall_inv Hall)|reflexivity].
Qed.

Lemma number_head neg coef e :
  json_number (Dec neg coef e) = true ->
  exists c t, number_to_string (Dec neg coef e) = c :: t /\
              ((c = ch "-") \/ exists d, d < 10 /\ c = digit_char d).
Proof.
  intros H. destruct (number_to_string_numeral neg coef e H)
    as (int & frac & ee & -> & Hint & _).
  apply numeral_head, Hint.
Qed.

Lemma digit_opens_value d : d < 10 -> opens_value (digit_char d).
Proof.
  intros Hd. unfold opens_value, digit_char, is_json_whitespace.
  repeat split; repeat (apply orb_false_iff; split); apply N.eqb_neq; cbn; lia.
Qed.

Lemma stringify_head v :
  json_value v = true ->
  exists c t, stringify v = c :: t /\ opens_value c.
Proof.
  intros Hv. destruct v as [| |[]|[| |neg coef e]|s|elems|props|]; try discriminate.
  - eexists _, _. split; [reflexivity|]. repeat split.
  - eexists _, _. split; [reflexivity|]. repeat split.
  - eexists _, _. split; [reflexivity|]. repeat split.
  - destruct (number_head neg coef e Hv) as (c & t & Hs & Hc).
    exists c, t. split; [exact Hs|].
    destruct Hc as [->|(d & Hd & ->)]; [repeat split|apply digit_opens_value, Hd].
  - eexists _, _. split; [reflexivity|]. repeat split.
  - eexists _, _. split; [reflexivity|]. repeat split.
  - eexists _, _. split; [reflexivity|]. repeat split.
Qed.

Lemma skip_ws_opens c t pos :
  is_json_whitespace c = false -> skip_ws (c :: t) pos = (c :: t, pos).
Proof. intros H. cbn. rewrite H. reflexivity. Qed.

Lemma join_cons sep p q qs :
  join sep (p :: q :: qs) = p ++ sep ++ join sep (q :: qs).
Proof. cbn [join flat_map]. rewrite <- !app_assoc. reflexivity. Qed.

Lemma join_head_cons sep p ps tail :
  join sep (p :: ps) ++ tail = p ++ flat_map (fun q => sep ++ q) ps ++ tail.
Proof. cbn [join]. rewrite <- app_assoc. reflexivity. Qed.

Lemma join_single sep p : join sep [p] = p.
Proof. cbn. apply app_nil_r. Qed.

Lemma parse_elements_round_trip elems :
  Forall round_trips elems ->
  forallb json_value elems = true ->
  elems <> [] ->
  forall fuel acc rest pos,
    (elems_depth elems <= fuel)%nat ->
    exists pos',
      parse_elements fuel (join (js ",") (map stringify elems) ++ js "]" ++ rest) pos acc
      = Ok (VArr (rev acc ++ elems)) rest pos'.
Proof.
  induction elems as [|x xs IH]; intros Hrt Hjv Hne fuel acc rest pos Hfuel;
    [congruence|].
  apply Forall_cons in Hrt as [Hx Hxs].
  cbn [forallb] in Hjv. apply andb_true_iff in Hjv as [Hjx Hjxs].
  cbn [elems_depth foldr] in Hfuel. fold (elems_depth xs) in Hfuel.
  destruct fuel as [|fuel]; [lia|]. cbn [parse_elements map].
  destruct xs as [|y ys].
  - rewrite join_single.
    destruct (Hx Hjx fuel (js "]" ++ rest) pos) as (pos1 & ->); [lia|reflexivity|].
    cbn. eexists. reflexivity.
  - cbn [map]. rewrite join_cons, <- !app_assoc.
    destruct (Hx Hjx fuel
                (js "," ++ join (js ",") (stringify y :: map stringify ys) ++ js "]" ++ rest)
                pos) as (pos1 & ->); [lia|reflexivity|].
    cbn [js list_ascii_of_string map app skip_ws].
    change (is_json_whitespace (N_of_ascii ","%char)) with false. cbn iota.
    change (N_of_ascii ","%char =? ch ",") with true. cbn iota.
    destruct (IH Hxs Hjxs ltac:(discriminate) fuel (x :: acc) rest (pos1 + 1))
      as (pos2 & Hp); [lia|].
    cbn [map js list_ascii_of_string app] in Hp. rewrite Hp.
    exists pos2. cbn [rev]. rewrite <- app_assoc. reflexivity.
Qed.

Lemma set_prop_fresh key v acc :
  key ∉ map fst acc -> set_prop key v acc = acc ++ [(key, v)].
Proof.
  induction acc as [|[k w] acc IH]; intros Hfresh; [reflexivity|].
  cbn [set_prop]. cbn [map fst] in Hfresh.
  apply not_elem_of_cons in Hfresh as [Hk Hacc].
  unfold jsstring_eqb. rewrite bool_decide_eq_false_2 by congruence.
  cbn [app]. f_equal. apply IH, Hacc.
Qed.

Lemma parse_members_round_trip props :
  Forall (fun p => round_trips (snd p)) props ->
  forallb (fun p => json_value (snd p)) props = true ->
  props <> [] ->
  forall fuel acc rest pos,
    (props_depth props <= fuel)%nat ->
    NoDup (map fst (acc ++ props)) ->
    exists pos',
      parse_members fuel (join (js ",") (map member_text props) ++ js "}" ++ rest) pos acc
      = Ok (VObj (acc ++ props)) rest pos'.
Proof.
  induction props as [|[k x] ps IH]; intros Hrt Hjv Hne fuel acc rest pos Hfuel Hdup;
    [congruence|].
  apply Forall_cons in Hrt as [Hx Hps]. cbn [snd] in Hx.
  cbn [forallb snd] in Hjv. apply andb_true_iff in Hjv as [Hjx Hjps].
  cbn [props_depth foldr snd] in Hfuel. fold (props_depth ps) in Hfuel.
  destruct fuel as [|fuel]; [lia|].
  assert (k ∉ map fst acc) as Hfresh.
  { rewrite map_app in Hdup. apply NoDup_app in Hdup as (_ & Hdisj & _).
    intros Hin. apply (Hdisj k Hin). cbn. left. }
  destruct (stringify_head x Hjx) as (c & t & Hst & Hws & _ & _).
  assert (forall tail pos0,
             terminated tail = true ->
             exists pos4,
               parse_members (S fuel) (member_text (k, x) ++ tail) pos0 acc =
                 (let '(s4, pos4') := skip_ws tail pos4 in
                  match s4 with
                  | d :: rest4 =>
                      if d =? ch "," then
                        parse_members fuel rest4 (pos4' + 1) (acc ++ [(k, x)])
                      else if d =? ch "}" then
                        Ok (VObj (acc ++ [(k, x)])) rest4 (pos4' + 1)
                      else stop_at s4 pos4'
                  | [] => Bad pos4' None
                  end)) as Hmember.
  { intros tail pos0 Htail. unfold member_text, quote. cbn [fst snd].
    rewrite <- !app_assoc. cbn [parse_members app skip_ws].
    change (is_json_whitespace 34) with false. cbn iota.
    rewrite N.eqb_refl.
    destruct (parse_string_quoted k (js ":" ++ stringify x ++ tail) (pos0 + 1) [])
      as (pos1 & Hk).
    cbn [app] in Hk. rewrite Hk. cbn [rev app].
    cbn [js list_ascii_of_string map app skip_ws].
    change (is_json_whitespace (N_of_ascii ":"%char)) with false. cbn iota.
    change (N_of_ascii ":"%char =? ch ":") with true. cbn iota.
    destruct (Hx Hjx fuel tail (pos1 + 1)) as (pos3 & ->); [lia|exact Htail|].
    rewrite (set_prop_fresh k x acc Hfresh). exists pos3. reflexivity. }
  cbn [map]. destruct ps as [|q qs].
  - rewrite join_single.
    destruct (Hmember (js "}" ++ rest) pos) as (pos4 & ->); [reflexivity|].
    cbn. eexists. reflexivity.
  - cbn [map]. rewrite join_cons, <- !app_assoc.
    destruct (Hmember
                (js "," ++ join (js ",") (member_text q :: map member_text qs)
                 ++ js "}" ++ rest) pos) as (pos4 & ->); [reflexivity|].
    cbn [js list_ascii_of_string map app skip_ws].
    change (is_json_whitespace (N_of_ascii ","%char)) with false. cbn iota.
    change (N_of_ascii ","%char =? ch ",") with true. cbn iota.
    destruct (IH Hps Hjps ltac:(discriminate) fuel (acc ++ [(k, x)]) rest (pos4 + 1))
      as (pos5 & Hp); [lia| |].
    { rewrite <- app_assoc. exact Hdup. }
    cbn [map js list_ascii_of_string app] in Hp. rewrite Hp.
    exists pos5. rewrite <- app_assoc. reflexivity.
Qed.

Lemma parse_value_number fuel neg coef e rest pos :
  json_number (Dec neg coef e) = true ->
  terminated rest = true ->
  exists pos',
    parse_value (S fuel) (number_to_string (Dec neg coef e) ++ rest) pos =
      Ok (VNum (Dec neg coef e)) rest pos'.
Proof.
  intros Hn Hrest.
  destruct (parse_number_round_trip neg coef e rest pos Hn Hrest) as (pos' & Hp).
  exists pos'. rewrite <- Hp.
  destruct (number_head neg coef e Hn) as (c & t & -> & Hc).
  cbn [parse_value app].
  destruct Hc as [->|(d & Hd & ->)].
  - reflexivity.
  - destruct (digit_opens_value d Hd) as (Hws & _).
    rewrite (skip_ws_opens _ _ _ Hws).
    assert (d = 0 \/ d = 1 \/ d = 2 \/ d = 3 \/ d = 4 \/ d = 5 \/ d = 6 \/ d = 7 \/
            d = 8 \/ d = 9) as H by lia.
    repeat (destruct H as [->|H]; [reflexivity|]). subst d. reflexivity.
Qed.

(** Every value of the JSON data model is read back from its text. *)
Lemma parse_value_round_trip v : round_trips v.
Proof.
  induction v as [| |b|n|s|elems IH|props IH|f] using Value_induction;
    intros Hv fuel rest pos Hfuel Hrest; try discriminate.
  - destruct fuel as [|fuel]; [cbn in Hfuel; lia|]. eexists. reflexivity.
  - destruct fuel as [|fuel]; [cbn in Hfuel; lia|].
    destruct b; eexists; reflexivity.
  - destruct fuel as [|fuel]; [cbn in Hfuel; lia|].
    destruct n as [| |neg coef e]; try discriminate.
    apply parse_value_number; assumption.
  - destruct fuel as [|fuel]; [cbn in Hfuel; lia|].
    unfold stringify. cbn [serialize default from_option id]. unfold quote.
    rewrite <- !app_assoc. cbn [parse_value app skip_ws].
    change (is_json_whitespace 34) with false. cbn iota.
    change (34 =? ch "{") with false. change (34 =? ch "[") with false.
    cbn iota. rewrite N.eqb_refl.
    destruct (parse_string_quoted s rest (pos + 1) []) as (pos1 & Hs).
    cbn [app] in Hs. rewrite Hs. exists pos1. reflexivity.
  - cbn [json_value] in Hv. rewrite (stringify_array elems Hv).
    cbn [parse_depth] in Hfuel. fold (elems_depth elems) in Hfuel.
    destruct fuel as [|fuel]; [lia|].
    destruct elems as [|x xs].
    + eexists. reflexivity.
    + assert (json_value x = true) as Hjx
        by (cbn in Hv; apply andb_true_iff in Hv; tauto).
      destruct (stringify_head x Hjx) as (c & t & Hst & Hws & Hbr & _).
      destruct (parse_elements_round_trip (x :: xs) IH Hv ltac:(discriminate)
                  fuel [] rest (pos + 1)) as (pos' & Hp); [lia|].
      cbn [rev app] in Hp.
      exists pos'. rewrite <- Hp. rewrite <- !app_assoc.
      cbn [js list_ascii_of_string map app parse_value skip_ws].
      change (is_json_whitespace (N_of_ascii "["%char)) with false. cbn iota.
      change (N_of_ascii "["%char =? ch "{") with false.
      change (N_of_ascii "["%char =? ch "[") with true. cbn iota.
      rewrite join_head_cons, Hst. cbn [app skip_ws]. rewrite Hws, Hbr.
      reflexivity.
  - cbn [json_value] in Hv. apply andb_true_iff in Hv as [Hdup Hv].
    apply bool_decide_eq_true in Hdup.
    rewrite (stringify_object props Hv).
    cbn [parse_depth] in Hfuel. fold (props_depth props) in Hfuel.
    destruct fuel as [|fuel]; [lia|].
    destruct props as [|[k x] ps].
    + eexists. reflexivity.
    + destruct (parse_members_round_trip ((k, x) :: ps) IH Hv ltac:(discriminate)
                  fuel [] rest (pos + 1)) as (pos' & Hp); [lia|exact Hdup|].
      cbn [app] in Hp.
      exists pos'. rewrite <- Hp. rewrite <- !app_assoc.
      cbn [js list_ascii_of_string map app parse_value skip_ws].
      change (is_json_whitespace (N_of_ascii "{"%char)) with false. cbn iota.
      change (N_of_ascii "{"%char =? ch "{") with true. cbn iota.
      rewrite join_head_cons. unfold member_text at 1, quote. cbn [fst app skip_ws].
      change (is_json_whitespace 34) with false. cbn iota.
      change (34 =? ch "}") with false. cbn iota. reflexivity.
Qed.

(** ** Enough fuel *)

Lemma depth_fold_bound {A : Type} (depth : A -> nat) (text : A -> jsstring)
    (sep : jsstring) xs :
  (1 <= length sep)%nat ->
  Forall (fun x => (depth x <= length (text x))%nat) xs ->
  (foldr (fun x d => S (Nat.max (depth x) d)) 0%nat xs
   <= length (flat_map (fun q => sep ++ q) (map text xs)))%nat.
Proof.
  intros Hsep. induction 1 as [|x xs Hx _ IH]; [reflexivity|].
  cbn [foldr map flat_map]. rewrite !length_app. lia.
Qed.

Lemma join_length sep p ps :
  length (join sep (p :: ps)) =
    (length p + length (flat_map (fun q => sep ++ q) ps))%nat.
Proof. cbn [join]. apply length_app. Qed.

Lemma flat_map_cons_length (sep p : jsstring) ps :
  length (flat_map (fun q => sep ++ q) (p :: ps)) =
    (length sep + length (join sep (p :: ps)))%nat.
Proof. cbn [flat_map join]. rewrite !length_app. lia. Qed.

(** The depth of the calls is bounded by the length of the text. *)
Lemma parse_depth_length v :
  json_value v = true -> (parse_depth v <= length (stringify v))%nat.
Proof.
  induction v as [| |b|n|s|elems IH|props IH|f] using Value_induction;
    intros Hv; try discriminate;
    try (destruct (stringify_head _ Hv) as (c & t & -> & _); cbn; lia).
  - cbn [json_value] in Hv. rewrite (stringify_array elems Hv).
    cbn [parse_depth].
    assert (Forall (fun x => (parse_depth x <= length (stringify x))%nat) elems) as Hall.
    { rewrite forallb_forall in Hv. rewrite Forall_forall in IH |- *.
      intros x Hx. apply IH; [exact Hx|]. apply Hv. apply list_elem_of_In, Hx. }
    pose proof (depth_fold_bound parse_depth stringify (js ",") elems
                  ltac:(reflexivity) Hall) as Hb.
    rewrite !length_app. cbn [js list_ascii_of_string map length].
    destruct elems as [|x xs]; [cbn; lia|].
    cbn [map] in Hb |- *. rewrite flat_map_cons_length in Hb.
    cbn [js list_ascii_of_string map length] in Hb. lia.
  - cbn [json_value] in Hv. apply andb_true_iff in Hv as [_ Hv].
    rewrite (stringify_object props Hv).
    cbn [parse_depth].
    assert (Forall (fun p => (parse_depth (snd p) <= length (member_text p))%nat) props)
      as Hall.
    { rewrite forallb_forall in Hv. rewrite Forall_forall in IH |- *.
      intros p Hp. specialize (IH p Hp (Hv p ltac:(apply list_elem_of_In, Hp))).
      unfold member_text. rewrite !length_app. lia. }
    pose proof (depth_fold_bound (fun p => parse_depth (snd p)) member_text (js ",")
                  props ltac:(reflexivity) Hall) as Hb.
    rewrite !length_app. cbn [js list_ascii_of_string map length].
    destruct props as [|p ps]; [cbn; lia|].
    cbn [map] in Hb |- *. rewrite flat_map_cons_length in Hb.
    cbn [js list_ascii_of_string map length] in Hb. lia.
Qed.

(** The reference decoder inverts the reference encoder on the JSON data
    model. *)
Lemma parse_text_stringify v :
  json_value v = true ->
  exists pos, parse_text (stringify v) = Ok v [] pos.
Proof.
  intros Hv. unfold parse_text.
  destruct (parse_value_round_trip v Hv (2 * length (stringify v) + 2)%nat [] 0)
    as (pos & Hp); [pose proof (parse_depth_length v Hv); lia|reflexivity|].
  rewrite app_nil_r in Hp. rewrite Hp. exists pos. reflexivity.
Qed.

Lemma parse_stringify call v reviver :
  json_value v = true ->
  is_function reviver = false ->
  parse call (stringify v) reviver = Return v.
Proof.
  intros Hv Hr. unfold parse.
  destruct (parse_text_stringify v Hv) as (pos & ->).
  destruct reviver; try reflexivity. discriminate.
Qed.

End RoundTripFacts.

(** ** The empty body *)

(** C3.  An empty body gives the empty object whatever [strict] is, and
    nothing is called for it: neither [JSON.parse] nor the regular expression
    of the strict check.  For a request that is read (not parsed yet, with a
    body, of a matching type and a UTF charset) whose body decodes to the
    empty text, the handler calls the reader, which attaches the empty object
    and continues, and the trace has no call of the parser or of the strict
    check. *)
Theorem empty_body_gives_empty_object :
  forall (RT : Runtime) (CO : Collaborators) (self : Self),
    parseBody self [] = mkM [] (Return empty_object) /\
    forall req : Request,
      _body req = false ->
      hasBody (with_default_body req) = true ->
      shouldParse self (with_default_body req) = true ->
      substr (resolve_charset (with_default_body req)) 0 4 = js "utf-" ->
      let done := createReader (SpecReader (Decoded [])) self req in
      outcome done =
        Return {| _body := true; body := empty_object; headers := headers req |} /\
      invokes_JSON_parse (trace done) = false /\
      existsb is_RegExpExec (trace done) = false /\
      next_errors (trace done) = [].
Proof.
  intros RT CO self. split; [reflexivity|].
  intros req Hb Hh Hs Hc. unfold createReader, checkParse.
  change (_body (with_default_body req)) with (_body req).
  rewrite Hb, Hh, Hs, Hc. cbn. repeat split; reflexivity.
Qed.

Lemma empty_body_gives_empty_object_witness :
  let done :=
    createReader (RT := Examples.engine) (CO := Examples.packages)
      (SpecReader (Decoded [])) Examples.strict_self
      (Examples.request (js "application/json") (js "0")) in
  outcome done =
    Return {| _body := true; body := empty_object;
              headers := headers (Examples.request (js "application/json") (js "0")) |} /\
  invokes_JSON_parse (trace done) = false /\
  existsb is_RegExpExec (trace done) = false /\
  next_errors (trace done) = [].
Proof.
  apply (proj2 (empty_body_gives_empty_object
                  Examples.engine Examples.packages Examples.strict_self));
    reflexivity.
Defined.

(** ** Bodies of line terminators *)

(** C9.  With [strict] on, a body that is not empty and holds line
    terminators only (a single newline, for one) makes the regular
    expression fail: [exec] gives [null], and [parseBody] throws the
    TypeError of reading index 1 of [null], as it is: no strict violation is
    reported, nothing is parsed, the error is not normalised.  The strings
    of line terminators are the only ones the expression fails on. *)
Theorem firstchar_null_on_line_terminators :
  forall (RT : Runtime) (self : Self) (body : jsstring),
    parsedStrict self = true ->
    body ≠ [] ->
    forallb is_line_terminator body = true ->
    exec_firstchar body = None /\
    parseBody self body =
      mkM [EvRegExpExec body] (Throw (new_error CTypeError null_index_message)) /\
    ctor (new_error CTypeError null_index_message) = CTypeError /\
    (forall other : jsstring,
       exec_firstchar other = None <-> forallb is_line_terminator other = true).
Proof.
  intros RT self body Hs Hne Hlt.
  assert (exec_firstchar body = None) as Hex by (apply exec_firstchar_None; exact Hlt).
  split; [exact Hex|]. split; [|split; [reflexivity|apply exec_firstchar_None]].
  rewrite (parseBody_strict self body Hne Hs), Hex. reflexivity.
Qed.

Lemma firstchar_null_on_line_terminators_witness :
  exec_firstchar [10] = None /\
  parseBody (RT := Examples.engine) Examples.strict_self [10] =
    mkM [EvRegExpExec [10]]
        (Throw (new_error (RT := Examples.engine) CTypeError
                  (js "Cannot read property '1' of null"))) /\
  ctor (new_error (RT := Examples.engine) CTypeError
          (js "Cannot read property '1' of null")) = CTypeError.
Proof.
  destruct (firstchar_null_on_line_terminators
              Examples.engine Examples.strict_self [10])
    as (H1 & H2 & H3 & _); [reflexivity|discriminate|reflexivity|].
  split; [exact H1|]. split; [exact H2|exact H3].
Defined.

(** ** Texts with an object or an array at the root *)

Lemma json_root_first_non_whitespace body :
  json_root_is_container body = true ->
  exists c, first_non_whitespace body = Some c /\
            (c =? ch "{") || (c =? ch "[") = true.
Proof.
  unfold json_root_is_container.
  destruct (first_json_char body) as [c|] eqn:E; [|discriminate].
  intros Hc. exists c. split; [|exact Hc].
  apply first_json_char_first_non_whitespace; [exact E|].
  apply container_char_not_whitespace, Hc.
Qed.

(** A body that opens with a brace or a bracket passes the strict check and
    is decoded. *)
Lemma parseBody_strict_container `{RT : Runtime} self body c :
  parsedStrict self = true ->
  first_non_whitespace body = Some c ->
  (c =? ch "{") || (c =? ch "[") = true ->
  parseBody self body =
    mkM (EvRegExpExec body :: trace (decode self body)) (outcome (decode self body)).
Proof.
  intros Hs Hf Hc.
  assert (body ≠ []) as Hne by (intros ->; discriminate).
  rewrite (parseBody_strict self body Hne Hs), (exec_firstchar_spec body c Hf).
  rewrite container_char_check, Hc. reflexivity.
Qed.

Module RefEngineFacts.
Import RefEngine.

Lemma skip_ws_head s pos : head (skip_ws s pos).1 = first_json_char s.
Proof.
  revert pos. induction s as [|c s IH]; intros pos; [reflexivity|].
  cbn [skip_ws first_json_char]. destruct (is_json_whitespace c); [apply IH|reflexivity].
Qed.

Lemma parse_number_not_container s pos v rest p :
  parse_number s pos = Ok v rest p -> is_container v = false.
Proof.
  unfold parse_number.
  repeat match goal with
         | |- context [let '(_, _) := ?x in _] => destruct x
         | |- context [match ?x with _ => _ end] => destruct x
         end; intros [= <- _ _] || discriminate; reflexivity.
Qed.

(** The parser gives an object or an array only for a text that opens
    with a brace or a bracket. *)
Lemma parse_value_container fuel s pos v rest p :
  parse_value fuel s pos = Ok v rest p ->
  is_container v = true ->
  json_root_is_container s = true.
Proof.
  destruct fuel as [|fuel]; [discriminate|].
  cbn [parse_value]. unfold json_root_is_container.
  rewrite <- (skip_ws_head s pos).
  destruct (skip_ws s pos) as [s' pos']. cbn [fst].
  destruct s' as [|c rest']; [discriminate|]. cbn [head].
  destruct (c =? ch "{"); [reflexivity|].
  destruct (c =? ch "["); [reflexivity|].
  intros H Hv. exfalso. revert H.
  repeat match goal with
         | |- context [if ?b then _ else _] => destruct b
         end;
    try (destruct (parse_string _ _ _); intros [= <- _ _] || discriminate; discriminate);
    try (destruct (expect _ _ _); intros [= <- _ _] || discriminate; discriminate);
    try (intros H; apply parse_number_not_container in H; congruence);
    try discriminate.
Qed.

Lemma parse_text_container text v rest p :
  parse_text text = Ok v rest p ->
  is_container v = true ->
  json_root_is_container text = true.
Proof.
  unfold parse_text.
  destruct (parse_value _ text 0) as [v' rest' p'|] eqn:E; [|discriminate].
  destruct (skip_ws rest' p') as [r q]. destruct r; [|discriminate].
  intros [= <- _ _]. eapply parse_value_container, E.
Qed.

(** What the reference parser returns when the reviver is not a function. *)
Lemma parse_without_reviver call text reviver v :
  is_function reviver = false ->
  parse call text reviver = Return v ->
  exists rest p, parse_text text = Ok v rest p.
Proof.
  intros Hr. unfold parse.
  destruct (parse_text text) as [v' rest p|]; [|discriminate].
  destruct reviver; try discriminate; intros [= <-]; eauto.
Qed.

Lemma parse_throws_syntax_errors call : throws_syntax_errors (runtime call).
Proof.
  intros text e. cbn. unfold parse.
  destruct (parse_text text); [discriminate|]. intros [= <-]. reflexivity.
Qed.
End RefEngineFacts.

(** Any encoding that the reference decoder maps back to an object or an
    array is parsed back to it. *)
Lemma parseBody_inverts_encoder
    (call : FunRef -> jsstring -> Value -> Value) (self : Self)
    (encode : Value -> jsstring) (v : Value) :
  parsedStrict self = true ->
  is_function (Opts.reviver (options self)) = false ->
  is_container v = true ->
  RefEngine.parse call (encode v) (Opts.reviver (options self)) = Return v ->
  parseBody (RT := RefEngine.runtime call) self (encode v) =
    mkM [EvRegExpExec (encode v); EvDebug "parse json";
         EvJSONParse (encode v) (Opts.reviver (options self))]
        (Return v).
Proof.
  intros Hs Hr Hv Hparse.
  destruct (RefEngineFacts.parse_without_reviver call _ _ _ Hr Hparse) as (rest & p & Ht).
  assert (json_root_is_container (encode v) = true) as Hroot
    by (eapply RefEngineFacts.parse_text_container; eassumption).
  destruct (json_root_first_non_whitespace _ Hroot) as (c & Hf & Hc).
  rewrite (parseBody_strict_container (RT := RefEngine.runtime call)
             self (encode v) c Hs Hf Hc).
  unfold decode. cbn [JSON_parse RefEngine.runtime]. rewrite Hparse. reflexivity.
Qed.

(** C1.  With [strict] on and any reviver, a body that is well-formed JSON
    with an object or an array at the root is decoded: [parseBody] returns
    the value the reference decoder [JSON.parse] returns for the body and the
    reviver, after one pass of the strict check and one call of the decoder.
    In particular the round trip: for every object or array of the JSON data
    model (null, booleans, finite numbers, strings, arrays, objects with
    distinct keys), parsing the text the reference encoder writes for it
    gives the value back. *)
Theorem strict_parse_agrees_with_reference_decoder :
  (forall (RT : Runtime) (self : Self) (body : jsstring) (v : Value),
     parsedStrict self = true ->
     json_root_is_container body = true ->
     JSON_parse body (Opts.reviver (options self)) = Return v ->
     parseBody self body =
       mkM [EvRegExpExec body; EvDebug "parse json";
            EvJSONParse body (Opts.reviver (options self))]
           (Return v)) /\
  (forall (call : FunRef -> jsstring -> Value -> Value) (self : Self) (v : Value),
     parsedStrict self = true ->
     is_function (Opts.reviver (options self)) = false ->
     is_container v = true ->
     json_value v = true ->
     parseBody (RT := RefEngine.runtime call) self (RefEngine.stringify v) =
       mkM [EvRegExpExec (RefEngine.stringify v); EvDebug "parse json";
            EvJSONParse (RefEngine.stringify v) (Opts.reviver (options self))]
           (Return v)).
Proof.
  split.
  - intros RT self body v Hs Hroot Hparse.
    destruct (json_root_first_non_whitespace body Hroot) as (c & Hf & Hc).
    rewrite (parseBody_strict_container self body c Hs Hf Hc).
    unfold decode. rewrite Hparse. reflexivity.
  - intros call self v Hs Hr Hv Hjson.
    apply (parseBody_inverts_encoder call self RefEngine.stringify v Hs Hr Hv).
    apply RoundTripFacts.parse_stringify; assumption.
Qed.

Lemma strict_parse_agrees_with_reference_decoder_witness :
  parseBody (RT := Examples.engine) Examples.strict_self (js "{}") =
    mkM [EvRegExpExec (js "{}"); EvDebug "parse json"; EvJSONParse (js "{}") VUndefined]
        (Return (VObj [])) /\
  outcome (parseBody (RT := Examples.engine) Examples.strict_self
             (RefEngine.stringify Examples.sample)) = Return Examples.sample.
Proof.
  split.
  - apply (proj1 strict_parse_agrees_with_reference_decoder
             Examples.engine Examples.strict_self (js "{}") (VObj []));
      reflexivity.
  - apply (f_equal outcome
             (proj2 strict_parse_agrees_with_reference_decoder
                Examples.call Examples.strict_self Examples.sample
                eq_refl eq_refl eq_refl eq_refl)).
Defined.

(** ** Strict violations *)

Section StrictViolation.
Context `{RT : Runtime}.

Lemma parseBody_strict_violation self body c :
  parsedStrict self = true ->
  first_non_whitespace body = Some c ->
  (c =? ch "{") || (c =? ch "[") = false ->
  parseBody self body =
    mkM [EvRegExpExec body; EvDebug "strict violation";
         EvJSONParse (leading_whitespace body ++ js "#") VUndefined]
        (Throw (strict_error body [c])).
Proof.
  intros Hs Hf Hc.
  assert (body ≠ []) as Hne by (intros ->; discriminate).
  rewrite (parseBody_strict self body Hne Hs), (exec_firstchar_spec body c Hf).
  rewrite container_char_check, Hc, (strict_partial body c Hf). reflexivity.
Qed.

Lemma strict_error_ctor body char :
  throws_syntax_errors RT -> ctor (strict_error body char) = CSyntaxError.
Proof.
  intros Hlaw. unfold strict_error.
  destruct (normalize_fields (native_error body char)
              {| obj_message := replace (message (native_error body char)) (js "#") char;
                 obj_stack := stack (native_error body char) |}) as (-> & _).
  unfold native_error.
  destruct (JSON_parse _ VUndefined) eqn:E; [reflexivity|]. eapply Hlaw, E.
Qed.

(** What the reader does with an error of the parse callback. *)
Lemma SpecReader_parse_error req (parse : jsstring -> M Value) opts text e :
  outcome (parse text) = Throw e ->
  SpecReader (Decoded text) req parse opts =
    mkM (trace (parse text) ++ [EvNext (Some (parse_failed e text))]) (Return req).
Proof.
  intros H. unfold SpecReader. rewrite H. reflexivity.
Qed.

Lemma parse_failed_shape e text :
  message (parse_failed e text) = message e /\
  stack (parse_failed e text) = stack e /\
  extra (parse_failed e text) !! "type"%string = Some (VStr (js "entity.parse.failed")) /\
  extra (parse_failed e text) !! "status"%string = Some (VNum (Dec false 400 0)) /\
  extra (parse_failed e text) !! "body"%string = Some (VStr text).
Proof.
  unfold parse_failed. cbn [message stack extra].
  repeat split; by simplify_map_eq.
Qed.
End StrictViolation.

(** C2, as the code has it.  With [strict] on, a body whose first character
    that is not white space is neither a brace nor a bracket is never
    decoded: [parseBody] throws the strict-violation error right after the
    check, the debug line [parse json] and the call [JSON.parse(body,
    reviver)] are not reached, and the reader reports the error as kind
    [entity.parse.failed] with status 400.  The parser is called once all the
    same, without reviver, on the white space before the character followed
    by the placeholder, to make the error; when the runtime throws syntax
    errors only, the error is a SyntaxError.  With [strict] off the body is
    decoded, and a body that is a JSON scalar gives the scalar the decoder
    returns. *)
Theorem strict_violation_precedes_decoding :
  forall (RT : Runtime) (self : Self) (body : jsstring) (c : N),
    first_non_whitespace body = Some c ->
    (c =? ch "{") || (c =? ch "[") = false ->
    (parsedStrict self = true ->
       parseBody self body =
         mkM [EvRegExpExec body; EvDebug "strict violation";
              EvJSONParse (leading_whitespace body ++ js "#") VUndefined]
             (Throw (strict_error body [c])) /\
       decodes_body (trace (parseBody self body)) = false /\
       (throws_syntax_errors RT -> ctor (strict_error body [c]) = CSyntaxError) /\
       forall req opts,
         next_errors (trace (SpecReader (Decoded body) req (parseBody self) opts)) =
           [parse_failed (strict_error body [c]) body] /\
         extra (parse_failed (strict_error body [c]) body) !! "type"%string =
           Some (VStr (js "entity.parse.failed")) /\
         extra (parse_failed (strict_error body [c]) body) !! "status"%string =
           Some (VNum (Dec false 400 0))) /\
    (parsedStrict self = false ->
       forall v : Value,
         JSON_parse body (Opts.reviver (options self)) = Return v ->
         parseBody self body =
           mkM [EvDebug "parse json"; EvJSONParse body (Opts.reviver (options self))]
               (Return v)).
Proof.
  intros RT self body c Hf Hc.
  assert (body ≠ []) as Hne by (intros ->; discriminate).
  split.
  - intros Hs. pose proof (parseBody_strict_violation self body c Hs Hf Hc) as Hp.
    split; [exact Hp|]. split; [rewrite Hp; reflexivity|].
    split; [apply strict_error_ctor|].
    intros req opts.
    rewrite (SpecReader_parse_error req (parseBody self) opts body (strict_error body [c]))
      by (rewrite Hp; reflexivity).
    rewrite Hp. cbn [trace app next_errors omap].
    destruct (parse_failed_shape (strict_error body [c]) body) as (_ & _ & Ht & Hst & _).
    repeat split; assumption.
  - intros Hs v Hv. rewrite (parseBody_nonstrict self body Hne Hs).
    unfold decode. rewrite Hv. reflexivity.
Qed.

Lemma strict_violation_precedes_decoding_witness :
  decodes_body (trace (parseBody (RT := Examples.engine) Examples.strict_self (js "42")))
    = false /\
  parseBody (RT := Examples.engine) Examples.loose_self (js "42") =
    mkM [EvDebug "parse json"; EvJSONParse (js "42") VUndefined]
        (Return (VNum (Dec false 42 0))).
Proof.
  pose proof (strict_violation_precedes_decoding
                Examples.engine Examples.strict_self (js "42") (ch "4")
                eq_refl eq_refl) as Hstrict.
  pose proof (strict_violation_precedes_decoding
                Examples.engine Examples.loose_self (js "42") (ch "4")
                eq_refl eq_refl) as Hloose.
  split.
  - exact (proj1 (proj2 (proj1 Hstrict eq_refl))).
  - exact (proj2 Hloose eq_refl (VNum (Dec false 42 0)) eq_refl).
Defined.

(** C2 as stated does not hold: on the scalar body [42] with [strict] on,
    the strict violation is reported after a call of [JSON.parse]. *)
Lemma strict_violation_calls_parser :
  parsedStrict Examples.strict_self = true /\
  first_non_whitespace (js "42") = Some (ch "4") /\
  trace (parseBody (RT := Examples.engine) Examples.strict_self (js "42")) =
    [EvRegExpExec (js "42"); EvDebug "strict violation"; EvJSONParse (js "#") VUndefined] /\
  invokes_JSON_parse
    (trace (parseBody (RT := Examples.engine) Examples.strict_self (js "42"))) = true.
Proof.
  repeat split; reflexivity.
Qed.

(** ** The message of a strict violation *)

Module StrictMessage.
Import RefEngine.

Lemma skip_ws_app ws rest pos :
  forallb is_json_whitespace ws = true ->
  skip_ws (ws ++ rest) pos = skip_ws rest (pos + N.of_nat (length ws)).
Proof.
  revert pos. induction ws as [|a ws IH]; intros pos Hws.
  - cbn. f_equal. lia.
  - cbn in Hws. apply andb_true_iff in Hws as [Ha Hws].
    cbn [app skip_ws]. rewrite Ha, (IH _ Hws). f_equal. cbn [length]. lia.
Qed.

(** The parser stops at the placeholder that follows JSON white space. *)
Lemma parse_text_placeholder ws :
  forallb is_json_whitespace ws = true ->
  parse_text (ws ++ js "#") = Bad (N.of_nat (length ws)) (Some (ch "#")).
Proof.
  intros Hws. unfold parse_text.
  replace (2 * length (ws ++ js "#") + 2)%nat
    with (S (2 * length (ws ++ js "#") + 1)) by lia.
  cbn [parse_value]. rewrite (skip_ws_app ws (js "#") 0 Hws). cbn.
  reflexivity.
Qed.

Lemma placeholder_message pos :
  syntax_message pos (Some (ch "#")) =
    js "Unexpected token " ++ js "#" ++ js " in JSON at position " ++ decimal pos.
Proof. reflexivity. Qed.

(** Putting the offending character in the place of the placeholder. *)
Lemma replace_placeholder c tail :
  replace (js "Unexpected token " ++ js "#" ++ tail) (js "#") [c] =
    js "Unexpected token " ++ [c] ++ tail.
Proof.
  unfold replace. cbn -[GetSubstitution]. rewrite GetSubstitution_single.
  reflexivity.
Qed.
End StrictMessage.

(** ** The gate of the handler *)

Section Gate.
Context `{RT : Runtime} `{CO : Collaborators}.
Context (Reader : Request -> (jsstring -> M Value) -> ReaderOptions -> M Request).


Lemma createReader_already_parsed self req :
  _body req = true ->
  createReader Reader self req =
    mkM [EvDebug "body already parsed"; EvNext None] (Return (with_default_body req)).
Proof.
  intros Hb. unfold createReader, checkParse.
  change (_body (with_default_body req)) with (_body req). rewrite Hb. reflexivity.
Qed.

Lemma createReader_no_body self req :
  _body req = false ->
  hasBody (with_default_body req) = false ->
  createReader Reader self req =
    mkM [EvHasBody; EvDebug "skip empty body"; EvNext None]
        (Return (with_default_body req)).
Proof.
  intros Hb Hh. unfold createReader, checkParse.
  change (_body (with_default_body req)) with (_body req). rewrite Hb, Hh. reflexivity.
Qed.

Lemma createReader_type_mismatch self req :
  _body req = false ->
  hasBody (with_default_body req) = true ->
  shouldParse self (with_default_body req) = false ->
  createReader Reader self req =
    mkM [EvHasBody;
         EvDebugHeader "content-type %j" (headers req !! "content-type"%string);
         EvShouldParse; EvDebug "skip parsing"; EvNext None]
        (Return (with_default_body req)).
Proof.
  intros Hb Hh Hs. unfold createReader, checkParse.
  change (_body (with_default_body req)) with (_body req). rewrite Hb, Hh, Hs.
  reflexivity.
Qed.

Lemma createReader_bad_charset self req :
  _body req = false ->
  hasBody (with_default_body req) = true ->
  shouldParse self (with_default_body req) = true ->
  substr (resolve_charset (with_default_body req)) 0 4 ≠ js "utf-" ->
  createReader Reader self req =
    mkM [EvHasBody;
         EvDebugHeader "content-type %j" (headers req !! "content-type"%string);
         EvShouldParse; EvDebug "invalid charset";
         EvNext (Some (charset_error (resolve_charset (with_default_body req))))]
        (Return (with_default_body req)).
Proof.
  intros Hb Hh Hs Hc. unfold createReader, checkParse.
  change (_body (with_default_body req)) with (_body req). rewrite Hb, Hh, Hs.
  unfold jsstring_eqb. rewrite bool_decide_eq_false_2 by exact Hc. reflexivity.
Qed.

Lemma createReader_reads self req :
  _body req = false ->
  hasBody (with_default_body req) = true ->
  shouldParse self (with_default_body req) = true ->
  substr (resolve_charset (with_default_body req)) 0 4 = js "utf-" ->
  let opts :=
    {| encoding := resolve_charset (with_default_body req);
       inflate := parsedInflate self; limit := parsedLimit self;
       verify := parsedVerify self |} in
  let read := Reader (with_default_body req) (parseBody self) opts in
  createReader Reader self req =
    mkM ([EvHasBody;
          EvDebugHeader "content-type %j" (headers req !! "content-type"%string);
          EvShouldParse; EvReader opts] ++ trace read)
        (outcome read).
Proof.
  intros Hb Hh Hs Hc. unfold createReader, checkParse.
  change (_body (with_default_body req)) with (_body req). rewrite Hb, Hh, Hs, Hc.
  cbn. destruct (outcome (Reader _ _ _)); reflexivity.
Qed.

Lemma charset_error_shape charset :
  message (charset_error charset) =
    js "unsupported charset " ++ [34] ++ toUpperCase charset ++ [34] /\
  extra (charset_error charset) !! "status"%string = Some (VNum (Dec false 415 0)) /\
  extra (charset_error charset) !! "type"%string = Some (VStr (js "charset.unsupported")) /\
  extra (charset_error charset) !! "charset"%string = Some (VStr charset).
Proof.
  unfold charset_error, createError. cbn [message extra].
  repeat split; by simplify_map_eq.
Qed.

Lemma resolve_charset_declared req mt sent :
  contentType_parse req = Some mt ->
  parameters mt !! "charset"%string = Some sent ->
  toLowerCase sent ≠ [] ->
resolve_charset req = toLowerCase sent.
Proof.
intros Hp Hs Hne. unfold resolve_charset, getCharset. rewrite Hp, Hs.
cbn [default from_option id]. destruct (toLowerCase sent); [done|reflexivity].
Qed.

Lemma resolve_charset_default req :
    (contentType_parse req = None \/
   exists mt, contentType_parse req = Some mt /\
              toLowerCase (default [] (parameters mt !! "charset"%string)) = []) ->
  resolve_charset req = js "utf-8".
Proof.
  unfold resolve_charset, getCharset.
  intros [->|(mt & -> & ->)]; reflexivity.
Qed.
End Gate.




(** ** Unsupported charsets *)

(** C4, as the code has it.  The charset is the [charset] parameter of the
    content type in lower case, and [utf-8] when the header is absent, cannot
    be parsed or declares none.  For a request that reaches the charset check
    (not parsed yet, with a body, of a matching type), a charset that does
    not start with [utf-] ends the handler with [next(err)], where [err] has
    status 415, kind [charset.unsupported] and, as its [charset], the charset
    in lower case; the reader is not called and nothing is parsed. *)
Theorem unsupported_charset_is_rejected :
  forall (RT : Runtime) (CO : Collaborators)
         (Reader : Request -> (jsstring -> M Value) -> ReaderOptions -> M Request)
         (self : Self) (req : Request),
    let req' := with_default_body req in
    let charset := resolve_charset req' in
    (forall mt sent,
       contentType_parse req' = Some mt ->
       parameters mt !! "charset"%string = Some sent ->
              toLowerCase sent ≠ [] ->
       charset = toLowerCase sent) /\
    ((contentType_parse req' = None \/
      exists mt, contentType_parse req' = Some mt /\
                 toLowerCase (default [] (parameters mt !! "charset"%string)) = []) ->
     charset = js "utf-8") /\
    (_body req = false -> hasBody req' = true -> shouldParse self req' = true ->
     substr charset 0 4 ≠ js "utf-" ->
     exists err : JsError,
       createReader Reader self req =
         mkM [EvHasBody;
              EvDebugHeader "content-type %j" (headers req !! "content-type"%string);
              EvShouldParse; EvDebug "invalid charset"; EvNext (Some err)]
             (Return req') /\
       message err = js "unsupported charset " ++ [34] ++ toUpperCase charset ++ [34] /\
       extra err !! "status"%string = Some (VNum (Dec false 415 0)) /\
       extra err !! "type"%string = Some (VStr (js "charset.unsupported")) /\
       extra err !! "charset"%string = Some (VStr charset)).
Proof.
  intros RT CO Reader self req req' charset.
  split; [apply resolve_charset_declared|].
  split; [apply resolve_charset_default|].
  intros Hb Hh Hs Hc. exists (charset_error charset).
  split; [apply createReader_bad_charset; assumption|].
  apply charset_error_shape.
Qed.

Lemma unsupported_charset_is_rejected_witness :
  let req := Examples.request (js "application/json; charset=iso-8859-1") (js "2") in
  exists err : JsError,
    createReader (RT := Examples.engine) (CO := Examples.packages)
        (SpecReader (Decoded (js "{}"))) Examples.strict_self req =
      mkM [EvHasBody;
           EvDebugHeader "content-type %j" (Some (js "application/json; charset=iso-8859-1"));
           EvShouldParse; EvDebug "invalid charset"; EvNext (Some err)]
          (Return (set_body empty_object req)) /\
    message err = js "unsupported charset " ++ [34] ++ js "ISO-8859-1" ++ [34] /\
    extra err !! "status"%string = Some (VNum (Dec false 415 0)) /\
    extra err !! "type"%string = Some (VStr (js "charset.unsupported")) /\
    extra err !! "charset"%string = Some (VStr (js "iso-8859-1")).
Proof.
  intros req.
  apply (proj2 (proj2 (unsupported_charset_is_rejected
                         Examples.engine Examples.packages
                         (SpecReader (Decoded (js "{}"))) Examples.strict_self req)));
    [reflexivity|reflexivity|reflexivity|discriminate].
Defined.

(** C4 as stated does not hold.  The charset sent as [ISO-8859-1] is
    reported in lower case, not as it was sent; and a request without a body
    that declares [iso-8859-1] is not rejected at all. *)
Lemma charset_is_reported_in_lower_case :
  let req := Examples.request (js "application/json; charset=ISO-8859-1") (js "2") in
  let bodyless := Examples.bodyless_request (js "application/json; charset=iso-8859-1") in
  (exists mt,
     contentType_parse (Collaborators := Examples.packages) req = Some mt /\
     parameters mt !! "charset"%string = Some (js "ISO-8859-1")) /\
  (exists err : JsError,
     next_errors
       (trace (createReader (RT := Examples.engine) (CO := Examples.packages)
                 (SpecReader (Decoded (js "{}"))) Examples.strict_self req)) = [err] /\
     extra err !! "charset"%string = Some (VStr (js "iso-8859-1")) /\
     extra err !! "charset"%string <> Some (VStr (js "ISO-8859-1"))) /\
  resolve_charset (RT := Examples.engine) (CO := Examples.packages)
    (with_default_body bodyless) = js "iso-8859-1" /\
  next_errors
    (trace (createReader (RT := Examples.engine) (CO := Examples.packages)
              (SpecReader (Decoded (js "{}"))) Examples.strict_self bodyless)) = [].
Proof.
  intros req bodyless. split; [|split; [|split]].
  - eexists. split; reflexivity.
  - eexists. split; [reflexivity|]. split; [reflexivity|discriminate].
  - reflexivity.
  - reflexivity.
Qed.

(** ** The constructor *)

Section Constructor.
Context `{RT : Runtime} `{CO : Collaborators}.

Lemma truthy_is_not_false v : ToBoolean v = true -> strict_neq_false v = true.
Proof. destruct v as [| |[]| | | | |]; cbn; congruence. Qed.

(** The constructor throws exactly for a [verify] that is truthy and not a
    function. *)
Lemma JsonParser_opts_verify options :
  let verify := Opts.verify (default Opts.empty options) in
  match JsonParser_opts options with
  | Throw e =>
      ToBoolean verify = true /\ is_function verify = false /\
      e = new_error CTypeError (js "option verify must be function")
  | Return self =>
      (ToBoolean verify = false \/ is_function verify = true) /\
      parsedVerify self = js_or verify (VBool false)
  end.
Proof.
  intros verify. unfold JsonParser_opts, js_or. fold verify.
  destruct (ToBoolean verify) eqn:Ht.
  - rewrite (truthy_is_not_false verify Ht). cbn [andb].
    destruct (is_function verify) eqn:Hf; cbn [negb].
    + split; [right; reflexivity|reflexivity].
    + repeat split.
  - cbn [strict_neq_false andb]. split; [left; reflexivity|reflexivity].
Qed.
End Constructor.

(** C8, as the code has it.  Construction throws the TypeError [option
    verify must be function], before any handler exists, exactly when
    [verify] is truthy and not a function.  It succeeds when [verify] is a
    function and when it is falsy: absent, [false], but also [null], [0],
    [NaN] and the empty string, which are all taken as [false]. *)
Theorem verify_is_checked_at_construction :
  forall (RT : Runtime) (CO : Collaborators)
         (Reader : Request -> (jsstring -> M Value) -> ReaderOptions -> M Request)
         (options : option Opts.t),
    let verify := Opts.verify (default Opts.empty options) in
    (ToBoolean verify = true -> is_function verify = false ->
       JsonParser Reader options =
         Throw (new_error CTypeError (js "option verify must be function")) /\
       ctor (new_error CTypeError (js "option verify must be function")) = CTypeError) /\
    (ToBoolean verify = false \/ is_function verify = true ->
       exists self : Self,
         JsonParser_opts options = Return self /\
         JsonParser Reader options = Return (createReader Reader self) /\
         parsedVerify self = js_or verify (VBool false)).
Proof.
  intros RT CO Reader options verify.
  pose proof (JsonParser_opts_verify options) as H. cbn zeta in H. fold verify in H.
  unfold JsonParser. destruct (JsonParser_opts options) as [self|e].
  - destruct H as [Hok Hv]. split.
    + intros Ht Hf. destruct Hok as [Hok|Hok]; congruence.
    + intros _. exists self. repeat split. exact Hv.
  - destruct H as (Ht & Hf & ->). split.
    + intros _ _. split; reflexivity.
    + intros [Hok|Hok]; congruence.
Qed.

Lemma verify_is_checked_at_construction_witness :
  JsonParser (RT := Examples.engine) (CO := Examples.packages)
      (SpecReader (Decoded (js "{}")))
      (Some (with_verify (VStr (js "yes")) Opts.empty)) =
    Throw (new_error (RT := Examples.engine) CTypeError
             (js "option verify must be function")) /\
  (exists self : Self,
     JsonParser_opts (RT := Examples.engine) (CO := Examples.packages)
       (Some (with_verify (VFun 7) Opts.empty)) = Return self /\
     parsedVerify self = VFun 7) /\
  (exists self : Self,
     JsonParser_opts (RT := Examples.engine) (CO := Examples.packages) None = Return self /\
     parsedVerify self = VBool false).
Proof.
  destruct (verify_is_checked_at_construction
              Examples.engine Examples.packages (SpecReader (Decoded (js "{}")))
              (Some (with_verify (VStr (js "yes")) Opts.empty))) as [H1 _].
  destruct (verify_is_checked_at_construction
              Examples.engine Examples.packages (SpecReader (Decoded (js "{}")))
              (Some (with_verify (VFun 7) Opts.empty))) as [_ H2].
  destruct (verify_is_checked_at_construction
              Examples.engine Examples.packages (SpecReader (Decoded (js "{}")))
              None) as [_ H3].
  split; [|split].
  - apply H1; reflexivity.
  - destruct H2 as (self & Hs & _ & Hv); [right; reflexivity|].
    exists self. split; [exact Hs|exact Hv].
  - destruct H3 as (self & Hs & _ & Hv); [left; reflexivity|].
    exists self. split; [exact Hs|exact Hv].
Defined.

(** C8 as stated does not hold: [verify] given as the number 0, as [null] or
    as the empty string is provided and is not callable, and construction
    succeeds, with [verify] taken as [false]. *)
Lemma falsy_verify_is_accepted :
  let accepted (v : Value) :=
    is_function v = false /\
    exists self : Self,
      JsonParser_opts (RT := Examples.engine) (CO := Examples.packages)
        (Some (with_verify v Opts.empty)) = Return self /\
      parsedVerify self = VBool false /\
      JsonParser (RT := Examples.engine) (CO := Examples.packages)
        (SpecReader (Decoded (js "{}"))) (Some (with_verify v Opts.empty)) =
        Return (createReader (RT := Examples.engine) (CO := Examples.packages)
                  (SpecReader (Decoded (js "{}"))) self) in
  accepted (VNum (Dec false 0 0)) /\ accepted VNull /\ accepted (VStr []).
Proof.
  cbv zeta. repeat split;
    eexists; (split; [reflexivity|]); split; reflexivity.
Qed.

(** C10.  [strict] and [inflate] are switched off by the boolean [false],
    and by nothing else.  Whenever the construction succeeds, the constructor
    keeps [false] for the option exactly when the option is given as
    [false]: then the check, respectively the inflation, is off.  With any
    other value, the falsy [0], [null] and empty string included, it keeps
    [true], and the middleware it makes is the one it makes for [true]: both
    constructions throw the same error, or both give handlers that do the
    same on every request. *)
Theorem strict_and_inflate_disabled_only_by_false :
  forall (RT : Runtime) (CO : Collaborators)
         (Reader : Request -> (jsstring -> M Value) -> ReaderOptions -> M Request)
         (o : Opts.t) (v : Value),
    (forall self, JsonParser_opts (Some (with_strict v o)) = Return self ->
                  (parsedStrict self = false <-> v = VBool false) /\
                  JsonParser Reader (Some (with_strict v o)) =
                    Return (createReader Reader self)) /\
    (forall self, JsonParser_opts (Some (with_inflate v o)) = Return self ->
                  (parsedInflate self = false <-> v = VBool false) /\
                  JsonParser Reader (Some (with_inflate v o)) =
                    Return (createReader Reader self)) /\
    (v <> VBool false ->
       same_middleware (JsonParser Reader (Some (with_strict v o)))
                       (JsonParser Reader (Some (with_strict (VBool true) o))) /\
       same_middleware (JsonParser Reader (Some (with_inflate v o)))
                       (JsonParser Reader (Some (with_inflate (VBool true) o)))).
Proof.
  intros RT CO Reader o v.
  assert (strict_neq_false v = false <-> v = VBool false) as Hoff.
  { destruct v as [| |[]| | | | |]; cbn; split; congruence. }
  split; [|split].
  - intros self Hself. unfold JsonParser. rewrite Hself. split; [|reflexivity].
    revert Hself. unfold JsonParser_opts.
    cbn [default id with_strict Opts.limit Opts.inflate Opts.strict
         Opts.type Opts.verify Opts.reviver].
    destruct (strict_neq_false (js_or (Opts.verify o) (VBool false)) &&
              negb (is_function (js_or (Opts.verify o) (VBool false))));
      [discriminate|].
    intros [= <-]. cbn [parsedStrict]. exact Hoff.
  - intros self Hself. unfold JsonParser. rewrite Hself. split; [|reflexivity].
    revert Hself. unfold JsonParser_opts.
    cbn [default id with_inflate Opts.limit Opts.inflate Opts.strict
         Opts.type Opts.verify Opts.reviver].
    destruct (strict_neq_false (js_or (Opts.verify o) (VBool false)) &&
              negb (is_function (js_or (Opts.verify o) (VBool false))));
      [discriminate|].
    intros [= <-]. cbn [parsedInflate]. exact Hoff.
  - intros Hv.
    assert (strict_neq_false v = true) as Htrue.
    { destruct (strict_neq_false v); [reflexivity|].
      exfalso. apply Hv, Hoff. reflexivity. }
    unfold same_middleware, JsonParser, JsonParser_opts.
    cbn [default id with_strict with_inflate Opts.limit Opts.inflate Opts.strict
         Opts.type Opts.verify Opts.reviver].
    rewrite Htrue.
    destruct (strict_neq_false (js_or (Opts.verify o) (VBool false)) &&
              negb (is_function (js_or (Opts.verify o) (VBool false))));
      split; try reflexivity; intros req; reflexivity.
Qed.

Lemma strict_and_inflate_disabled_only_by_false_witness :
  (exists self : Self,
     JsonParser_opts (RT := Examples.engine) (CO := Examples.packages)
       (Some (with_strict (VBool false) Opts.empty)) = Return self /\
     parsedStrict self = false /\ parsedInflate self = true) /\
  (exists self : Self,
     JsonParser_opts (RT := Examples.engine) (CO := Examples.packages)
       (Some (with_inflate (VBool false) Opts.empty)) = Return self /\
     parsedInflate self = false /\ parsedStrict self = true) /\
  same_middleware
    (JsonParser (RT := Examples.engine) (CO := Examples.packages)
       (SpecReader (Decoded (js "42"))) (Some (with_strict (VNum (Dec false 0 0)) Opts.empty)))
    (JsonParser (RT := Examples.engine) (CO := Examples.packages)
       (SpecReader (Decoded (js "42"))) (Some (with_strict (VBool true) Opts.empty))) /\
  same_middleware
    (JsonParser (RT := Examples.engine) (CO := Examples.packages)
       (SpecReader (Decoded (js "42"))) (Some (with_inflate VNull Opts.empty)))
    (JsonParser (RT := Examples.engine) (CO := Examples.packages)
       (SpecReader (Decoded (js "42"))) (Some (with_inflate (VBool true) Opts.empty))).
Proof.
  split; [|split; [|split]].
  - eexists. split; [reflexivity|]. split; [|reflexivity].
    apply (proj1 (strict_and_inflate_disabled_only_by_false
                    Examples.engine Examples.packages (SpecReader (Decoded (js "42")))
                    Opts.empty (VBool false)) _ eq_refl).
    reflexivity.
  - eexists. split; [reflexivity|]. split; [|reflexivity].
    apply (proj1 (proj2 (strict_and_inflate_disabled_only_by_false
                           Examples.engine Examples.packages
                           (SpecReader (Decoded (js "42")))
                           Opts.empty (VBool false))) _ eq_refl).
    reflexivity.
  - apply (proj2 (proj2 (strict_and_inflate_disabled_only_by_false
                           Examples.engine Examples.packages
                           (SpecReader (Decoded (js "42")))
                           Opts.empty (VNum (Dec false 0 0))))).
    discriminate.
  - apply (proj2 (proj2 (strict_and_inflate_disabled_only_by_false
                           Examples.engine Examples.packages
                           (SpecReader (Decoded (js "42")))
                           Opts.empty VNull))).
    discriminate.
Defined.

(** * Further properties of [lib/json.js] *)

(** ** The first character *)

Lemma last_dot_char_elem s d :
  last_dot_char s = Some d -> d ∈ s /\ is_line_terminator d = false.
Proof.
  induction s as [|c rest IH]; [discriminate|].
  cbn [last_dot_char]. destruct (last_dot_char rest) as [d'|].
  - intros [= ->]. destruct (IH eq_refl) as [Hin Hlt].
    split; [by apply list_elem_of_further|exact Hlt].
  - destruct (is_line_terminator c) eqn:Hc; [discriminate|].
    intros [= ->]. split; [apply list_elem_of_here|exact Hc].
Qed.

Lemma exec_firstchar_capture s :
  option_map snd (exec_firstchar s) =
    match first_non_whitespace s with
    | Some c => Some [c]
    | None => option_map (fun d => [d]) (last_dot_char s)
    end.
Proof.
  induction s as [|c rest IH]; [reflexivity|].
  cbn [exec_firstchar first_non_whitespace last_dot_char].
  destruct (is_whitespace c) eqn:Hws.
  - destruct (exec_firstchar rest) as [[whole cap]|].
    + cbn [option_map snd] in *.
      destruct (first_non_whitespace rest); [exact IH|].
      destruct (last_dot_char rest); [exact IH|discriminate].
    + cbn [option_map] in IH.
      destruct (first_non_whitespace rest); [discriminate|].
      destruct (last_dot_char rest); [discriminate|].
      cbn [match_dot]. destruct (is_line_terminator c); reflexivity.
  - cbn [match_dot].
    destruct (is_line_terminator c) eqn:Hlt; [|reflexivity].
    rewrite (line_terminator_is_whitespace c Hlt) in Hws. discriminate.
Qed.

(** X1.  [firstchar] runs the regular expression once and returns the first
    character of the text that is not white space.  On a text of white space
    only, the expression backtracks and the character returned is the last
    one that is not a line terminator, a white space character; when there
    is none (the empty text included), reading index 1 of [null] throws the
    TypeError. *)
Theorem firstchar_returns_first_character :
  forall (RT : Runtime) (str : jsstring),
    firstchar str =
      mkM [EvRegExpExec str]
        match first_non_whitespace str with
        | Some c => Return [c]
        | None =>
            match last_dot_char str with
            | Some d => Return [d]
            | None => Throw (new_error CTypeError null_index_message)
            end
        end.
Proof.
  intros RT str. unfold firstchar.
  pose proof (exec_firstchar_capture str) as H.
  destruct (exec_firstchar str) as [[whole cap]|]; cbn [option_map snd] in H.
  - destruct (first_non_whitespace str).
    + injection H as ->. reflexivity.
    + destruct (last_dot_char str); [|discriminate].
      injection H as ->. reflexivity.
  - destruct (first_non_whitespace str); [discriminate|].
    destruct (last_dot_char str); [discriminate|]. reflexivity.
Qed.

(** ** Bodies of white space *)

Lemma first_non_whitespace_None s c :
  first_non_whitespace s = None -> c ∈ s -> is_whitespace c = true.
Proof.
  induction s as [|a s IH]; intros Hf Hin; [by apply elem_of_nil in Hin|].
  cbn [first_non_whitespace] in Hf.
  destruct (is_whitespace a) eqn:Ha; [|discriminate].
  apply elem_of_cons in Hin as [->|Hin]; [exact Ha|by apply IH].
Qed.

Lemma before_first_split d s :
  d ∈ s -> exists rest, s = before_first d s ++ d :: rest.
Proof.
  induction s as [|c s IH]; intros Hin; [by apply elem_of_nil in Hin|].
  cbn [before_first]. destruct (N.eqb_spec c d) as [->|Hne].
  - exists s. reflexivity.
  - apply elem_of_cons in Hin as [->|Hin]; [done|].
    destruct (IH Hin) as (rest & Hs). exists rest. cbn [app]. by f_equal.
Qed.

Lemma indexOf_from_before_first i d s :
  d ∈ s -> indexOf_from i s [d] = (i + Z.of_nat (length (before_first d s)))%Z.
Proof.
  revert i. induction s as [|c s IH]; intros i Hin; [by apply elem_of_nil in Hin|].
  cbn [indexOf_from is_prefix before_first]. rewrite (N.eqb_sym d c).
  destruct (N.eqb_spec c d) as [->|Hne]; cbn [andb length]; [lia|].
  apply elem_of_cons in Hin as [->|Hin]; [done|].
  rewrite (IH _ Hin). lia.
Qed.

(** The text cut before the first occurrence of a character it holds. *)
Lemma substring_before_first d s :
  d ∈ s -> substring s 0 (indexOf s [d]) = before_first d s.
Proof.
  intros Hin. unfold indexOf. rewrite (indexOf_from_before_first 0 d s Hin), Z.add_0_l.
  destruct (before_first_split d s Hin) as (rest & Hs).
  rewrite Hs at 1. apply substring_prefix.
Qed.

Lemma parseBody_whitespace_body `{RT : Runtime} self body d :
  parsedStrict self = true ->
  first_non_whitespace body = None ->
  last_dot_char body = Some d ->
  is_whitespace d = true /\
  parseBody self body =
    mkM [EvRegExpExec body; EvDebug "strict violation";
         EvJSONParse (before_first d body ++ js "#") VUndefined]
        (Throw (strict_error body [d])).
Proof.
  intros Hs Hf Hd.
  destruct (last_dot_char_elem body d Hd) as [Hin _].
  assert (is_whitespace d = true) as Hws
    by (eapply first_non_whitespace_None; eassumption).
  split; [exact Hws|].
  assert (body ≠ []) as Hne by (intros ->; discriminate).
  rewrite (parseBody_strict self body Hne Hs).
  pose proof (exec_firstchar_capture body) as Hcap. rewrite Hf, Hd in Hcap.
  destruct (exec_firstchar body) as [[whole cap]|]; [|discriminate].
  injection Hcap as ->.
  rewrite container_char_check.
  destruct ((d =? ch "{") || (d =? ch "[")) eqn:Hc.
  - apply container_char_not_whitespace in Hc. congruence.
  - cbn [negb]. rewrite (substring_before_first d body Hin). reflexivity.
Qed.

(** X2.  With [strict] on, a body of white space only that holds a character
    other than a line terminator (a body of spaces, for one) is a strict
    violation.  The offending character is the white space character that
    the regular expression gives back last; the text handed to the parser
    for the diagnosis is the body cut before the first occurrence of that
    character, closed with the placeholder; the body itself is not
    decoded. *)
Theorem whitespace_body_is_strict_violation :
  forall (RT : Runtime) (self : Self) (body : jsstring) (d : N),
    parsedStrict self = true ->
    first_non_whitespace body = None ->
    last_dot_char body = Some d ->
    is_whitespace d = true /\
    parseBody self body =
      mkM [EvRegExpExec body; EvDebug "strict violation";
           EvJSONParse (before_first d body ++ js "#") VUndefined]
          (Throw (strict_error body [d])).
Proof.
  intros RT self body d. apply parseBody_whitespace_body.
Qed.

Lemma whitespace_body_is_strict_violation_witness :
  is_whitespace 32 = true /\
  parseBody (RT := Examples.engine) Examples.strict_self (js "   ") =
    mkM [EvRegExpExec (js "   "); EvDebug "strict violation";
         EvJSONParse (js "#") VUndefined]
        (Throw (strict_error (RT := Examples.engine) (js "   ") (js " "))).
Proof.
  apply (whitespace_body_is_strict_violation
           Examples.engine Examples.strict_self (js "   ") 32);
    reflexivity.
Defined.

(** ** Strict and loose parsing *)

Section Modes.
Context `{RT : Runtime}.

(** With [strict] on, a body that is not empty and does not pass the check
    makes [parseBody] throw. *)
Lemma parseBody_strict_rejects self body :
  parsedStrict self = true ->
  body ≠ [] ->
  passes_strict_check body = false ->
  exists e, outcome (parseBody self body) = Throw e /\
            decodes_body (trace (parseBody self body)) = false.
Proof.
  intros Hs Hne Hp. unfold passes_strict_check in Hp.
  destruct (first_non_whitespace body) as [c|] eqn:Hf.
  - rewrite (parseBody_strict_violation self body c Hs Hf Hp). eauto.
  - destruct (last_dot_char body) as [d|] eqn:Hd.
    + destruct (parseBody_whitespace_body self body d Hs Hf Hd) as [_ ->].
      eauto.
    + pose proof (exec_firstchar_capture body) as Hcap. rewrite Hf, Hd in Hcap.
      rewrite (parseBody_strict self body Hne Hs).
      destruct (exec_firstchar body) as [[whole cap]|]; [discriminate|]. eauto.
Qed.

Lemma parseBody_passes self body :
  parsedStrict self = true ->
  passes_strict_check body = true ->
  parseBody self body =
    mkM (EvRegExpExec body :: trace (decode self body)) (outcome (decode self body)).
Proof.
  intros Hs Hp. unfold passes_strict_check in Hp.
  destruct (first_non_whitespace body) as [c|] eqn:Hf; [|discriminate].
  exact (parseBody_strict_container self body c Hs Hf Hp).
Qed.

Lemma passes_strict_check_nonempty body :
  passes_strict_check body = true -> body ≠ [].
Proof. intros H ->. discriminate. Qed.
End Modes.

(** X3.  The strict check only rejects.  On the empty body and on a body
    that passes the check, [parseBody] ends the same way with [strict] on and
    off; a body that is not empty and does not pass the check makes it throw
    with [strict] on, without being decoded.  So whenever strict parsing
    returns a value, loose parsing returns that value. *)
Theorem strict_check_only_rejects :
  forall (RT : Runtime) (self : Self) (body : jsstring),
    let strict := set_parsedStrict true self in
    let loose := set_parsedStrict false self in
    (body = [] \/ passes_strict_check body = true ->
       outcome (parseBody strict body) = outcome (parseBody loose body)) /\
    (body ≠ [] -> passes_strict_check body = false ->
       exists e, outcome (parseBody strict body) = Throw e /\
                 decodes_body (trace (parseBody strict body)) = false) /\
    (forall v, outcome (parseBody strict body) = Return v ->
               outcome (parseBody loose body) = Return v).
Proof.
  intros RT self body strict loose.
  assert (body = [] \/ passes_strict_check body = true ->
          outcome (parseBody strict body) = outcome (parseBody loose body)) as Hsame.
  { intros [->|Hp]; [reflexivity|].
    rewrite (parseBody_passes strict body eq_refl Hp).
    rewrite (parseBody_nonstrict loose body (passes_strict_check_nonempty body Hp) eq_refl).
    reflexivity. }
  split; [exact Hsame|]. split.
  - intros Hne Hp. exact (parseBody_strict_rejects strict body eq_refl Hne Hp).
  - intros v Hv. rewrite <- Hsame; [exact Hv|].
    destruct body as [|c body]; [left; reflexivity|right].
    destruct (passes_strict_check (c :: body)) eqn:Hp; [reflexivity|].
    destruct (parseBody_strict_rejects strict (c :: body) eq_refl) as (e & He & _);
      [discriminate|exact Hp|congruence].
Qed.

Lemma strict_check_only_rejects_witness :
  outcome (parseBody (RT := Examples.engine)
             (set_parsedStrict true Examples.strict_self) (js "[true]")) =
    outcome (parseBody (RT := Examples.engine)
               (set_parsedStrict false Examples.strict_self) (js "[true]")) /\
  (exists e,
     outcome (parseBody (RT := Examples.engine)
                (set_parsedStrict true Examples.strict_self) (js "true")) = Throw e /\
     decodes_body
       (trace (parseBody (RT := Examples.engine)
                 (set_parsedStrict true Examples.strict_self) (js "true"))) = false) /\
  outcome (parseBody (RT := Examples.engine)
             (set_parsedStrict false Examples.strict_self) (js "[true]")) =
    Return (VArr [VBool true]).
Proof.
  destruct (strict_check_only_rejects Examples.engine Examples.strict_self (js "[true]"))
    as (H1 & _ & H3).
  destruct (strict_check_only_rejects Examples.engine Examples.strict_self (js "true"))
    as (_ & H2 & _).
  split; [apply H1; right; reflexivity|].
  split; [apply H2; [discriminate|reflexivity]|].
  apply H3. reflexivity.
Defined.

(** ** What [parseBody] throws and calls *)

Section Effects.
Context `{RT : Runtime}.

(** The five ways [parseBody] can go. *)
Lemma parseBody_cases self body :
  let reviver := Opts.reviver (options self) in
  parseBody self body = mkM [] (Return empty_object) \/
  (parsedStrict self = true /\
   parseBody self body =
     mkM [EvRegExpExec body] (Throw (new_error CTypeError null_index_message))) \/
  (parsedStrict self = true /\
   exists first,
     parseBody self body =
       mkM [EvRegExpExec body; EvDebug "strict violation";
            EvJSONParse (substring body 0 (indexOf body first) ++ js "#") VUndefined]
           (Throw (strict_error body first))) \/
  (parsedStrict self = true /\
   parseBody self body =
     mkM [EvRegExpExec body; EvDebug "parse json"; EvJSONParse body reviver]
         (outcome (decode self body))) \/
  (parsedStrict self = false /\
   parseBody self body =
     mkM [EvDebug "parse json"; EvJSONParse body reviver] (outcome (decode self body))).
Proof.
  intros reviver. destruct body as [|c body]; [left; reflexivity|right].
  destruct (parsedStrict self) eqn:Hs.
  - rewrite (parseBody_strict self (c :: body) ltac:(discriminate) Hs).
    destruct (exec_firstchar (c :: body)) as [[whole first]|]; [|left; done].
    right. destruct (negb _ && negb _).
    + left. split; [done|]. exists first. reflexivity.
    + right. left. done.
  - rewrite (parseBody_nonstrict self (c :: body) ltac:(discriminate) Hs).
    do 3 right. done.
Qed.

Lemma decode_throws_bare self body e k :
  outcome (decode self body) = Throw e ->
  k ≠ "stack"%string -> k ≠ "message"%string -> extra e !! k = None.
Proof.
  unfold decode. cbn [outcome].
  destruct (JSON_parse body _) as [v|e0]; [discriminate|].
  intros [= <-]. apply normalize_strips.
Qed.
End Effects.

(** X4.  Whatever [parseBody] throws, the TypeError of a failed match and
    the error of a strict violation included, has no own property besides
    [message] and [stack]. *)
Theorem parseBody_throws_bare_errors :
  forall (RT : Runtime) (self : Self) (body : jsstring) (e : JsError) (k : string),
    outcome (parseBody self body) = Throw e ->
    k ≠ "stack"%string -> k ≠ "message"%string ->
    extra e !! k = None.
Proof.
  intros RT self body e k He Hk1 Hk2.
  destruct (parseBody_cases self body)
    as [H|[[_ H]|[[_ [first H]]|[[_ H]|[_ H]]]]];
    rewrite H in He; cbn [outcome] in He.
  - discriminate.
  - injection He as <-. apply lookup_empty.
  - injection He as <-. by apply normalize_strips.
  - by apply (decode_throws_bare self body).
  - by apply (decode_throws_bare self body).
Qed.

Lemma parseBody_throws_bare_errors_witness :
  extra (normalizeJsonSyntaxError Examples.native_with_field
           {| obj_message := message Examples.native_with_field;
              obj_stack := stack Examples.native_with_field |}) !! "at"%string = None.
Proof.
  apply (parseBody_throws_bare_errors
           Examples.rejecting_engine Examples.strict_self (js "{oops}"));
    [reflexivity|discriminate|discriminate].
Defined.

(** X5.  [parseBody] calls [JSON.parse] at most once and runs the regular
    expression at most once, and not at all with [strict] off.  A call of
    [JSON.parse] is either on the body with the reviver of the options, or,
    under [strict], on a text closed with the placeholder and without a
    reviver: the reviver never sees the text made for the diagnosis. *)
Theorem parseBody_calls_parser_at_most_once :
  forall (RT : Runtime) (self : Self) (body : jsstring),
    (calls is_JSONParse (trace (parseBody self body)) <= 1)%nat /\
    (calls is_RegExpExec (trace (parseBody self body))
       <= if parsedStrict self then 1 else 0)%nat /\
    Forall (parser_call_of self body) (trace (parseBody self body)).
Proof.
  intros RT self body.
  destruct (parseBody_cases self body)
    as [H|[[Hs H]|[[Hs [first H]]|[[Hs H]|[Hs H]]]]];
    rewrite H, ?Hs; cbn [trace];
    (split; [cbn; lia|]); (split; [cbn; lia|]).
  - apply Forall_nil_2.
  - repeat apply Forall_cons_2; try apply Forall_nil_2; exact I.
  - repeat apply Forall_cons_2; try apply Forall_nil_2; try exact I.
    right. split; [exact Hs|]. split; [reflexivity|]. eauto.
  - repeat apply Forall_cons_2; try apply Forall_nil_2; try exact I.
    left. done.
  - repeat apply Forall_cons_2; try apply Forall_nil_2; try exact I.
    left. done.
Qed.

(** ** A replacement without patterns *)

Lemma GetSubstitution_literal matched before after repl :
  literal_replacement repl = true ->
  GetSubstitution matched before after repl = repl.
Proof.
  induction repl as [|x tl IH]; [reflexivity|].
  cbn [literal_replacement GetSubstitution].
  intros H. apply andb_true_iff in H as [Hx Htl].
  destruct (x =? ch "$").
  - destruct tl as [|c rest]; [reflexivity|].
    cbn [andb negb] in Hx. apply negb_true_iff in Hx.
    apply orb_false_iff in Hx as [Hx H4]. apply orb_false_iff in Hx as [Hx H3].
    apply orb_false_iff in Hx as [H1 H2].
    rewrite H1, H2, H3, H4. f_equal. exact (IH Htl).
  - f_equal. exact (IH Htl).
Qed.

Lemma is_prefix_split pat s :
  is_prefix pat s = true -> s = pat ++ drop (length pat) s.
Proof.
  revert s. induction pat as [|p pat IH]; intros s H; [reflexivity|].
  destruct s as [|c s]; [discriminate|].
  cbn [is_prefix] in H. apply andb_true_iff in H as [Hp H].
  apply N.eqb_eq in Hp as ->. cbn [app length drop]. f_equal. exact (IH s H).
Qed.

(** Where [indexOf] finds the pattern, the pattern is. *)
Lemma indexOf_from_found i s pat :
  (0 <= i)%Z ->
  (indexOf_from i s pat <? 0)%Z = false ->
  (i <= indexOf_from i s pat)%Z /\
  take (Z.to_nat (indexOf_from i s pat - i)) s ++ pat
    ++ drop (Z.to_nat (indexOf_from i s pat - i) + length pat) s = s.
Proof.
  revert i. induction s as [|c s IH]; intros i Hi.
  - cbn [indexOf_from]. destruct (is_prefix pat []) eqn:Hp; [|intros H; discriminate].
    intros _. split; [lia|]. rewrite Z.sub_diag. cbn [Z.to_nat take Nat.add app].
    symmetry. exact (is_prefix_split pat [] Hp).
  - cbn [indexOf_from]. destruct (is_prefix pat (c :: s)) eqn:Hp.
    + intros _. split; [lia|]. rewrite Z.sub_diag. cbn [Z.to_nat take Nat.add app].
      symmetry. exact (is_prefix_split pat (c :: s) Hp).
    + intros Hpos. destruct (IH (i + 1)%Z ltac:(lia) Hpos) as [Hle Heq].
      split; [lia|].
      replace (Z.to_nat (indexOf_from (i + 1) s pat - i))
        with (S (Z.to_nat (indexOf_from (i + 1) s pat - (i + 1)))) by lia.
      cbn [take Nat.add drop app]. f_equal. exact Heq.
Qed.

(** Replacing a text by itself changes nothing, when it holds no
    replacement pattern. *)
Lemma replace_by_itself s m :
  literal_replacement m = true -> replace s m m = s.
Proof.
  intros Hm. unfold replace.
  destruct (indexOf s m <? 0)%Z eqn:Hpos; [reflexivity|].
  rewrite GetSubstitution_literal by exact Hm.
  destruct (indexOf_from_found 0 s m ltac:(lia) Hpos) as [_ Heq].
  rewrite Z.sub_0_r in Heq. exact Heq.
Qed.

(** An error without own properties of its own comes out of the
    normalisation with the message and the stack it is given. *)
Lemma normalize_plain e obj :
  extra e = ∅ ->
  normalizeJsonSyntaxError e obj =
    {| ctor := ctor e; message := obj_message obj;
       stack := replace (obj_stack obj) (message e) (obj_message obj);
       extra := ∅ |}.
Proof.
  intros He. unfold normalizeJsonSyntaxError, getOwnPropertyNames.
  rewrite He, map_to_list_empty. cbn. rewrite He. reflexivity.
Qed.

(** X6.  When the decoding of a body fails with an error whose message
    holds no replacement pattern (no dollar sign followed by a dollar sign,
    an ampersand, a backquote or a quote), [parseBody] throws that error with
    its constructor, its message and its stack as the parser made them; an
    error that has no other own property is thrown as it is. *)
Theorem decoder_error_keeps_message_and_stack :
  forall (RT : Runtime) (self : Self) (body : jsstring) (e : JsError),
    body ≠ [] ->
    (parsedStrict self = true -> passes_strict_check body = true) ->
    JSON_parse body (Opts.reviver (options self)) = Throw e ->
    literal_replacement (message e) = true ->
    exists e' : JsError,
      outcome (parseBody self body) = Throw e' /\
      ctor e' = ctor e /\ message e' = message e /\ stack e' = stack e /\
      (extra e = ∅ -> e' = e).
Proof.
  intros RT self body e Hne Hpass Hthrow Hlit.
  exists (normalizeJsonSyntaxError e {| obj_message := message e; obj_stack := stack e |}).
  split.
  - destruct (parsedStrict self) eqn:Hs.
    + rewrite (parseBody_passes self body Hs (Hpass eq_refl)).
      unfold decode. rewrite Hthrow. reflexivity.
    + rewrite (parseBody_nonstrict self body Hne Hs).
      unfold decode. rewrite Hthrow. reflexivity.
  - destruct (normalize_fields e {| obj_message := message e; obj_stack := stack e |})
      as (Hc & Hm & Hst).
    cbn [obj_message obj_stack] in Hm, Hst.
    rewrite (replace_by_itself (stack e) (message e) Hlit) in Hst.
    repeat split; try assumption.
    intros Hextra. rewrite (normalize_plain e _ Hextra). cbn [obj_message obj_stack].
    rewrite (replace_by_itself (stack e) (message e) Hlit).
    destruct e; cbn in *. by subst.
Qed.

Lemma decoder_error_keeps_message_and_stack_witness :
  outcome (parseBody (RT := Examples.engine) Examples.strict_self (js "{$}")) =
    Throw (new_error (RT := Examples.engine) CSyntaxError
             (js "Unexpected token $ in JSON at position 1")).
Proof.
  destruct (decoder_error_keeps_message_and_stack
              Examples.engine Examples.strict_self (js "{$}")
              (new_error (RT := Examples.engine) CSyntaxError
                 (js "Unexpected token $ in JSON at position 1")))
    as (e' & Hout & _ & _ & _ & Hsame);
    [discriminate|reflexivity|reflexivity|reflexivity|].
  rewrite Hout, (Hsame eq_refl). reflexivity.
Defined.

(** ** The gate, next and the reader *)

Lemma checkParse_summary
    `{RT : Runtime} `{CO : Collaborators} self req charset :
  outcome (checkParse req self charset) = Return (gate_open self req charset) /\
  calls is_Next (trace (checkParse req self charset)) =
    (if gate_open self req charset then 0 else 1)%nat /\
  next_errors (trace (checkParse req self charset)) =
    (if negb (_body req) && hasBody req && shouldParse self req
        && negb (jsstring_eqb (substr charset 0 4) (js "utf-"))
     then [charset_error charset] else []).
Proof.
  unfold checkParse, gate_open.
  destruct (_body req); [repeat split|].
  destruct (hasBody req); [|repeat split].
  destruct (shouldParse self req); [|repeat split].
  destruct (jsstring_eqb (substr charset 0 4) (js "utf-")); repeat split.
Qed.

Section Handler.
Context `{RT : Runtime} `{CO : Collaborators}.
Context (Reader : Request -> (jsstring -> M Value) -> ReaderOptions -> M Request).

Lemma gate_open_true self req charset :
  gate_open self req charset = true ->
  _body req = false /\ hasBody req = true /\ shouldParse self req = true /\
  substr charset 0 4 = js "utf-".
Proof.
  unfold gate_open. intros H.
  apply andb_true_iff in H as [H H4]. apply andb_true_iff in H as [H H3].
  apply andb_true_iff in H as [H1 H2]. apply negb_true_iff in H1.
  apply bool_decide_eq_true_1 in H4. done.
Qed.

Lemma createReader_gate_closed self req :
  gate_open self (with_default_body req) (resolve_charset (with_default_body req)) = false ->
  outcome (createReader Reader self req) = Return (with_default_body req) /\
  calls is_Reader (trace (createReader Reader self req)) = 0%nat /\
  calls is_Next (trace (createReader Reader self req)) = 1%nat.
Proof.
  unfold gate_open. change (_body (with_default_body req)) with (_body req).
  destruct (_body req) eqn:Hb.
  - intros _. rewrite (createReader_already_parsed Reader self req Hb). done.
  - destruct (hasBody (with_default_body req)) eqn:Hh.
    + destruct (shouldParse self (with_default_body req)) eqn:Hs.
      * cbn [negb andb]. intros Hc. apply bool_decide_eq_false_1 in Hc.
        rewrite (createReader_bad_charset Reader self req Hb Hh Hs Hc). done.
      * intros _. rewrite (createReader_type_mismatch Reader self req Hb Hh Hs). done.
    + intros _. rewrite (createReader_no_body Reader self req Hb Hh). done.
Qed.

Lemma resolve_charset_nonempty req : resolve_charset req ≠ [].
Proof.
  unfold resolve_charset. destruct (getCharset req) as [[|c cs]|]; discriminate.
Qed.
End Handler.

(** X8.  When the four conditions hold for the request with its body
    defaulted, the handler does not call [next]: it calls the reader, once,
    with that request, [parseBody] bound to the configuration as the parse
    callback, and the options [encoding] (the charset in lower case, [utf-8]
    when none is declared; it starts with [utf-] and is never empty),
    [inflate], [limit] and [verify] as the constructor kept them; what the
    reader does is what the handler does from there.  When one of the
    conditions fails the reader is not called, [next] is called exactly once
    and the request leaves with its body defaulted. *)
Theorem handler_hands_over_to_reader :
  forall (RT : Runtime) (CO : Collaborators)
         (Reader : Request -> (jsstring -> M Value) -> ReaderOptions -> M Request)
         (self : Self) (req : Request),
    let req' := with_default_body req in
    let charset := resolve_charset req' in
    let opts :=
      {| encoding := charset; inflate := parsedInflate self;
         limit := parsedLimit self; verify := parsedVerify self |} in
    let read := Reader req' (parseBody self) opts in
    charset ≠ [] /\
    (gate_open self req' charset = true ->
       substr (encoding opts) 0 4 = js "utf-" /\
       createReader Reader self req =
         mkM ([EvHasBody;
               EvDebugHeader "content-type %j" (headers req !! "content-type"%string);
               EvShouldParse; EvReader opts] ++ trace read)
             (outcome read)) /\
    (gate_open self req' charset = false ->
       outcome (createReader Reader self req) = Return req' /\
       calls is_Reader (trace (createReader Reader self req)) = 0%nat /\
       calls is_Next (trace (createReader Reader self req)) = 1%nat).
Proof.
  intros RT CO Reader self req req' charset opts read.
  split; [apply resolve_charset_nonempty|]. split.
  - intros Hg. destruct (gate_open_true self req' charset Hg) as (Hb & Hh & Hs & Hc).
    split; [exact Hc|]. exact (createReader_reads Reader self req Hb Hh Hs Hc).
  - apply createReader_gate_closed.
Qed.

Lemma handler_hands_over_to_reader_witness :
  let req := Examples.request (js "application/json; charset=UTF-8") (js "2") in
  let opts :=
    {| encoding := js "utf-8"; inflate := true;
       limit := VNum (Dec false 102400 0); verify := VBool false |} in
  createReader (RT := Examples.engine) (CO := Examples.packages)
      (SpecReader (Decoded (js "{}"))) Examples.strict_self req =
    mkM ([EvHasBody;
          EvDebugHeader "content-type %j" (Some (js "application/json; charset=UTF-8"));
          EvShouldParse; EvReader opts] ++
         trace (SpecReader (Decoded (js "{}")) (set_body empty_object req)
                  (parseBody (RT := Examples.engine) Examples.strict_self) opts))
        (outcome (SpecReader (Decoded (js "{}")) (set_body empty_object req)
                    (parseBody (RT := Examples.engine) Examples.strict_self) opts)) /\
  calls is_Next
    (trace (createReader (RT := Examples.engine) (CO := Examples.packages)
              (SpecReader (Decoded (js "{}"))) Examples.strict_self
              (Examples.request (js "text/plain") (js "2")))) = 1%nat.
Proof.
  intros req opts.
  destruct (handler_hands_over_to_reader Examples.engine Examples.packages
              (SpecReader (Decoded (js "{}"))) Examples.strict_self req)
    as (_ & Hopen & _).
  destruct (handler_hands_over_to_reader Examples.engine Examples.packages
              (SpecReader (Decoded (js "{}"))) Examples.strict_self
              (Examples.request (js "text/plain") (js "2")))
    as (_ & _ & Hclosed).
  split.
  - apply Hopen. reflexivity.
  - apply Hclosed. reflexivity.
Defined.

(** X9.  A request whose content type cannot be parsed, or declares no
    charset or an empty one, is taken as [utf-8]: it is never stopped for
    its charset, and [next] gets no error from the gate. *)
Theorem missing_charset_is_utf8 :
  forall (RT : Runtime) (CO : Collaborators) (self : Self) (req : Request),
    getCharset req = None \/ getCharset req = Some [] ->
    resolve_charset req = js "utf-8" /\
    gate_open self req (resolve_charset req) =
      negb (_body req) && hasBody req && shouldParse self req /\
    next_errors (trace (checkParse req self (resolve_charset req))) = [].
Proof.
  intros RT CO self req Hc.
  assert (resolve_charset req = js "utf-8") as ->
    by (unfold resolve_charset; destruct Hc as [-> | ->]; reflexivity).
  split; [reflexivity|]. split.
  - unfold gate_open. change (jsstring_eqb (substr (js "utf-8") 0 4) (js "utf-")) with true.
    apply andb_true_r.
  - destruct (checkParse_summary self req (js "utf-8")) as (_ & _ & ->).
    change (jsstring_eqb (substr (js "utf-8") 0 4) (js "utf-")) with true.
    cbn [negb]. rewrite andb_false_r. reflexivity.
Qed.

Lemma missing_charset_is_utf8_witness :
  let req := Examples.request (js "application/json") (js "2") in
  resolve_charset (RT := Examples.engine) (CO := Examples.packages) req = js "utf-8" /\
  gate_open (CO := Examples.packages) Examples.strict_self req
    (resolve_charset (RT := Examples.engine) (CO := Examples.packages) req) =
    negb (_body req) && hasBody (Collaborators := Examples.packages) req
    && shouldParse Examples.strict_self req /\
  next_errors
    (trace (checkParse (RT := Examples.engine) (CO := Examples.packages) req
              Examples.strict_self
              (resolve_charset (RT := Examples.engine) (CO := Examples.packages) req)))
    = [].
Proof.
  intros req.
  apply (missing_charset_is_utf8 Examples.engine Examples.packages
           Examples.strict_self req).
  right. reflexivity.
Defined.

(** ** The defaults of the constructor *)

Section Defaults.
Context `{RT : Runtime} `{CO : Collaborators}.
Context (Reader : Request -> (jsstring -> M Value) -> ReaderOptions -> M Request).

Lemma same_middleware_limit o v w :
  (if negb (is_number v) then bytes_parse (js_or v (VStr (js "100kb"))) else v) =
  (if negb (is_number w) then bytes_parse (js_or w (VStr (js "100kb"))) else w) ->
  same_middleware (JsonParser Reader (Some (with_limit v o)))
                  (JsonParser Reader (Some (with_limit w o))).
Proof.
  intros Heq. unfold same_middleware, JsonParser, JsonParser_opts.
  cbn [default id with_limit Opts.limit Opts.inflate Opts.strict
       Opts.type Opts.verify Opts.reviver].
  rewrite Heq.
  destruct (strict_neq_false (js_or (Opts.verify o) (VBool false)) &&
            negb (is_function (js_or (Opts.verify o) (VBool false))));
    [reflexivity|intros req; reflexivity].
Qed.

Lemma same_middleware_type o v w :
  js_or v (VStr (js "application/json")) = js_or w (VStr (js "application/json")) ->
  same_middleware (JsonParser Reader (Some (with_type v o)))
                  (JsonParser Reader (Some (with_type w o))).
Proof.
  intros Heq. unfold same_middleware, JsonParser, JsonParser_opts.
  cbn [default id with_type Opts.limit Opts.inflate Opts.strict
       Opts.type Opts.verify Opts.reviver].
  rewrite Heq.
  destruct (strict_neq_false (js_or (Opts.verify o) (VBool false)) &&
            negb (is_function (js_or (Opts.verify o) (VBool false))));
    [reflexivity|intros req; reflexivity].
Qed.

Lemma parsedLimit_number o v self :
  is_number v = true ->
  JsonParser_opts (Some (with_limit v o)) = Return self ->
  parsedLimit self = v.
Proof.
  intros Hn. unfold JsonParser_opts.
  cbn [default id with_limit Opts.limit Opts.inflate Opts.strict
       Opts.type Opts.verify Opts.reviver].
  rewrite Hn. cbn [negb].
  destruct (strict_neq_false _ && negb _); [discriminate|].
  intros [= <-]. reflexivity.
Qed.
End Defaults.

(** X10.  How the constructor fills in [limit] and [type].  A [limit] that
    is not a number and is falsy ([undefined], [null], [false], the empty
    string) gives the middleware that the limit ['100kb'] gives, and a
    [limit] that is a number is kept as it is, the number 0 included.  A
    falsy [type], the number 0 and the empty string included, gives the
    middleware that the type ['application/json'] gives. *)
Theorem falsy_limit_and_type_take_defaults :
  forall (RT : Runtime) (CO : Collaborators)
         (Reader : Request -> (jsstring -> M Value) -> ReaderOptions -> M Request)
         (o : Opts.t) (v : Value),
    (ToBoolean v = false -> is_number v = false ->
       same_middleware (JsonParser Reader (Some (with_limit v o)))
                       (JsonParser Reader (Some (with_limit (VStr (js "100kb")) o)))) /\
    (is_number v = true ->
       forall self, JsonParser_opts (Some (with_limit v o)) = Return self ->
                    parsedLimit self = v) /\
    (ToBoolean v = false ->
       same_middleware (JsonParser Reader (Some (with_type v o)))
                       (JsonParser Reader (Some (with_type (VStr (js "application/json")) o)))).
Proof.
  intros RT CO Reader o v. split; [|split].
  - intros Hf Hn. apply same_middleware_limit.
    unfold js_or. rewrite Hf, Hn. reflexivity.
  - intros Hn self. by apply parsedLimit_number.
  - intros Hf. apply same_middleware_type. unfold js_or. rewrite Hf. reflexivity.
Qed.

Lemma falsy_limit_and_type_take_defaults_witness :
  same_middleware
    (JsonParser (RT := Examples.engine) (CO := Examples.packages)
       (SpecReader (Decoded (js "{}"))) (Some (with_limit VNull Opts.empty)))
    (JsonParser (RT := Examples.engine) (CO := Examples.packages)
       (SpecReader (Decoded (js "{}"))) (Some (with_limit (VStr (js "100kb")) Opts.empty))) /\
  (exists self : Self,
     JsonParser_opts (RT := Examples.engine) (CO := Examples.packages)
       (Some (with_limit (VNum (Dec false 0 0)) Opts.empty)) = Return self /\
     parsedLimit self = VNum (Dec false 0 0)) /\
  same_middleware
    (JsonParser (RT := Examples.engine) (CO := Examples.packages)
       (SpecReader (Decoded (js "{}"))) (Some (with_type (VStr []) Opts.empty)))
    (JsonParser (RT := Examples.engine) (CO := Examples.packages)
       (SpecReader (Decoded (js "{}")))
       (Some (with_type (VStr (js "application/json")) Opts.empty))).
Proof.
  split; [|split].
  - apply (proj1 (falsy_limit_and_type_take_defaults
                    Examples.engine Examples.packages (SpecReader (Decoded (js "{}")))
                    Opts.empty VNull)); reflexivity.
  - eexists. split; [reflexivity|].
    apply (proj1 (proj2 (falsy_limit_and_type_take_defaults
                           Examples.engine Examples.packages
                           (SpecReader (Decoded (js "{}")))
                           Opts.empty (VNum (Dec false 0 0))))
             eq_refl).
    reflexivity.
  - apply (proj2 (proj2 (falsy_limit_and_type_take_defaults
                           Examples.engine Examples.packages
                           (SpecReader (Decoded (js "{}")))
                           Opts.empty (VStr [])))); reflexivity.
Defined.

(** ** The round trip, strict and loose *)

Lemma digit_is_not_whitespace d : d < 10 -> is_whitespace (RefEngine.digit_char d) = false.
Proof.
  intros Hd. unfold is_whitespace, is_line_terminator, RefEngine.digit_char.
  repeat (apply orb_false_iff; split);
    try (apply N.eqb_neq; lia).
  apply andb_false_iff. left. apply N.leb_gt. lia.
Qed.

(** The text of a value that is neither an object nor an array opens with
    a character that fails the strict check. *)
Lemma scalar_text_fails_check v :
  json_value v = true -> is_container v = false ->
  exists c, first_non_whitespace (RefEngine.stringify v) = Some c /\
            (c =? ch "{") || (c =? ch "[") = false.
Proof.
  intros Hv Hc.
  destruct v as [| |[]|[| |neg coef e]|s|elems|props|]; try discriminate;
    try (eexists; split; reflexivity).
  destruct (RoundTripFacts.number_head neg coef e Hv) as (c & t & Hs & Hhead).
  unfold RefEngine.stringify. cbn [RefEngine.serialize default from_option id].
  rewrite Hs. cbn [first_non_whitespace].
  destruct Hhead as [->|(d & Hd & ->)]; [eexists; split; reflexivity|].
  rewrite (digit_is_not_whitespace d Hd). eexists. split; [reflexivity|].
  unfold RefEngine.digit_char.
  apply orb_false_iff. split; apply N.eqb_neq; cbn; lia.
Qed.

(** X11.  The round trip through the reference encoder and [parseBody] on
    the reference engine, without a reviver function.  With [strict] off it
    holds for every value of the JSON data model, a number, a string, a
    boolean or [null] at the root included.  With [strict] on it holds
    exactly for the objects and the arrays: the text of any other value is
    rejected with a SyntaxError, without being decoded. *)
Theorem round_trip_by_mode :
  forall (call : FunRef -> jsstring -> Value -> Value) (self : Self) (v : Value),
    json_value v = true ->
    is_function (Opts.reviver (options self)) = false ->
    let result :=
      parseBody (RT := RefEngine.runtime call) self (RefEngine.stringify v) in
    (parsedStrict self = false -> outcome result = Return v) /\
    (parsedStrict self = true ->
       (outcome result = Return v <-> is_container v = true) /\
       (is_container v = false ->
          exists e, outcome result = Throw e /\ ctor e = CSyntaxError /\
                    decodes_body (trace result) = false)).
Proof.
  intros call self v Hv Hr result. subst result.
  set (RT := RefEngine.runtime call).
  pose proof (RoundTripFacts.parse_stringify call v _ Hv Hr) as Hparse.
  assert (parsedStrict self = true -> is_container v = false ->
          exists e, outcome (parseBody self (RefEngine.stringify v)) = Throw e /\
                    ctor e = CSyntaxError /\
                    decodes_body (trace (parseBody self (RefEngine.stringify v))) = false)
    as Hreject.
  { intros Hs Hc. destruct (scalar_text_fails_check v Hv Hc) as (c & Hf & Hp).
    rewrite (parseBody_strict_violation self _ c Hs Hf Hp).
    eexists. split; [reflexivity|]. split; [|reflexivity].
    apply strict_error_ctor, RefEngineFacts.parse_throws_syntax_errors. }
  split.
  - intros Hs. destruct (RoundTripFacts.stringify_head v Hv) as (c & t & Ht & _).
    assert (RefEngine.stringify v ≠ []) as Hne by (rewrite Ht; discriminate).
    rewrite (parseBody_nonstrict self _ Hne Hs).
    unfold decode. cbn [outcome JSON_parse RT RefEngine.runtime]. rewrite Hparse.
    reflexivity.
  - intros Hs. split; [|exact (Hreject Hs)]. split.
    + intros Hret. destruct (is_container v) eqn:Hc; [reflexivity|].
      destruct (Hreject Hs eq_refl) as (e & He & _). congruence.
    + intros Hc. subst RT.
      rewrite (parseBody_inverts_encoder call self RefEngine.stringify v Hs Hr Hc Hparse).
      reflexivity.
Qed.

Lemma round_trip_by_mode_witness :
  outcome (parseBody (RT := Examples.engine) Examples.loose_self
             (RefEngine.stringify (VNum (Dec true 125 (-1))))) =
    Return (VNum (Dec true 125 (-1))) /\
  (exists e,
     outcome (parseBody (RT := Examples.engine) Examples.strict_self
                (RefEngine.stringify (VStr (js "x")))) = Throw e /\
     ctor e = CSyntaxError /\
     decodes_body
       (trace (parseBody (RT := Examples.engine) Examples.strict_self
                 (RefEngine.stringify (VStr (js "x"))))) = false).
Proof.
  split.
  - apply (proj1 (round_trip_by_mode Examples.call Examples.loose_self
                    (VNum (Dec true 125 (-1))) eq_refl eq_refl)).
    reflexivity.
  - apply (proj2 (proj2 (round_trip_by_mode Examples.call Examples.strict_self
                           (VStr (js "x")) eq_refl eq_refl) eq_refl)).
    reflexivity.
Defined.

(** ** The error of a strict violation on the reference engine *)

Module NativeShape.
Import RefEngine.

Lemma starts_no_value_dispatch y :
  starts_no_value y ->
  (y =? ch "{") = false /\ (y =? ch "[") = false /\ (y =? 34) = false /\
  (y =? ch "t") = false /\ (y =? ch "f") = false /\ (y =? ch "n") = false /\
  ((y =? ch "-") || is_digit y) = false.
Proof.
  intros Hy.
  assert (forall k, is_whitespace k = false -> k <> ch "#" -> (y =? k) = false) as Hne.
  { intros k Hk Hk'. apply N.eqb_neq. intros ->. destruct Hy; congruence. }
  repeat split; try (apply Hne; [reflexivity|discriminate]).
  apply orb_false_iff. split; [apply Hne; [reflexivity|discriminate]|].
  unfold is_digit. destruct ((48 <=? y) && (y <=? 57)) eqn:Hd; [|reflexivity].
  apply andb_true_iff in Hd as [H1 H2].
  apply N.leb_le in H1, H2. exfalso.
  destruct Hy as [Hy| ->]; [|cbn in *; lia].
  assert (is_whitespace y = false) as Hw; [|congruence].
  unfold is_whitespace, is_line_terminator.
  repeat (apply orb_false_iff; split); try (apply N.eqb_neq; lia).
  apply andb_false_iff. left. apply N.leb_gt. lia.
Qed.

(** Where the scan of white space followed by the placeholder stops. *)
Lemma skip_ws_placeholder pre pos :
  forallb is_whitespace pre = true ->
  exists y rest p,
    skip_ws (pre ++ js "#") pos = (y :: rest, p) /\
    starts_no_value y /\
    (forallb is_json_whitespace pre = true ->
       y = ch "#" /\ p = pos + N.of_nat (length pre)) /\
    (y = ch "#" -> forallb is_json_whitespace pre = true).
Proof.
  revert pos. induction pre as [|a pre IH]; intros pos Hws.
  - exists (ch "#"), [], pos. split; [reflexivity|]. split; [right; reflexivity|].
    split; [intros _; split; [reflexivity|cbn; lia]|reflexivity].
  - cbn [forallb] in Hws. apply andb_true_iff in Hws as [Ha Hws].
    cbn [app skip_ws forallb]. destruct (is_json_whitespace a) eqn:Hj.
    + destruct (IH (pos + 1) Hws) as (y & rest & p & Hskip & Hy & Hall & Hback).
      exists y, rest, p. split; [exact Hskip|]. split; [exact Hy|]. split.
      * cbn [andb]. intros H. destruct (Hall H) as [-> ->].
        split; [reflexivity|cbn [length]; lia].
      * cbn [andb]. exact Hback.
    + exists a, (pre ++ js "#"), pos. split; [reflexivity|]. split; [left; exact Ha|].
      split; [discriminate|]. intros ->. discriminate.
Qed.

Lemma parse_text_stops pre :
  forallb is_whitespace pre = true ->
  exists y p,
    parse_text (pre ++ js "#") = Bad p (Some y) /\
    starts_no_value y /\
    (forallb is_json_whitespace pre = true -> y = ch "#" /\ p = N.of_nat (length pre)) /\
    (y = ch "#" -> forallb is_json_whitespace pre = true).
Proof.
  intros Hws.
  destruct (skip_ws_placeholder pre 0 Hws) as (y & rest & p & Hskip & Hy & Hall & Hback).
  exists y, p. split; [|split; [exact Hy|split; [|exact Hback]]].
  - unfold parse_text.
    replace (2 * length (pre ++ js "#") + 2)%nat
      with (S (2 * length (pre ++ js "#") + 1)) by lia.
    cbn [parse_value]. rewrite Hskip.
    destruct (starts_no_value_dispatch y Hy) as (-> & -> & -> & -> & -> & -> & ->).
    reflexivity.
  - intros H. destruct (Hall H) as [-> ->]. split; [reflexivity|lia].
Qed.

Lemma syntax_message_token y p :
  starts_no_value y -> syntax_message p (Some y) = token_message y p.
Proof.
  intros Hy. unfold syntax_message.
  destruct (starts_no_value_dispatch y Hy) as (_ & _ & -> & _ & _ & _ & ->).
  reflexivity.
Qed.

(** Decimal digits are neither the placeholder nor a dollar sign. *)
Lemma decimal_chars n c :
  c ∈ decimal n -> 48 <= c.
Proof.
  rewrite RoundTripFacts.decimal_digits_of. intros H.
  apply list_elem_of_fmap in H as (d & -> & _). unfold digit_char. lia.
Qed.

Lemma indexOf_from_absent i s d :
  d ∉ s -> indexOf_from i s [d] = (-1)%Z.
Proof.
  revert i. induction s as [|c s IH]; intros i Hd; [reflexivity|].
  cbn [indexOf_from is_prefix]. apply not_elem_of_cons in Hd as [Hne Hd].
  assert ((d =? c) = false) as -> by (apply N.eqb_neq; exact Hne).
  cbn [andb]. apply IH, Hd.
Qed.

(** The offending character takes the place of the placeholder; a message
    without placeholder stays as it is. *)
Lemma replace_in_token_message y p c :
  replace (token_message y p) (js "#") [c] =
    token_message (if y =? ch "#" then c else y) p.
Proof.
  destruct (N.eqb_spec y (ch "#")) as [->|Hne].
  - apply StrictMessage.replace_placeholder.
  - unfold replace, indexOf. change (js "#") with [ch "#"].
    rewrite indexOf_from_absent; [reflexivity|].
    unfold token_message. rewrite !not_elem_of_app. repeat split.
    + intros H. by repeat (apply elem_of_cons in H as [H|H]; [discriminate|]);
        apply elem_of_nil in H.
    + intros H. apply elem_of_cons in H as [H|H]; [congruence|by apply elem_of_nil in H].
    + intros H. by repeat (apply elem_of_cons in H as [H|H]; [discriminate|]);
        apply elem_of_nil in H.
    + intros H. apply decimal_chars in H. cbn in H. lia.
Qed.

Lemma literal_replacement_no_dollar s :
  forallb (fun c => negb (c =? ch "$")) s = true -> literal_replacement s = true.
Proof.
  induction s as [|x tl IH]; [reflexivity|].
  cbn [forallb literal_replacement]. intros H. apply andb_true_iff in H as [Hx Htl].
  apply negb_true_iff in Hx. rewrite Hx. cbn [andb negb]. apply IH, Htl.
Qed.

Lemma literal_replacement_app a b :
  forallb (fun c => negb (c =? ch "$")) a = true ->
  literal_replacement b = true -> literal_replacement (a ++ b) = true.
Proof.
  intros Ha Hb. induction a as [|x a IH]; [exact Hb|].
  cbn [forallb] in Ha. apply andb_true_iff in Ha as [Hx Ha].
  apply negb_true_iff in Hx.
  cbn [app literal_replacement]. rewrite Hx. cbn [andb negb]. apply IH, Ha.
Qed.

Lemma literal_decimal n : literal_replacement (decimal n) = true.
Proof.
  apply literal_replacement_no_dollar, forallb_forall.
  intros c Hc. apply list_elem_of_In, decimal_chars in Hc.
  apply negb_true_iff, N.eqb_neq. cbn. lia.
Qed.

Lemma literal_token_message y p : literal_replacement (token_message y p) = true.
Proof.
  unfold token_message. apply literal_replacement_app; [reflexivity|].
  cbn [app js list_ascii_of_string map literal_replacement].
  change (N_of_ascii " " =? ch "$") with false.
  change (N_of_ascii " " =? ch "&") with false.
  change (N_of_ascii " " =? ch "`") with false.
  change (N_of_ascii " " =? ch "'") with false.
  cbn [orb]. rewrite andb_false_r. cbn [negb andb].
  apply (literal_replacement_app (js " in JSON at position ") (decimal p));
    [reflexivity|apply literal_decimal].
Qed.

Lemma is_prefix_app pat rest : is_prefix pat (pat ++ rest) = true.
Proof.
  induction pat as [|p pat IH]; [reflexivity|].
  cbn [app is_prefix]. rewrite N.eqb_refl. exact IH.
Qed.

(** The first occurrence of a pattern comes after a text that does not hold
    its first character. *)
Lemma indexOf_from_after i pre p tail rest :
  forallb (fun c => negb (p =? c)) pre = true ->
  indexOf_from i (pre ++ (p :: tail) ++ rest) (p :: tail) =
    (i + Z.of_nat (length pre))%Z.
Proof.
  revert i. induction pre as [|c pre IH]; intros i Hpre.
  - cbn [app length indexOf_from is_prefix].
    rewrite N.eqb_refl, is_prefix_app. cbn [andb]. lia.
  - cbn [forallb] in Hpre. apply andb_true_iff in Hpre as [Hc Hpre].
    apply negb_true_iff in Hc.
    cbn [app indexOf_from is_prefix length]. rewrite Hc. cbn [andb].
    rewrite (IH _ Hpre). lia.
Qed.

Lemma replace_after pre p tail rest m :
  forallb (fun c => negb (p =? c)) pre = true ->
  literal_replacement m = true ->
  replace (pre ++ (p :: tail) ++ rest) (p :: tail) m = pre ++ m ++ rest.
Proof.
  intros Hpre Hm. unfold replace, indexOf.
  rewrite (indexOf_from_after 0 pre p tail rest Hpre), Z.add_0_l.
  assert ((Z.of_nat (length pre) <? 0)%Z = false) as -> by (apply Z.ltb_ge; lia).
  rewrite Nat2Z.id, (GetSubstitution_literal _ _ _ m Hm).
  rewrite take_app_length. f_equal. f_equal.
  rewrite drop_app_add, drop_app_length. reflexivity.
Qed.

(** In the stack of an error of the engine, the message is found after the
    heading. *)
Lemma replace_in_capture y p m :
  literal_replacement m = true ->
  replace (capture CSyntaxError (token_message y p)) (token_message y p) m =
    capture CSyntaxError m.
Proof.
  intros Hm.
  exact (replace_after (js "SyntaxError: ") (ch "U")
           (js "nexpected token " ++ [y] ++ js " in JSON at position " ++ decimal p)
           ([10] ++ js "    at <anonymous>") m eq_refl Hm).
Qed.
End NativeShape.

Lemma last_dot_char_None s :
  last_dot_char s = None -> forallb is_line_terminator s = true.
Proof.
  induction s as [|c s IH]; [reflexivity|].
  cbn [last_dot_char forallb]. destruct (last_dot_char s); [discriminate|].
  destruct (is_line_terminator c); [|discriminate]. intros _. exact (IH eq_refl).
Qed.

Lemma before_first_whitespace d s :
  first_non_whitespace s = None -> forallb is_whitespace (before_first d s) = true.
Proof.
  induction s as [|c s IH]; [reflexivity|].
  cbn [first_non_whitespace before_first].
  destruct (is_whitespace c) eqn:Hc; [|discriminate].
  intros H. destruct (c =? d); [reflexivity|].
  cbn [forallb]. rewrite Hc. exact (IH H).
Qed.

(** The error made for a strict violation on the reference engine, from the
    white space the diagnosis text starts with. *)
Lemma strict_error_on_engine call body c pre :
  substring body 0 (indexOf body [c]) = pre ->
  forallb is_whitespace pre = true ->
  exists y p,
    strict_error (RT := RefEngine.runtime call) body [c] =
      new_error (RT := RefEngine.runtime call) CSyntaxError (token_message y p) /\
    (forallb is_json_whitespace pre = true -> y = c /\ p = N.of_nat (length pre)).
Proof.
  intros Hpre Hws.
  destruct (NativeShape.parse_text_stops pre Hws) as (y & p & Hparse & Hy & Hall & Hback).
  exists (if y =? ch "#" then c else y), p.
  assert (native_error (RT := RefEngine.runtime call) body [c] =
            new_error (RT := RefEngine.runtime call) CSyntaxError (token_message y p))
    as Hnative.
  { unfold native_error. rewrite Hpre. cbn [JSON_parse RefEngine.runtime].
    unfold RefEngine.parse. rewrite Hparse.
    rewrite (NativeShape.syntax_message_token y p Hy). reflexivity. }
  split.
  - unfold strict_error. rewrite Hnative.
    rewrite normalize_plain by reflexivity.
    cbn [new_error ctor message stack obj_message obj_stack captureStack
         RefEngine.runtime].
    rewrite NativeShape.replace_in_token_message.
    rewrite NativeShape.replace_in_capture by apply NativeShape.literal_token_message.
    reflexivity.
  - intros Hj. destruct (Hall Hj) as [-> ->]. split; reflexivity.
Qed.

Lemma before_first_leading body c :
  first_non_whitespace body = Some c -> before_first c body = leading_whitespace body.
Proof.
  induction body as [|a body IH]; [discriminate|].
  cbn [first_non_whitespace before_first leading_whitespace].
  destruct (is_whitespace a) eqn:Ha.
  - intros Hf. destruct (N.eqb_spec a c) as [->|_].
    + destruct (first_non_whitespace_split body c Hf) as (_ & _ & Hc). congruence.
    + f_equal. exact (IH Hf).
  - intros [= ->]. rewrite N.eqb_refl. reflexivity.
Qed.

Lemma offending_character_elem body c :
  offending_character body = Some c -> c ∈ body.
Proof.
  unfold offending_character.
  destruct (first_non_whitespace body) as [c'|] eqn:Hf.
  - intros [= ->]. destruct (first_non_whitespace_split body c Hf) as (rest & -> & _).
    apply elem_of_app. right. apply list_elem_of_here.
  - intros Hd. exact (proj1 (last_dot_char_elem body c Hd)).
Qed.

(** What [parseBody] does on a strict violation, whichever the offending
    character is. *)
Lemma parseBody_violation `{RT : Runtime} self body c :
  parsedStrict self = true ->
  passes_strict_check body = false ->
  offending_character body = Some c ->
  parseBody self body =
    mkM [EvRegExpExec body; EvDebug "strict violation";
         EvJSONParse (before_first c body ++ js "#") VUndefined]
        (Throw (strict_error body [c])).
Proof.
  intros Hs Hp Hc. unfold passes_strict_check, offending_character in *.
  destruct (first_non_whitespace body) as [c'|] eqn:Hf.
  - injection Hc as ->. rewrite (before_first_leading body c Hf).
    exact (parseBody_strict_violation self body c Hs Hf Hp).
  - exact (proj2 (parseBody_whitespace_body self body c Hs Hf Hc)).
Qed.

Lemma before_first_all_whitespace body c :
  offending_character body = Some c ->
  forallb is_whitespace (before_first c body) = true.
Proof.
  unfold offending_character.
  destruct (first_non_whitespace body) as [c'|] eqn:Hf.
  - intros [= ->]. rewrite (before_first_leading body c Hf).
    apply leading_whitespace_all.
  - intros _. exact (before_first_whitespace c body Hf).
Qed.

(** A body that strict parsing rejects has an offending character, unless it
    is made of line terminators only. *)
Lemma offending_character_exists body :
  passes_strict_check body = false ->
  forallb is_line_terminator body = false ->
  exists c, offending_character body = Some c.
Proof.
  intros _ Hlt. unfold offending_character.
  destruct (first_non_whitespace body) as [c|]; [eauto|].
  destruct (last_dot_char body) as [d|] eqn:Hd; [eauto|].
  apply last_dot_char_None in Hd. congruence.
Qed.

(** X12.  On the reference engine the error of a strict violation matches
    a native error: whenever [strict] rejects a body with an offending
    character (the body does not pass the check and is not made of line
    terminators only), what [parseBody] throws is exactly the SyntaxError the
    engine makes for a message [Unexpected token ... in JSON at position
    ...], stack included, with no other property; the error [strict
    violation] of the source is never thrown.  When only white space of the
    JSON grammar comes before the first occurrence of the offending
    character in the body, the token is the offending character and the
    position is that of this first occurrence: the character's own position
    when it is not white space, any earlier one it occurs at in a body of
    white space only. *)
Theorem strict_violation_matches_native_error :
  forall (call : FunRef -> jsstring -> Value -> Value) (self : Self) (body : jsstring),
    parsedStrict self = true ->
    passes_strict_check body = false ->
    forallb is_line_terminator body = false ->
    exists c y p,
      offending_character body = Some c /\
      (exists rest, body = before_first c body ++ c :: rest) /\
      outcome (parseBody (RT := RefEngine.runtime call) self body) =
        Throw (new_error (RT := RefEngine.runtime call) CSyntaxError (token_message y p)) /\
      (forallb is_json_whitespace (before_first c body) = true ->
         y = c /\ p = N.of_nat (length (before_first c body))).
Proof.
  intros call self body Hs Hp Hlt.
  destruct (offending_character_exists body Hp Hlt) as (c & Hc).
  pose proof (offending_character_elem body c Hc) as Hin.
  destruct (strict_error_on_engine call body c _
              (substring_before_first c body Hin)
              (before_first_all_whitespace body c Hc))
    as (y & p & Herr & Hpos).
  exists c, y, p. split; [exact Hc|].
  split; [exact (before_first_split c body Hin)|]. split; [|exact Hpos].
  rewrite (parseBody_violation (RT := RefEngine.runtime call) self body c Hs Hp Hc).
  cbn [outcome]. by rewrite Herr.
Qed.

Lemma strict_violation_matches_native_error_witness :
  outcome (parseBody (RT := Examples.engine) Examples.strict_self (js " true")) =
    Throw (new_error (RT := Examples.engine) CSyntaxError (token_message (ch "t") 1)) /\
  outcome (parseBody (RT := Examples.engine) Examples.strict_self [9; 32; 9]) =
    Throw (new_error (RT := Examples.engine) CSyntaxError (token_message 9 0)).
Proof.
  split.
  - destruct (strict_violation_matches_native_error
                Examples.call Examples.strict_self (js " true")
                eq_refl eq_refl eq_refl)
      as (c & y & p & Hc & _ & Hout & Hpos).
    injection Hc as <-.
    destruct (Hpos eq_refl) as [-> ->]. exact Hout.
  - destruct (strict_violation_matches_native_error
                Examples.call Examples.strict_self [9; 32; 9]
                eq_refl eq_refl eq_refl)
      as (c & y & p & Hc & _ & Hout & Hpos).
    injection Hc as <-.
    destruct (Hpos eq_refl) as [-> ->]. exact Hout.
Defined.

(** ** White space the parser does not know, and blank bodies *)

Module ForeignSpace.
Import RefEngine.

Lemma skip_ws_leading s pos :
  skip_ws s pos =
    (drop (length (leading_json_whitespace s)) s,
     pos + N.of_nat (length (leading_json_whitespace s))).
Proof.
  revert pos. induction s as [|c s IH]; intros pos.
  - cbn. f_equal. lia.
  - cbn [skip_ws leading_json_whitespace]. destruct (is_json_whitespace c).
    + rewrite IH. cbn [length drop]. f_equal. lia.
    + cbn [length drop]. f_equal. lia.
Qed.

Lemma first_json_char_drop s y :
  first_json_char s = Some y ->
  exists tail, drop (length (leading_json_whitespace s)) s = y :: tail.
Proof.
  induction s as [|c s IH]; [discriminate|].
  cbn [first_json_char leading_json_whitespace].
  destruct (is_json_whitespace c).
  - intros H. destruct (IH H) as (tail & Ht). exists tail. exact Ht.
  - intros [= ->]. exists s. reflexivity.
Qed.

Lemma first_json_char_None s :
  first_json_char s = None -> drop (length (leading_json_whitespace s)) s = [].
Proof.
  induction s as [|c s IH]; [reflexivity|].
  cbn [first_json_char leading_json_whitespace].
  destruct (is_json_whitespace c); [|discriminate]. exact IH.
Qed.

(** The parser stops at white space that is not of the JSON grammar. *)
Lemma parse_text_foreign_space text y :
  first_json_char text = Some y ->
  is_whitespace y = true ->
  parse_text text = Bad (N.of_nat (length (leading_json_whitespace text))) (Some y).
Proof.
  intros Hf Hy. unfold parse_text.
  replace (2 * length text + 2)%nat with (S (2 * length text + 1)) by lia.
  cbn [parse_value]. rewrite skip_ws_leading.
  destruct (first_json_char_drop text y Hf) as (tail & ->).
  destruct (NativeShape.starts_no_value_dispatch y (or_introl Hy))
    as (-> & -> & -> & -> & -> & -> & ->).
  reflexivity.
Qed.

(** The parser finds the end of a text of JSON white space. *)
Lemma parse_text_blank text :
  first_json_char text = None ->
  parse_text text = Bad (N.of_nat (length (leading_json_whitespace text))) None.
Proof.
  intros Hf. unfold parse_text.
  replace (2 * length text + 2)%nat with (S (2 * length text + 1)) by lia.
  cbn [parse_value]. rewrite skip_ws_leading, (first_json_char_None text Hf).
  reflexivity.
Qed.

Lemma json_whitespace_only s :
  forallb is_json_whitespace s = true ->
  first_json_char s = None /\ first_non_whitespace s = None.
Proof.
  induction s as [|c s IH]; [done|].
  cbn [forallb first_json_char first_non_whitespace].
  intros H. apply andb_true_iff in H as [Hc Hs].
  rewrite Hc, (json_whitespace_is_whitespace c Hc). exact (IH Hs).
Qed.

Lemma before_first_json_whitespace d s :
  forallb is_json_whitespace s = true ->
  forallb is_json_whitespace (before_first d s) = true.
Proof.
  induction s as [|c s IH]; [reflexivity|].
  cbn [forallb before_first]. intros H. apply andb_true_iff in H as [Hc Hs].
  destruct (c =? d); [reflexivity|]. cbn [forallb]. rewrite Hc. exact (IH Hs).
Qed.
End ForeignSpace.

(** What [parseBody] throws on the reference engine when the decoding of the
    body stops with a message that holds no replacement pattern: the error
    of the engine for that message. *)
Lemma decode_on_engine call self body p found :
  RefEngine.parse_text body = RefEngine.Bad p found ->
  literal_replacement (RefEngine.syntax_message p found) = true ->
  outcome (decode (RT := RefEngine.runtime call) self body) =
    Throw (new_error (RT := RefEngine.runtime call) CSyntaxError
             (RefEngine.syntax_message p found)).
Proof.
  intros Hparse Hlit. unfold decode. cbn [outcome JSON_parse RefEngine.runtime].
  unfold RefEngine.parse. rewrite Hparse.
  rewrite normalize_plain by reflexivity.
  cbn [ctor message stack obj_message obj_stack].
  rewrite (replace_by_itself _ _ Hlit). reflexivity.
Qed.

(** X13.  On the reference engine, a body whose first character after the
    white space of the JSON grammar is another white space character (a form
    feed, a no-break space, the byte order mark) is not decoded, whatever
    follows: the strict check skips that character, so the body may pass it,
    and the parser stops there; [parseBody] throws the SyntaxError of the
    engine that names that character at its position. *)
Theorem foreign_white_space_is_rejected_by_the_parser :
  forall (call : FunRef -> jsstring -> Value -> Value)
         (self : Self) (body : jsstring) (y : N),
    (parsedStrict self = true -> passes_strict_check body = true) ->
    first_json_char body = Some y ->
    is_whitespace y = true ->
    outcome (parseBody (RT := RefEngine.runtime call) self body) =
      Throw (new_error (RT := RefEngine.runtime call) CSyntaxError
               (token_message y (N.of_nat (length (leading_json_whitespace body))))).
Proof.
  intros call self body y Hpass Hf Hy.
  assert (body ≠ []) as Hne by (intros ->; discriminate).
  pose proof (ForeignSpace.parse_text_foreign_space body y Hf Hy) as Hparse.
  pose proof (decode_on_engine call self body _ _ Hparse) as Hdec.
  rewrite (NativeShape.syntax_message_token y _ (or_introl Hy)) in Hdec.
  specialize (Hdec (NativeShape.literal_token_message _ _)).
  destruct (parsedStrict self) eqn:Hs.
  - rewrite (parseBody_passes (RT := RefEngine.runtime call) self body Hs (Hpass eq_refl)).
    exact Hdec.
  - rewrite (parseBody_nonstrict (RT := RefEngine.runtime call) self body Hne Hs).
    exact Hdec.
Qed.

Lemma foreign_white_space_is_rejected_by_the_parser_witness :
  outcome (parseBody (RT := Examples.engine) Examples.strict_self
             ([32; 65279] ++ js "{}")) =
    Throw (new_error (RT := Examples.engine) CSyntaxError (token_message 65279 1)).
Proof.
  apply (foreign_white_space_is_rejected_by_the_parser
           Examples.call Examples.strict_self ([32; 65279] ++ js "{}") 65279);
    reflexivity.
Defined.

(** X14.  Only the empty body is taken for the empty object.  On the
    reference engine, a body that is not empty and holds white space of the
    JSON grammar only is a syntax error: with [strict] off the parser reports
    the end of the input; with [strict] on, when the body holds a space or a
    tab, the error names the last of them as the unexpected token, at the
    position of its first occurrence. *)
Theorem blank_body_is_a_syntax_error :
  forall (call : FunRef -> jsstring -> Value -> Value) (self : Self) (body : jsstring),
    body ≠ [] ->
    forallb is_json_whitespace body = true ->
    (parsedStrict self = false ->
       outcome (parseBody (RT := RefEngine.runtime call) self body) =
         Throw (new_error (RT := RefEngine.runtime call) CSyntaxError
                  (js "Unexpected end of JSON input"))) /\
    (parsedStrict self = true ->
       forall d, last_dot_char body = Some d ->
         outcome (parseBody (RT := RefEngine.runtime call) self body) =
           Throw (new_error (RT := RefEngine.runtime call) CSyntaxError
                    (token_message d (N.of_nat (length (before_first d body)))))).
Proof.
  intros call self body Hne Hblank.
  destruct (ForeignSpace.json_whitespace_only body Hblank) as [Hj Hf].
  split.
  - intros Hs.
    rewrite (parseBody_nonstrict (RT := RefEngine.runtime call) self body Hne Hs).
    exact (decode_on_engine call self body _ None
             (ForeignSpace.parse_text_blank body Hj) eq_refl).
  - intros Hs d Hd.
    destruct (last_dot_char_elem body d Hd) as [Hin _].
    destruct (strict_error_on_engine call body d _
                (substring_before_first d body Hin)
                (before_first_whitespace d body Hf))
      as (y & p & Herr & Hpos).
    destruct (Hpos (ForeignSpace.before_first_json_whitespace d body Hblank)) as [-> ->].
    destruct (parseBody_whitespace_body (RT := RefEngine.runtime call)
                self body d Hs Hf Hd) as [_ ->].
    cbn [outcome]. by rewrite Herr.
Qed.

Lemma blank_body_is_a_syntax_error_witness :
  outcome (parseBody (RT := Examples.engine) Examples.loose_self (js "  ")) =
    Throw (new_error (RT := Examples.engine) CSyntaxError
             (js "Unexpected end of JSON input")) /\
  outcome (parseBody (RT := Examples.engine) Examples.strict_self [10; 32; 32]) =
    Throw (new_error (RT := Examples.engine) CSyntaxError (token_message 32 1)).
Proof.
  destruct (blank_body_is_a_syntax_error Examples.call Examples.loose_self (js "  "))
    as [Hloose _]; [discriminate|reflexivity|].
  destruct (blank_body_is_a_syntax_error Examples.call Examples.strict_self [10; 32; 32])
    as [_ Hstrict]; [discriminate|reflexivity|].
  split.
  - apply Hloose. reflexivity.
  - apply (Hstrict eq_refl 32). reflexivity.
Defined.

(** ** What strict parsing returns *)

Module StrictResult.
Import RefEngine.

Lemma parse_members_container fuel s pos acc v rest p :
  parse_members fuel s pos acc = Ok v rest p -> is_container v = true.
Proof.
  revert s pos acc. induction fuel as [|fuel IH]; intros s pos acc; [discriminate|].
  cbn [parse_members].
  repeat match goal with
         | |- context [let '(_, _) := ?x in _] => destruct x
         | |- context [match ?x with _ => _ end] => destruct x
         end;
    try discriminate; try (intros [= <- _ _]; reflexivity); apply IH.
Qed.

Lemma parse_elements_container fuel s pos acc v rest p :
  parse_elements fuel s pos acc = Ok v rest p -> is_container v = true.
Proof.
  revert s pos acc. induction fuel as [|fuel IH]; intros s pos acc; [discriminate|].
  cbn [parse_elements].
  repeat match goal with
         | |- context [let '(_, _) := ?x in _] => destruct x
         | |- context [match ?x with _ => _ end] => destruct x
         end;
    try discriminate; try (intros [= <- _ _]; reflexivity); apply IH.
Qed.

(** A text that opens with a brace or a bracket is read as an object or an
    array, if it is read at all. *)
Lemma parse_text_of_container text v rest p :
  json_root_is_container text = true ->
  parse_text text = Ok v rest p ->
  is_container v = true.
Proof.
  unfold json_root_is_container, parse_text.
  replace (2 * length text + 2)%nat with (S (2 * length text + 1)) by lia.
  cbn [parse_value]. rewrite <- (RefEngineFacts.skip_ws_head text 0).
  destruct (skip_ws text 0) as [s pos]. cbn [fst].
  destruct s as [|c s]; [discriminate|]. cbn [head]. intros Hc.
  destruct (c =? ch "{") eqn:Hbrace.
  - destruct (skip_ws s (pos + 1)) as [s1 pos1].
    destruct s1 as [|d s1]; [discriminate|].
    destruct (d =? ch "}").
    + destruct (skip_ws s1 (pos1 + 1)) as [r q]. destruct r; [|discriminate].
      intros [= <- _ _]. reflexivity.
    + destruct (parse_members _ _ _ _) as [v' r' p'|] eqn:Hm; [|discriminate].
      destruct (skip_ws r' p') as [r q]. destruct r; [|discriminate].
      intros [= <- _ _]. exact (parse_members_container _ _ _ _ _ _ _ Hm).
  - cbn [orb] in Hc. rewrite Hc.
    destruct (skip_ws s (pos + 1)) as [s1 pos1].
    destruct s1 as [|d s1]; [discriminate|].
    destruct (d =? ch "]").
    + destruct (skip_ws s1 (pos1 + 1)) as [r q]. destruct r; [|discriminate].
      intros [= <- _ _]. reflexivity.
    + destruct (parse_elements _ _ _ _) as [v' r' p'|] eqn:Hm; [|discriminate].
      destruct (skip_ws r' p') as [r q]. destruct r; [|discriminate].
      intros [= <- _ _]. exact (parse_elements_container _ _ _ _ _ _ _ Hm).
Qed.
End StrictResult.

Lemma passes_strict_check_json_root body v rest p :
  passes_strict_check body = true ->
  RefEngine.parse_text body = RefEngine.Ok v rest p ->
  json_root_is_container body = true.
Proof.
  intros Hp Hparse. unfold json_root_is_container.
  destruct (first_json_char body) as [y|] eqn:Hj.
  - destruct (is_whitespace y) eqn:Hy.
    + rewrite (ForeignSpace.parse_text_foreign_space body y Hj Hy) in Hparse.
      discriminate.
    + unfold passes_strict_check in Hp.
      by rewrite (first_json_char_first_non_whitespace body y Hj Hy) in Hp.
  - rewrite (ForeignSpace.parse_text_blank body Hj) in Hparse. discriminate.
Qed.

(** X16.  What strict parsing is for: on the reference engine and without a
    reviver function, whatever [parseBody] returns with [strict] on is an
    object or an array, the empty object of the empty body included. *)
Theorem strict_parsing_returns_objects_and_arrays :
  forall (call : FunRef -> jsstring -> Value -> Value)
         (self : Self) (body : jsstring) (v : Value),
    parsedStrict self = true ->
    is_function (Opts.reviver (options self)) = false ->
    outcome (parseBody (RT := RefEngine.runtime call) self body) = Return v ->
    is_container v = true.
Proof.
  intros call self body v Hs Hr Hret.
  destruct body as [|c body]; [injection Hret as <-; reflexivity|].
  destruct (passes_strict_check (c :: body)) eqn:Hp.
  - rewrite (parseBody_passes (RT := RefEngine.runtime call) self _ Hs Hp) in Hret.
    unfold decode in Hret. cbn [outcome JSON_parse RefEngine.runtime] in Hret.
    destruct (RefEngine.parse call (c :: body) _) as [v'|e] eqn:Hparse; [|discriminate].
    injection Hret as ->.
    destruct (RefEngineFacts.parse_without_reviver call _ _ _ Hr Hparse)
      as (rest & p & Htext).
    eapply StrictResult.parse_text_of_container; [|exact Htext].
    eapply passes_strict_check_json_root; eassumption.
  - destruct (parseBody_strict_rejects (RT := RefEngine.runtime call)
                self (c :: body) Hs ltac:(discriminate) Hp) as (e & He & _).
    congruence.
Qed.

Lemma strict_parsing_returns_objects_and_arrays_witness :
  is_container (VArr [VNum (Dec false 1 0); VNull]) = true.
Proof.
  apply (strict_parsing_returns_objects_and_arrays
           Examples.call Examples.strict_self (js "[1, null]"));
    reflexivity.
Defined.

(** * The errors of the parser *)

(** ** Plain substitution *)

Lemma substitute_first_indexOf i s old new :
  (0 <= i)%Z ->
  substitute_first s old new =
    if (indexOf_from i s old <? 0)%Z then s
    else take (Z.to_nat (indexOf_from i s old - i)) s ++ new
         ++ drop (Z.to_nat (indexOf_from i s old - i) + length old) s.
Proof.
  revert i. induction s as [|c s IH]; intros i Hi.
  - cbn [substitute_first indexOf_from]. destruct (is_prefix old []).
    + assert ((i <? 0)%Z = false) as -> by (apply Z.ltb_ge; lia).
      rewrite Z.sub_diag. reflexivity.
    + reflexivity.
  - cbn [substitute_first indexOf_from]. destruct (is_prefix old (c :: s)) eqn:Hp.
    + assert ((i <? 0)%Z = false) as -> by (apply Z.ltb_ge; lia).
      rewrite Z.sub_diag. reflexivity.
    + rewrite (IH (i + 1)%Z ltac:(lia)).
      destruct (indexOf_from (i + 1) s old <? 0)%Z eqn:Hneg; [reflexivity|].
      destruct (indexOf_from_found (i + 1) s old ltac:(lia) Hneg) as [Hle _].
      replace (Z.to_nat (indexOf_from (i + 1) s old - i))
        with (S (Z.to_nat (indexOf_from (i + 1) s old - (i + 1)))) by lia.
      reflexivity.
Qed.

(** With a replacement that holds no pattern, [replace] is the plain
    substitution. *)
Lemma replace_literal s old new :
  literal_replacement new = true -> replace s old new = substitute_first s old new.
Proof.
  intros Hnew. unfold replace, indexOf.
  rewrite (substitute_first_indexOf 0 s old new ltac:(lia)), Z.sub_0_r.
  rewrite (GetSubstitution_literal _ _ _ new Hnew). reflexivity.
Qed.

Lemma replace_by_character s old c : replace s old [c] = substitute_first s old [c].
Proof.
  apply replace_literal. cbn [literal_replacement].
  rewrite andb_false_r. reflexivity.
Qed.

(** ** Every call of the parser *)

Section ParserCalls.
Context `{RT : Runtime}.



(** The error behind a strict violation is the one the parser throws on the
    text made for the diagnosis. *)
Lemma native_error_thrown body c e :
  c ∈ body ->
  JSON_parse (before_first c body ++ js "#") VUndefined = Throw e ->
  native_error body [c] = e.
Proof.
  intros Hin He. unfold native_error.
  rewrite (substring_before_first c body Hin), He. reflexivity.
Qed.
End ParserCalls.




(** ** The message of a strict violation *)

(** C7, as the code has it.  For every strict violation with an offending
    character, on every engine: the body is cut before the first occurrence
    of the offending character (for a character that is not white space,
    before the character itself, after the white space in front of it), the
    placeholder is appended, and that text is what the parser is called
    with, without a reviver; the error the parser throws on it is the native
    error; and the message of the error that is thrown is the native message
    with the offending character in the place of its first placeholder.
    When the native message names the placeholder as the unexpected token at
    a position, the message thrown names the offending character at that
    position.  The reference engine, which words its messages as V8 did up
    to Node 18, does so whenever only white space of the JSON grammar comes
    before that first occurrence, and the position is the one of the first
    occurrence: the message names the offending character where it first
    occurs in the body. *)
Theorem strict_error_names_offending_character :
  (forall (RT : Runtime) (self : Self) (body : jsstring) (c : N),
     parsedStrict self = true ->
     passes_strict_check body = false ->
     offending_character body = Some c ->
     let cut := before_first c body in
     let native := native_error body [c] in
     (exists rest, body = cut ++ c :: rest) /\
     (first_non_whitespace body = Some c -> cut = leading_whitespace body) /\
     substring body 0 (indexOf body [c]) = cut /\
     parseBody self body =
       mkM [EvRegExpExec body; EvDebug "strict violation";
            EvJSONParse (cut ++ js "#") VUndefined]
           (Throw (strict_error body [c])) /\
     (forall e, JSON_parse (cut ++ js "#") VUndefined = Throw e -> native = e) /\
     message (strict_error body [c]) =
       substitute_first (message native) (js "#") [c] /\
     (forall n, message native = token_message (ch "#") n ->
                message (strict_error body [c]) = token_message c n)) /\
  (forall (call : FunRef -> jsstring -> Value -> Value)
          (self : Self) (body : jsstring) (c : N),
     parsedStrict self = true ->
     passes_strict_check body = false ->
     offending_character body = Some c ->
     forallb is_json_whitespace (before_first c body) = true ->
     let position := N.of_nat (length (before_first c body)) in
     message (native_error (RT := RefEngine.runtime call) body [c]) =
       token_message (ch "#") position /\
     exists e : JsError,
       outcome (parseBody (RT := RefEngine.runtime call) self body) = Throw e /\
       ctor e = CSyntaxError /\
       message e = token_message c position).
Proof.
  assert (forall (RT : Runtime) body c,
             message (strict_error body [c]) =
               replace (message (native_error body [c])) (js "#") [c]) as Hmessage.
  { intros RT body c. unfold strict_error.
    destruct (normalize_fields (native_error body [c])
                {| obj_message := replace (message (native_error body [c])) (js "#") [c];
                   obj_stack := stack (native_error body [c]) |}) as (_ & -> & _).
    reflexivity. }
  assert (forall (RT : Runtime) body c n,
             message (native_error body [c]) = token_message (ch "#") n ->
             message (strict_error body [c]) = token_message c n) as Htoken.
  { intros RT body c n Hn.
    rewrite Hmessage, Hn, NativeShape.replace_in_token_message, N.eqb_refl.
    reflexivity. }
  split.
  - intros RT self body c Hs Hp Hc cut native.
    pose proof (offending_character_elem body c Hc) as Hin.
    split; [exact (before_first_split c body Hin)|].
    split; [intros Hf; exact (before_first_leading body c Hf)|].
    split; [exact (substring_before_first c body Hin)|].
    split; [exact (parseBody_violation self body c Hs Hp Hc)|].
    split; [intros e He; exact (native_error_thrown body c e Hin He)|].
    split; [rewrite Hmessage; apply replace_by_character|].
    apply Htoken.
  - intros call self body c Hs Hp Hc Hws position.
    set (RT := RefEngine.runtime call).
    pose proof (offending_character_elem body c Hc) as Hin.
    assert (message (native_error body [c]) = token_message (ch "#") position)
      as Hnative.
    { unfold native_error. rewrite (substring_before_first c body Hin).
      cbn [JSON_parse RT RefEngine.runtime]. unfold RefEngine.parse.
      rewrite (StrictMessage.parse_text_placeholder _ Hws). reflexivity. }
    split; [exact Hnative|].
    exists (strict_error body [c]).
    split; [rewrite (parseBody_violation self body c Hs Hp Hc); reflexivity|].
    split; [apply strict_error_ctor, RefEngineFacts.parse_throws_syntax_errors|].
    exact (Htoken RT body c position Hnative).
Qed.

Lemma strict_error_names_offending_character_witness :
  let body := [34] ++ js "abc" ++ [34] in
  parseBody (RT := Examples.engine) Examples.strict_self body =
    mkM [EvRegExpExec body; EvDebug "strict violation"; EvJSONParse (js "#") VUndefined]
        (Throw (strict_error (RT := Examples.engine) body [34])) /\
  message (strict_error (RT := Examples.engine) body [34]) =
    js "Unexpected token " ++ [34] ++ js " in JSON at position 0" /\
  (exists e : JsError,
     outcome (parseBody (RT := Examples.engine) Examples.strict_self (js "  true")) =
       Throw e /\
     ctor e = CSyntaxError /\
     message e = js "Unexpected token t in JSON at position 2") /\
  (exists e : JsError,
     outcome (parseBody (RT := Examples.engine) Examples.strict_self [9; 32; 9]) =
       Throw e /\
     ctor e = CSyntaxError /\
     message e = js "Unexpected token " ++ [9] ++ js " in JSON at position 0").
Proof.
  intros body.
  destruct (proj1 strict_error_names_offending_character
              Examples.engine Examples.strict_self body 34 eq_refl eq_refl eq_refl)
    as (_ & _ & _ & Hp & _ & _ & Hm).
  split; [exact Hp|]. split; [exact (Hm 0 eq_refl)|]. split.
  - exact (proj2 (proj2 strict_error_names_offending_character
                    Examples.call Examples.strict_self (js "  true") (ch "t")
                    eq_refl eq_refl eq_refl eq_refl)).
  - exact (proj2 (proj2 strict_error_names_offending_character
                    Examples.call Examples.strict_self [9; 32; 9] 9
                    eq_refl eq_refl eq_refl eq_refl)).
Defined.

(** C7 as stated does not hold for every strict violation.  In the body made
    of a form feed and the digit 1, the offending character is the digit, at
    position 1, and the message of the error names the form feed at position
    0.  In the body made of a tab, a space and a tab, the offending
    character is the tab the regular expression matched last, at position 2,
    and the message names it at position 0.  And on an engine whose message
    quotes the character and the text, the message for the body [42] names
    the offending character without any position, next to the text with the
    placeholder. *)
Lemma strict_error_names_form_feed :
  parsedStrict Examples.strict_self = true /\
  first_non_whitespace [12; 49] = Some 49 /\
  indexOf [12; 49] [49] = 1%Z /\
  (exists e : JsError,
     outcome (parseBody (RT := Examples.engine) Examples.strict_self [12; 49]) = Throw e /\
     message e = js "Unexpected token " ++ [12] ++ js " in JSON at position 0" /\
     message e <> js "Unexpected token " ++ [49] ++ js " in JSON at position 1") /\
  exec_firstchar [9; 32; 9] = Some ([9; 32; 9], [9]) /\
  (exists e : JsError,
     outcome (parseBody (RT := Examples.engine) Examples.strict_self [9; 32; 9]) = Throw e /\
     message e = js "Unexpected token " ++ [9] ++ js " in JSON at position 0" /\
     message e <> js "Unexpected token " ++ [9] ++ js " in JSON at position 2") /\
  (exists e : JsError,
     outcome (parseBody (RT := QuotingEngine.engine) Examples.strict_self (js "42")) =
       Throw e /\
     message e = js "Unexpected token '4', " ++ [34] ++ js "#" ++ [34]
                 ++ js " is not valid JSON").
Proof.
  split; [reflexivity|]. split; [reflexivity|]. split; [reflexivity|].
  split; [eexists; split; [reflexivity|]; split; [reflexivity|discriminate]|].
  split; [reflexivity|].
  split; [eexists; split; [reflexivity|]; split; [reflexivity|discriminate]|].
  eexists. split; reflexivity.
Qed.
